(* ===== verification/_CoqProject ===== *)
-Q . S2P
Prelude.v
Samples.v
Resample.v
FloatCheck.v
AudioQueue.v
Text.v
Pipeline.v
Devices.v
System.v
Display.v
Bootstrap.v
