(* ===== verification/Prelude.v ===== *)
(** * Verification of live-transcribe

    The program ([src/live_transcribe.py]) captures microphone audio through
    a driver callback, queues the captured blocks, and a worker thread cuts
    the queue into windows of 20 blocks, converts each window to 16 kHz,
    wraps it in a WAV container, sends it to a transcription service and
    shows the answer on an overlay.  A tray menu selects the input device
    and toggles a pause flag.  The threads communicate through module-level
    globals ([audio_q], [paused], [SAMPLE_RATE], [input_device_index],
    [selected_event], [signal_handler]).

    ** Files, in dependency order

    - [Prelude] (this file): Python exceptions as the type [exn], the
      exception monad [pyres] and the state-and-exception monad [py] with
      the notation scope [py_scope], the hint databases [lt] and [lt_len],
      the tactics [simp_len], [case_cmp] and [case_pyres], the function
      [windows], executions of a labelled relation ([trace]), and the list
      and integer lemmas the components share.
    - [Samples]: signed 16-bit samples on [Z] ([wrap16] is numpy's cast to
      int16, [trunc] the conversion of a float to an integer), blocks,
      [concatenate] (line 148), and [tobytes] (line 158) with its inverse.
    - [Resample]: [py_round] (Python's [round] on an exact quotient),
      [num_samples] and [resample_audio] (lines 115-117), against the
      interface [Resampler], which states what the code relies on from
      [scipy.signal.resample].
    - [FloatCheck]: line 116 as the interpreter computes it, on binary64
      doubles ([float_num_samples]: float division, then [round] to the
      nearest integer, ties to even), and its comparison with
      [num_samples] by computation over a range of rates.
    - [AudioQueue]: the interface [Fifo] for [queue.Queue] with its list
      implementation, and [get_frames], the list comprehension of line 147.
    - [Text]: strings as lists of code points, [py_strip] and [py_lower]
      ([str.strip], [str.lower]), and [display_text], the text shown for an
      answer (lines 167-172).
    - [Pipeline]: the globals as the record [state]; [update_text] (lines
      67-69), [toggle_pause] (186-190), [audio_callback] (120-123); one
      iteration of the worker's loop (142-175) as the function
      [transcribe_loop_body] from the state and the service's answer to an
      [outcome], and [transcribe_loop], which iterates it over a list of
      answers.
    - [Devices]: the audio subsystem as a list of [device_info], the file
      [config.json] as [config_file], and [list_devices] (80-90),
      [save_device] (93-95), [load_device] (98-102) and [set_input_device]
      (105-112) in the monad [py] over the record [world].
    - [System]: the threads.  The main thread from line 267 on, the worker,
      the tray thread, the recording thread ([record_audio], 126-136) and
      the driver are program points in the record [sys]; the relation
      [step] has one rule per statement and outcome, labelled by the
      [action] that takes it; [exec] is the same relation as a function
      and [run] executes a list of actions.
    - [Display]: the overlay.  [TransparentWindow] (lines 39-64) is a
      record of what the program sets and reads of the window, with
      [initUI], [mousePressEvent], [mouseMoveEvent] and [update_label]
      (256-259) as functions; the event loop of line 284 is the relation
      [dstep] on a [desk], the threads of [System] with the interface
      [gui]: a step of a thread, the delivery of the next emitted signal
      to [update_label], or a mouse event.  [dexec] is the same relation
      as a function.
    - [Bootstrap]: [create_initial_files] (209-235), [load_dotenv] and the
      construction of the client (240-243) in the monad [py] over the
      record [disk] of the two files, the environment variable and what was
      printed; the threads of [System] start from the [config.json] it
      leaves.

    ** How the model corresponds to the code

    Every definition that models code carries the name of the function or
    variable it models.  Python values have the type that holds exactly
    their values where there is one ([Z] for [int], [bool], [option] for a
    variable that may be [None], lists for arrays and strings); an
    exception is a value of [exn] carried by [pyres].  A call that blocks
    returns [None] in the functional models and has no rule in [step].
    Library calls ([queue.Queue], [str.strip], numpy's casts,
    [scipy.signal.resample], [sd.query_devices], [sd.InputStream]) are
    modelled from their documented behaviour, as small executable
    definitions or as interfaces ([Class]es) with the laws the program
    depends on.  What the environment decides is an argument: the
    service's answer, the blocks and status flags of the driver, whether
    the host accepts a stream, the devices present, the item clicked.

    In [System] a step is one statement of one thread.  [set_input_device]
    advances statement by statement ([sel_step]), the comprehension of line
    147 one [get] at a time, and the conversion reads [SAMPLE_RATE] twice
    (lines 150 and 151) in two steps.  [toggle_pause] and [audio_callback]
    are one step each.  The record [sys] carries three histories that no
    statement reads: the blocks delivered, the blocks of the windows
    completed, and the requests sent.

    [update_text] runs in the worker and in the tray thread and only emits
    a signal; the receiver lives in the main thread, so every emission is
    queued and [update_label] runs in the event loop.  In [Display] the
    queue is the part of [emitted] after the texts already delivered
    ([pending]); [Pipeline.label], the text the other files reason with,
    is the label once nothing is pending ([display_catches_up]).

    ** What the theorems show

    - Samples: [wrap16] lands in range and is the identity on int16;
      [tobytes] writes two bytes per sample and [frombytes] inverts it.
    - Resample: [py_round] is the nearest integer with ties to even;
      [resample_audio] returns [round (len * target / orig)] samples in the
      int16 range, and raises only [ZeroDivisionError] and [ValueError].
    - FloatCheck: for the program's window (80000 samples, to 16 kHz) the
      computation on doubles and the exact one give the same sample count
      at every rate from 1 Hz to 200 kHz ([float_num_samples_agrees]).
    - AudioQueue: [get_frames n] returns the [n] oldest blocks in arrival
      order and leaves the rest, for every implementation of [Fifo]; it
      blocks exactly when fewer than [n] blocks are queued.
    - Text: [py_strip] removes exactly the surrounding white space; an
      answer is hidden exactly when it is empty or a case variant of "you".
    - Pipeline: the worker sends the consecutive windows of the queue in
      order, one request per answer; a paused iteration changes nothing and
      no block is dropped while paused; a failed service call leaves the
      loop able to send the next window; with no sample rate the
      conversion raises outside the [try] and the worker ends; the
      conversion keeps the duration of the audio within 1/32000 s.
    - Devices: [list_devices] lists exactly the usable devices in order;
      [set_input_device] establishes a consistent selection on a valid
      index and leaves an inconsistent one on an invalid index; a switch
      converts the blocks already queued at the new rate.
    - System: [exec] and [step] agree.  Invariants of the reachable states,
      by induction on [step]: the audio is conserved in order
      ([audio_conserved]); the i-th request is made from the i-th window of
      the captured audio ([requests_follow_windows]); the event is set only
      with a rate and a rate only with a device ([selection_invariant]);
      the threads start in order ([startup_order]); with a saved device
      the worker never meets a missing rate ([restored_start_has_rate]);
      the stream is opened once and a failed opening is final.
      Refinements: every outcome of [transcribe_loop_body] and every run
      of [set_input_device] is an execution of the system in which one
      thread moves alone ([worker_refines_body],
      [click_refines_handler]).  Progress: with the stream open, a rate
      set and answers that are not fatal, the worker sends the next
      window ([worker_progress]).  Executions computed by [run] show the
      race between line 276 and a device click ([startup_race]) and a
      window sent while the pause flag is set ([pause_read_at_top_only]).
      A window is 80000 frames at any rate: the request made from it
      keeps their duration within half a sample and holds five seconds
      only at 16 kHz ([window_duration]).
      With no device saved and none in the menu the main thread waits
      for ever and Quit does nothing ([no_device_no_exit]).
      Types: every block in the system is 4000 int16 samples, every
      request a mono 16-bit 16 kHz file of whole samples, and the pause
      item names what the next click does ([well_typed]).
    - Display: the label holds the last text delivered and the texts
      delivered are a prefix of the texts emitted
      ([label_shows_last_delivered]); nothing is delivered before the main
      thread enters the event loop, so a pause clicked while it waits for
      a device is not shown ([nothing_delivered_before_loop]); in the loop
      the display catches up with the last text emitted
      ([display_catches_up]); a drag moves the window by the distance
      between press and last position ([drag_moves_window]) and its
      handler never raises ([move_never_raises]); an execution of the
      event loop projects to an execution of the threads, so the
      invariants of [System] hold with the display in place
      ([desk_simulates_threads]).
    - Bootstrap: the first start creates the files and exits with status
      1; the start-up by cases on the files and the environment; a second
      start with the created [.env] untouched runs with an empty key.

    ** Bounds and idealisations

    - [len * target_sr / orig_sr] is a float division in the source; the
      models of [Resample] and the files after it divide exactly.
      [FloatCheck] checks the two against each other by evaluating both on
      every rate of the range 1 to 200000 Hz, which contains the rates of
      audio devices (the highest in use is 192 kHz), for the window of the
      program; the check is a computation on the kernel's primitive
      floats, in 4 runs of 50000 rates.  For other lengths the agreement
      is not proved: a quotient below 2^31 with [orig_sr] below 2^21 that
      is not a half-integer lies at least 2^-22 away from one, more than
      half an ulp of a double of that magnitude, but that argument is not
      part of the development.
    - The numeric output of [scipy.signal.resample] is not modelled; the
      interface [Resampler] fixes its length only.
    - [str.lower] is exact on every code point whose lower case is in
      ASCII or Latin-1 and the identity elsewhere, which decides the
      comparison with "you" exactly.
    - The tray library is taken to call the handlers as the source intends:
      a device item runs [set_input_device] on its index, the pause item
      runs [toggle_pause], the assignment to [item.text] succeeds, and an
      exception in a handler is logged by the library and does not end the
      tray thread.  [app.quit()] ends the event loop when it runs and does
      nothing before.
    - The event loop dispatches a mouse move only while a button is down
      on the window (Qt's rule for a widget that does not track the
      mouse), and delivers the queued calls of [update_label] in the order
      of the emissions.  An exception in a handler called by the loop ends
      the application; [move_never_raises] shows that this does not
      happen.  Coordinates are unbounded integers: a [QPoint] holds C
      ints, which screen coordinates do not overflow.
    - [start_gui] (lines 72-76) is modelled and never called, as in the
      source.
    - The text of an exception is modelled for the service's exceptions
      only; the line of the handler of line 289 is its prefix.
    - No fuel is used: the loops of the source are bounded by a list they
      traverse, or are the infinite loops of the threads, which [step]
      models one statement at a time; [transcribe_loop] and [run] recurse
      on the list of answers or actions they are given.

    ** Not modelled

    The construction of the Qt application and of the signal object (lines
    246-249), of which the model keeps that [signal_handler] is set; what
    Qt does with the window's font, style sheet and flags, the painting of
    the label and the size [adjustSize] computes; the icon drawn by
    [create_icon_image] (PIL; lines 179-183); failures of file operations;
    the network call (its answer is a parameter); the bytes of the WAV
    header written by the [wave] module; the texts of [.env] and
    [config.json] (the model has what they give to the program); signals
    delivered to the process.  These are calls into libraries whose
    results the program does not read. *)

From Stdlib Require Export ZArith Lia.
From stdpp Require Export base tactics option list numbers.

#[global] Open Scope Z_scope.

(** ** Python exceptions *)

(** The exception classes the program can meet.  [KeyboardInterrupt] and
    [SystemExit] derive from [BaseException] only, so [except Exception]
    does not catch them. *)
Inductive exn : Type :=
  | ZeroDivisionError
  | TypeError
  | PortAudioError
  | OSError
  | ValueError
  | AttributeError
  | APIError
  | OpenAIError
  | KeyboardInterrupt
  | SystemExit (code : Z).

#[global] Instance exn_eq_dec : EqDecision exn.
Proof. solve_decision. Defined.

Definition is_Exception (e : exn) : bool :=
  match e with
  | KeyboardInterrupt | SystemExit _ => false
  | _ => true
  end.

(** The result of running a piece of Python: a value or a raised exception. *)
Inductive pyres (A : Type) : Type :=
  | Ok (a : A)
  | Raise (e : exn).

Arguments Ok {A} a.
Arguments Raise {A} e.

#[global] Instance pyres_ret : MRet pyres := @Ok.

#[global] Instance pyres_bind : MBind pyres := λ A B f m,
  match m with
  | Ok a => f a
  | Raise e => Raise e
  end.

#[global] Instance pyres_fmap : FMap pyres := λ A B f m,
  match m with
  | Ok a => Ok (f a)
  | Raise e => Raise e
  end.

#[global] Instance pyres_eq_dec `{EqDecision A} : EqDecision (pyres A).
Proof. solve_decision. Defined.

(** [try: c except Exception as e: h e]. *)
Definition try_except {A} (c : pyres A) (h : exn → pyres A) : pyres A :=
  match c with
  | Ok a => Ok a
  | Raise e => if is_Exception e then h e else Raise e
  end.

Definition is_Ok {A} (m : pyres A) : bool :=
  match m with Ok _ => true | Raise _ => false end.

Declare Scope py_scope.
Delimit Scope py_scope with py.
Notation "'pytry' c 'pyexcept' e '=>' h" := (try_except c (λ e, h))
  (at level 10, c at level 9, e name, h at level 200) : py_scope.

(** ** Stateful Python code *)

(** A computation on a state [S]: it returns a value or raises, and in both
    cases leaves a state.  What was assigned before an exception stays
    assigned. *)
Definition py (S A : Type) : Type := S → pyres A * S.

#[global] Instance py_ret {S} : MRet (py S) := λ A a s, (Ok a, s).

#[global] Instance py_bind {S} : MBind (py S) := λ A B f m s,
  match m s with
  | (Ok a, s') => f a s'
  | (Raise e, s') => (Raise e, s')
  end.

Definition py_get {S} : py S S := λ s, (Ok s, s).

Definition py_modify {S} (f : S → S) : py S unit := λ s, (Ok tt, f s).

Definition py_lift {S A} (r : pyres A) : py S A := λ s, (r, s).

(** [try: c except Exception as e: h e] on a state. *)
Definition py_try {S A} (c : py S A) (h : exn → py S A) : py S A := λ s,
  match c s with
  | (Raise e, s') => if is_Exception e then h e s' else (Raise e, s')
  | r => r
  end.

(** ** Executions of a labelled relation *)

(** [trace R s ls s']: the steps labelled [ls], one after the other, lead
    from [s] to [s']. *)
Inductive trace {S L : Type} (R : S → L → S → Prop) : S → list L → S → Prop :=
  | trace_nil s : trace R s [] s
  | trace_cons s l s1 ls s2 : R s l s1 → trace R s1 ls s2 → trace R s (l :: ls) s2.

(** The execution of the labels [ls] by a function that computes the
    steps, the state it leads to from [s0] ([s0] itself if a step is not
    possible), and whether every step is possible. *)
Fixpoint run_list {S L : Type} (f : L → S → option S) (ls : list L) (s : S) : option S :=
  match ls with
  | [] => Some s
  | l :: ls' => s' ← f l s; run_list f ls' s'
  end.

Definition run_from {S L : Type} (f : L → S → option S) (ls : list L) (s0 : S) : S :=
  default s0 (run_list f ls s0).

Definition runs_from {S L : Type} (f : L → S → option S) (ls : list L) (s0 : S) : bool :=
  match run_list f ls s0 with Some _ => true | None => false end.

(** ** Hint databases and tactics *)

Create HintDb lt discriminated.
Create Rewrite HintDb lt_len.

#[export] Hint Rewrite @length_app @length_take @length_drop @length_nil
  @length_cons @length_replicate @length_fmap : lt_len.

(** Normalise list lengths, then finish with linear arithmetic. *)
Ltac simp_len := autorewrite with lt_len in *; simpl length in *; try lia.

(** Case analysis on the comparison at the head of a [match]. *)
Ltac case_cmp :=
  match goal with
  | |- context [Z.compare ?a ?b] => destruct (Z.compare_spec a b)
  | H : context [Z.compare ?a ?b] |- _ => destruct (Z.compare_spec a b)
  end.

(** Case analysis on the result of running Python code. *)
Ltac case_pyres c := destruct c as [?|?] eqn:?; simplify_eq/=.

(** ** The monad's laws *)

Section pyres_laws.
Context {A B C : Type}.

Lemma pyres_bind_ret_l (a : A) (f : A → pyres B) : mret a ≫= f = f a.
Proof. done. Qed.

Lemma pyres_bind_ret_r (m : pyres A) : m ≫= mret = m.
Proof. by destruct m. Qed.

Lemma pyres_bind_assoc (m : pyres A) (f : A → pyres B) (g : B → pyres C) :
  (m ≫= f) ≫= g = m ≫= (λ a, f a ≫= g).
Proof. by destruct m. Qed.

Lemma pyres_bind_Ok (m : pyres A) (f : A → pyres B) (b : B) :
  m ≫= f = Ok b ↔ ∃ a, m = Ok a ∧ f a = Ok b.
Proof.
  destruct m as [a|e]; simpl; split; try done.
  - eauto.
  - by intros (a' & [= <-] & ?).
  - by intros (? & ? & ?).
Qed.

Lemma try_except_Ok (a : A) (h : exn → pyres A) : try_except (Ok a) h = Ok a.
Proof. done. Qed.

Lemma try_except_total (c : pyres A) (h : exn → A) (e : exn) :
  try_except c (λ e, Ok (h e)) = Raise e → is_Exception e = false ∧ c = Raise e.
Proof. destruct c as [a|e']; simpl; [done|]. destruct (is_Exception e') eqn:?; naive_solver. Qed.

End pyres_laws.

Section py_laws.
Context {S A B C : Type}.

Lemma py_bind_ret_l (a : A) (f : A → py S B) s : (mret a ≫= f) s = f a s.
Proof. done. Qed.

Lemma py_bind_ret_r (m : py S A) s : (m ≫= mret) s = m s.
Proof. unfold mbind, py_bind. by destruct (m s) as [[a|e] s']. Qed.

Lemma py_bind_assoc (m : py S A) (f : A → py S B) (g : B → py S C) s :
  ((m ≫= f) ≫= g) s = (m ≫= (λ a, f a ≫= g)) s.
Proof. unfold mbind, py_bind. by destruct (m s) as [[a|e] s']. Qed.

(** A computation that raised has not run what follows it. *)
Lemma py_bind_Raise (m : py S A) (f : A → py S B) s e s' :
  m s = (Raise e, s') → (m ≫= f) s = (Raise e, s').
Proof. unfold mbind, py_bind. by intros ->. Qed.

Lemma py_bind_Ok (m : py S A) (f : A → py S B) s a s' :
  m s = (Ok a, s') → (m ≫= f) s = f a s'.
Proof. unfold mbind, py_bind. by intros ->. Qed.

End py_laws.

(** ** Lists *)

Section lists.
Context {A : Type}.
Implicit Types (l k : list A) (ls : list (list A)).

(** The length of a concatenation of blocks that all have length [b]. *)
Lemma length_concat_uniform ls (b : nat) :
  Forall (λ l, length l = b) ls → length (concat ls) = (length ls * b)%nat.
Proof.
  induction 1 as [|l ls Hl _ IH]; simpl; [done|]. rewrite length_app, IH, Hl. lia.
Qed.

Lemma Forall_concat (P : A → Prop) ls :
  Forall (Forall P) ls → Forall P (concat ls).
Proof. induction 1; simpl; [constructor|by apply Forall_app]. Qed.

Lemma take_drop_split l (n : nat) :
  (n ≤ length l)%nat → ∃ l1 l2, l = l1 ++ l2 ∧ length l1 = n ∧ take n l = l1 ∧ drop n l = l2.
Proof.
  intros Hn. exists (take n l), (drop n l). rewrite take_drop, length_take.
  repeat split; lia.
Qed.

Lemma drop_drop_add l (n m : nat) : drop n (drop m l) = drop (m + n) l.
Proof. by rewrite drop_drop. Qed.

Lemma take_drop_commute_add l (n m : nat) : take n (drop m l) = drop m (take (m + n) l).
Proof. by rewrite take_drop_commute, Nat.add_comm. Qed.

(** The first [n] consecutive windows of [sz] elements of a list. *)
Fixpoint windows (sz n : nat) l : list (list A) :=
  match n with
  | O => []
  | S n' => take sz l :: windows sz n' (drop sz l)
  end.

Lemma windows_length sz n l : length (windows sz n l) = n.
Proof. revert l. induction n as [|n IH]; intros l; simpl; [done|]. by rewrite IH. Qed.

Lemma windows_uniform sz n l :
  (sz * n ≤ length l)%nat → Forall (λ w, length w = sz) (windows sz n l).
Proof.
  revert l. induction n as [|n IH]; intros l Hl; simpl; constructor.
  - rewrite length_take. lia.
  - apply IH. rewrite length_drop. lia.
Qed.

(** The windows are consecutive: together they are a prefix. *)
Lemma concat_windows sz n l : concat (windows sz n l) = take (sz * n) l.
Proof.
  revert l. induction n as [|n IH]; intros l; simpl.
  - by rewrite Nat.mul_0_r, take_0.
  - rewrite IH, take_take_drop. f_equal. lia.
Qed.

Lemma windows_lookup sz n l (i : nat) :
  (i < n)%nat → windows sz n l !! i = Some (take sz (drop (i * sz) l)).
Proof.
  revert l i. induction n as [|n IH]; intros l i Hi; [lia|].
  destruct i as [|i]; simpl; [done|].
  rewrite IH by lia. rewrite drop_drop. by rewrite Nat.add_comm.
Qed.

(** Windows depend on the elements they cover only. *)
Lemma windows_app_l sz n l k :
  (sz * n ≤ length l)%nat → windows sz n (l ++ k) = windows sz n l.
Proof.
  revert l. induction n as [|n IH]; intros l Hl; simpl; [done|].
  rewrite take_app_le, drop_app_le by lia. f_equal. apply IH. rewrite length_drop. lia.
Qed.

Lemma windows_snoc sz n l :
  windows sz (S n) l = windows sz n l ++ [take sz (drop (sz * n) l)].
Proof.
  revert l. induction n as [|n IH]; intros l.
  - simpl. by rewrite Nat.mul_0_r, drop_0.
  - change (windows sz (S (S n)) l) with (take sz l :: windows sz (S n) (drop sz l)).
    rewrite IH. simpl. by rewrite drop_drop, Nat.mul_succ_r, (Nat.add_comm (sz * n) sz).
Qed.

End lists.

Section traces.
Context {St La : Type} (R : St → La → St → Prop).

Lemma trace_app s ls1 s1 ls2 s2 :
  trace R s ls1 s1 → trace R s1 ls2 s2 → trace R s (ls1 ++ ls2) s2.
Proof. induction 1; simpl; eauto using trace. Qed.

Lemma trace_snoc s ls s1 l s2 : trace R s ls s1 → R s1 l s2 → trace R s (ls ++ [l]) s2.
Proof. intros Hs Hl. eapply trace_app; eauto using trace. Qed.

(** A property that every step preserves holds along every execution. *)
Lemma trace_invariant (P : St → Prop) :
  (∀ s l s', P s → R s l s' → P s') → ∀ s ls s', trace R s ls s' → P s → P s'.
Proof. intros Hstep. induction 1; eauto. Qed.

(** The executions of a function that computes the relation. *)
Context (f : La → St → option St) (Hf : ∀ l s s', f l s = Some s' ↔ R s l s').

Lemma run_list_trace ls s s' : run_list f ls s = Some s' ↔ trace R s ls s'.
Proof.
  revert s. induction ls as [|l ls IH]; intros s; simpl.
  - split; [intros [= <-]; constructor|by inversion 1].
  - split.
    + destruct (f l s) as [s1|] eqn:Hl; [|done]. simpl. intros Hr.
      econstructor; [by apply Hf|by apply IH].
    + inversion 1 as [|? ? s1 ? ? Hl Hr]; subst. apply Hf in Hl. rewrite Hl. simpl.
      by apply IH.
Qed.

Lemma run_list_app ls1 ls2 s : run_list f (ls1 ++ ls2) s = run_list f ls1 s ≫= run_list f ls2.
Proof.
  revert s. induction ls1 as [|l ls1 IH]; intros s; simpl; [done|].
  destruct (f l s); simpl; [apply IH|done].
Qed.

Lemma run_from_trace ls s0 : runs_from f ls s0 = true → trace R s0 ls (run_from f ls s0).
Proof.
  unfold runs_from, run_from. destruct (run_list f ls s0) eqn:Hr; [|done]. intros _.
  by apply run_list_trace.
Qed.

(** An execution cut in two. *)
Lemma run_from_drop n ls s0 :
  runs_from f ls s0 = true →
  trace R (run_from f (take n ls) s0) (drop n ls) (run_from f ls s0).
Proof.
  unfold runs_from, run_from. rewrite <- (take_drop n ls) at 1 4. rewrite run_list_app.
  destruct (run_list f (take n ls) s0) as [s1|]; [|done]. simpl.
  destruct (run_list f (drop n ls) s1) eqn:Hr; [|done]. intros _. by apply run_list_trace.
Qed.

Lemma runs_from_take n ls s0 : runs_from f ls s0 = true → runs_from f (take n ls) s0 = true.
Proof.
  unfold runs_from. rewrite <- (take_drop n ls) at 1. rewrite run_list_app.
  by destruct (run_list f (take n ls) s0).
Qed.

(** The step at position [n] of an execution. *)
Lemma run_from_step n ls s0 l :
  runs_from f ls s0 = true → ls !! n = Some l →
  R (run_from f (take n ls) s0) l (run_from f (take (S n) ls) s0).
Proof.
  intros Hr Hl. pose proof (runs_from_take (S n) ls s0 Hr) as Hr'.
  pose proof (run_from_drop n _ s0 Hr') as Hs. apply lookup_lt_Some in Hl as Hlt.
  rewrite (take_S_r ls n l Hl) in Hs at 1 2.
  rewrite take_app_length', drop_app_length' in Hs by (rewrite length_take; lia).
  inversion Hs as [|? ? ? ? ? Hstep Hnil]; subst. by inversion Hnil; subst.
Qed.

End traces.

#[export] Hint Resolve Forall_concat : lt.

(** ** Integers *)

(** Floor division brackets the dividend. *)
Lemma Z_div_bracket (p q : Z) : 0 < q → q * (p / q) ≤ p < q * (p / q) + q.
Proof.
  intros Hq. pose proof (Z.div_mod p q ltac:(lia)). pose proof (Z.mod_pos_bound p q Hq). lia.
Qed.

(** A quotient is determined by a bracket. *)
Lemma Z_div_unique_bracket (p q n : Z) : 0 < q → q * n ≤ p < q * n + q → p / q = n.
Proof. intros Hq Hn. symmetry. apply (Z.div_unique p q n (p - q * n)); lia. Qed.

Lemma Z_even_succ_odd (n : Z) : Z.even (n + 1) = negb (Z.even n).
Proof. by rewrite Z.even_add. Qed.
