(* ===== verification/Samples.v ===== *)
(** * Samples: signed 16-bit audio, blocks, concatenation and serialisation

    The stream is opened with [dtype='int16'] and [channels=1] (lines
    127-134), so a block is a sequence of signed 16-bit integers.  This file
    models the numpy operations the program applies to them:
    [np.concatenate] (line 148), [astype(np.int16)] (line 117) and
    [tobytes] (line 158), and proves their range, length and round-trip
    properties. *)

From Stdlib Require Import QArith_base.
From S2P Require Import Prelude.

#[local] Open Scope Z_scope.

(** ** Data *)

Definition int16_min : Z := -32768.
Definition int16_max : Z := 32767.

(** A value of numpy's [int16]. *)
Definition is_int16 (s : Z) : Prop := int16_min ≤ s ≤ int16_max.

#[global] Instance is_int16_dec s : Decision (is_int16 s).
Proof. unfold is_int16. apply _. Defined.

(** One block as the driver delivers it: [indata], a column of samples. *)
Abbreviation block := (list Z) (only parsing).

Definition block_ok (b : block) : Prop := Forall is_int16 b.

#[global] Instance block_ok_dec b : Decision (block_ok b).
Proof. unfold block_ok. apply _. Defined.

(** An octet of [bytes]. *)
Definition is_byte (x : Z) : Prop := 0 ≤ x < 256.

#[global] Instance is_byte_dec x : Decision (is_byte x).
Proof. unfold is_byte. apply _. Defined.

(** ** Operations *)

(** The cast of an integer to [int16]: the low 16 bits, read as two's
    complement. *)
Definition wrap16 (z : Z) : Z := (z + 32768) mod 65536 - 32768.

(** The cast of a float to an integer truncates toward zero. *)
Definition trunc (x : Q) : Z := Z.quot (Qnum x) (Zpos (Qden x)).

(** [a.astype(np.int16)] on an array of floats. *)
Definition astype_int16 (xs : list Q) : block := (λ x, wrap16 (trunc x)) <$> xs.

(** [np.concatenate(frames)]: the blocks one after the other. *)
Definition concatenate (frames : list block) : block := concat frames.

(** The two bytes of a sample, least significant first. *)
Definition sample_bytes (s : Z) : list Z := [s mod 256; (s / 256) mod 256].

(** [a.tobytes()] on an int16 array. *)
Definition tobytes (b : block) : list Z := b ≫= sample_bytes.

(** Reading the bytes back, as [np.frombuffer(_, dtype=np.int16)] does; a
    trailing odd byte is dropped. *)
Fixpoint frombytes (bs : list Z) : block :=
  match bs with
  | lo :: hi :: rest => wrap16 (lo + 256 * hi) :: frombytes rest
  | _ => []
  end.

(** ** The cast *)

Lemma wrap16_is_int16 z : is_int16 (wrap16 z).
Proof.
  unfold is_int16, wrap16, int16_min, int16_max.
  pose proof (Z.mod_pos_bound (z + 32768) 65536). lia.
Qed.

Lemma wrap16_id s : is_int16 s → wrap16 s = s.
Proof.
  unfold is_int16, wrap16, int16_min, int16_max. intros Hs.
  rewrite Z.mod_small; lia.
Qed.

Lemma wrap16_congr z : (wrap16 z - z) mod 65536 = 0.
Proof.
  unfold wrap16. pose proof (Z.div_mod (z + 32768) 65536 ltac:(lia)).
  replace ((z + 32768) mod 65536 - 32768 - z) with ((- ((z + 32768) / 65536)) * 65536) by lia.
  apply Z.mod_mul. lia.
Qed.

Lemma wrap16_idemp z : wrap16 (wrap16 z) = wrap16 z.
Proof. apply wrap16_id, wrap16_is_int16. Qed.

Lemma wrap16_period z k : wrap16 (z + k * 65536) = wrap16 z.
Proof.
  unfold wrap16. replace (z + k * 65536 + 32768) with (z + 32768 + k * 65536) by lia.
  by rewrite Z.mod_add.
Qed.

#[export] Hint Resolve wrap16_is_int16 : lt.

Lemma trunc_int (z : Z) : trunc (inject_Z z) = z.
Proof. unfold trunc; simpl. apply Z.quot_1_r. Qed.

Lemma trunc_toward_zero x : Z.abs (trunc x) * Zpos (Qden x) ≤ Z.abs (Qnum x).
Proof.
  unfold trunc. rewrite <- Z.quot_abs by lia.
  change (Z.abs (Z.pos (Qden x))) with (Z.pos (Qden x)).
  pose proof (Z.quot_rem' (Z.abs (Qnum x)) (Zpos (Qden x))).
  pose proof (Z.rem_nonneg (Z.abs (Qnum x)) (Zpos (Qden x)) ltac:(lia) ltac:(lia)).
  lia.
Qed.

(** ** Arrays *)

Lemma astype_int16_length xs : length (astype_int16 xs) = length xs.
Proof. apply length_fmap. Qed.

Lemma astype_int16_ok xs : block_ok (astype_int16 xs).
Proof. apply Forall_fmap, Forall_true. intros x. apply wrap16_is_int16. Qed.

Lemma concatenate_ok frames : Forall block_ok frames → block_ok (concatenate frames).
Proof. apply Forall_concat. Qed.

Lemma concatenate_length frames (b : nat) :
  Forall (λ f, length f = b) frames →
  length (concatenate frames) = (length frames * b)%nat.
Proof. apply length_concat_uniform. Qed.

Lemma concatenate_app fs gs : concatenate (fs ++ gs) = concatenate fs ++ concatenate gs.
Proof. apply concat_app. Qed.

#[export] Hint Resolve astype_int16_ok concatenate_ok : lt.
#[export] Hint Rewrite astype_int16_length : lt_len.

(** ** Bytes *)

Lemma sample_bytes_byte s : Forall is_byte (sample_bytes s).
Proof.
  unfold sample_bytes, is_byte. repeat constructor;
    apply Z.mod_pos_bound; lia.
Qed.

Lemma frombytes_sample_bytes s bs :
  is_int16 s → frombytes (sample_bytes s ++ bs) = s :: frombytes bs.
Proof.
  intros Hs. simpl. f_equal. rewrite <- (wrap16_id s Hs) at 3.
  pose proof (Z.div_mod s 256 ltac:(lia)) as H1.
  pose proof (Z.div_mod (s / 256) 256 ltac:(lia)) as H2.
  replace (s mod 256 + 256 * ((s / 256) mod 256))
    with (s + (- (s / 256 / 256)) * 65536) by lia.
  apply wrap16_period.
Qed.

Lemma tobytes_cons s b : tobytes (s :: b) = sample_bytes s ++ tobytes b.
Proof. done. Qed.

Lemma tobytes_app b1 b2 : tobytes (b1 ++ b2) = tobytes b1 ++ tobytes b2.
Proof. unfold tobytes. apply bind_app. Qed.

Lemma tobytes_length b : length (tobytes b) = (2 * length b)%nat.
Proof. induction b as [|s b IH]; [done|]. rewrite tobytes_cons; simpl in *. lia. Qed.

Lemma tobytes_bytes b : Forall is_byte (tobytes b).
Proof.
  induction b as [|s b IH]; [constructor|].
  rewrite tobytes_cons. apply Forall_app; auto using sample_bytes_byte.
Qed.

Lemma frombytes_tobytes b : block_ok b → frombytes (tobytes b) = b.
Proof.
  induction 1 as [|s b Hs _ IH]; [done|].
  by rewrite tobytes_cons, frombytes_sample_bytes, IH.
Qed.

Lemma tobytes_inj b1 b2 : block_ok b1 → block_ok b2 → tobytes b1 = tobytes b2 → b1 = b2.
Proof.
  intros H1 H2 Heq. rewrite <- (frombytes_tobytes b1), <- (frombytes_tobytes b2) by done.
  by rewrite Heq.
Qed.

(** Serialising a concatenation is concatenating the
    serialisations: the bytes of a window are those of its blocks, in
    order. *)
Theorem tobytes_concatenate frames :
  tobytes (concatenate frames) = concat (tobytes <$> frames).
Proof.
  induction frames as [|f fs IH]; [done|].
  simpl. by rewrite tobytes_app, IH.
Qed.

#[export] Hint Rewrite tobytes_length : lt_len.

(** Claim C35.  The serialisation has two bytes per sample, every one an
    octet, and reading it back returns the samples. *)
Theorem tobytes_roundtrip b :
  block_ok b →
  frombytes (tobytes b) = b ∧ length (tobytes b) = (2 * length b)%nat ∧
  Forall is_byte (tobytes b).
Proof. intros Hb. split_and!; [by apply frombytes_tobytes|apply tobytes_length|apply tobytes_bytes]. Qed.

(** Claim C36.  The cast to int16 lands in the int16 range, differs from
    its argument by a multiple of 2^16, and changes exactly the values
    outside the range. *)
Theorem wrap16_spec z :
  is_int16 (wrap16 z) ∧ (wrap16 z - z) mod 65536 = 0 ∧ (wrap16 z = z ↔ is_int16 z).
Proof.
  split_and!; [apply wrap16_is_int16|apply wrap16_congr|].
  split; [intros <-; apply wrap16_is_int16|apply wrap16_id].
Qed.

(** ** Examples *)

Lemma tobytes_roundtrip_witness :
  frombytes (tobytes [0; 1; -1; 32767; -32768; 258]) = [0; 1; -1; 32767; -32768; 258] ∧
  tobytes [-2; 258] = [254; 255; 2; 1].
Proof.
  destruct (tobytes_roundtrip [0; 1; -1; 32767; -32768; 258]) as (Hr & _ & _).
  { repeat constructor; vm_compute; by intros. }
  split; [exact Hr|reflexivity].
Defined.

Example wrap16_overflow : wrap16 32768 = -32768 ∧ wrap16 (-32769) = 32767 ∧ wrap16 70000 = 4464.
Proof. done. Qed.
