(* ===== verification/Resample.v ===== *)
(** * Resample: the sample-rate converter

    [resample_audio] (lines 115-117) computes the number of output samples
    as [round(len(audio_data) * target_sr / orig_sr)], asks
    [scipy.signal.resample] for that many samples and casts them to int16.
    The interface [Resampler] states what the program relies on from the
    library routine; everything else is modelled and proved here. *)

From Stdlib Require Import QArith_base.
From S2P Require Import Prelude Samples.

#[local] Open Scope Z_scope.

(** ** Rounding *)

(** Python's [round] on the exact quotient [p / q] of two integers, [q]
    non-zero: the nearest integer, a tie going to the even neighbour. *)
Definition py_round (p q : Z) : Z :=
  let p' := p * Z.sgn q in
  let q' := Z.abs q in
  let f := p' / q' in
  match 2 * (p' mod q') ?= q' with
  | Lt => f
  | Gt => f + 1
  | Eq => if Z.even f then f else f + 1
  end.

(** The number of samples of the converted signal (line 116); the division
    raises at rate 0. *)
Definition num_samples (len target_sr orig_sr : Z) : pyres Z :=
  if decide (orig_sr = 0) then Raise ZeroDivisionError
  else Ok (py_round (len * target_sr) orig_sr).

(** ** The library routine *)

(** [scipy.signal.resample x num]: a signal of [num] samples.  Its values
    are floats; only its length is specified. *)
Class Resampler := {
  resample : block → nat → list Q;
  resample_length : ∀ x num, length (resample x num) = num;
}.

(** A resampler that repeats the nearest earlier input sample.  It shows that
    the interface can be implemented and instantiates it in examples. *)
Definition hold_resample (x : block) (num : nat) : list Q :=
  (λ i : nat, inject_Z (nth (i * length x / num) x 0)) <$> seq 0 num.

#[global] Program Instance hold_resampler : Resampler :=
  {| resample := hold_resample |}.
Next Obligation. intros x num. unfold hold_resample. by rewrite length_fmap, length_seq. Qed.

(** ** The converter *)

(** [resample_audio audio_data orig_sr target_sr] (lines 115-117).  A
    negative sample count is refused by the library. *)
Definition resample_audio `{Resampler} (audio_data : block) (orig_sr target_sr : Z)
    : pyres block :=
  n ← num_samples (Z.of_nat (length audio_data)) target_sr orig_sr;
  if decide (n < 0) then Raise ValueError
  else Ok (astype_int16 (resample audio_data (Z.to_nat n))).

(** ** Rounding is to the nearest integer, ties to even *)

Section rounding.
Implicit Types p q n : Z.

(** The positive-denominator case, to which the others reduce. *)
Lemma py_round_pos p q :
  0 < q →
  py_round p q =
    match 2 * (p mod q) ?= q with
    | Lt => p / q
    | Gt => p / q + 1
    | Eq => if Z.even (p / q) then p / q else p / q + 1
    end.
Proof.
  intros Hq. unfold py_round.
  by rewrite Z.sgn_pos, Z.abs_eq, Z.mul_1_r by lia.
Qed.

Lemma py_round_neg_den p q : q < 0 → py_round p q = py_round (- p) (- q).
Proof.
  intros Hq. unfold py_round.
  rewrite Z.sgn_neg, (Z.sgn_pos (- q)), Z.abs_neq, (Z.abs_eq (- q)) by lia.
  by replace (p * -1) with (- p * 1) by lia.
Qed.

(** The result is within half a unit of the quotient. *)
Lemma py_round_nearest p q : 0 < q → 2 * Z.abs (q * py_round p q - p) ≤ q.
Proof.
  intros Hq. rewrite py_round_pos by done.
  pose proof (Z.div_mod p q ltac:(lia)). pose proof (Z.mod_pos_bound p q Hq).
  case_cmp; [destruct (Z.even (p / q))| |]; lia.
Qed.

(** On a tie the result is even. *)
Lemma py_round_tie_even p q :
  0 < q → 2 * Z.abs (q * py_round p q - p) = q → Z.even (py_round p q) = true.
Proof.
  intros Hq. rewrite py_round_pos by done.
  pose proof (Z.div_mod p q ltac:(lia)). pose proof (Z.mod_pos_bound p q Hq).
  case_cmp; [|lia..].
  destruct (Z.even (p / q)) eqn:He; intros _; [done|].
  by rewrite Z_even_succ_odd, He.
Qed.

(** Nearest with ties to even determines the result. *)
Lemma py_round_unique p q n :
  0 < q →
  2 * Z.abs (q * n - p) ≤ q →
  (2 * Z.abs (q * n - p) = q → Z.even n = true) →
  py_round p q = n.
Proof.
  intros Hq Hn Hev.
  pose proof (py_round_nearest p q Hq) as Hr.
  pose proof (py_round_tie_even p q Hq) as Hre.
  set (m := py_round p q) in *.
  assert (m = n ∨ m = n + 1 ∨ n = m + 1) as [?|[->| ->]] by nia; [done|..].
  - assert (2 * Z.abs (q * n - p) = q) as Hn' by lia.
    assert (2 * Z.abs (q * (n + 1) - p) = q) as Hm' by lia.
    specialize (Hev Hn'). specialize (Hre Hm').
    rewrite Z_even_succ_odd, Hev in Hre. done.
  - assert (2 * Z.abs (q * (m + 1) - p) = q) as Hn' by lia.
    assert (2 * Z.abs (q * m - p) = q) as Hm' by lia.
    specialize (Hev Hn'). specialize (Hre Hm').
    rewrite Z_even_succ_odd, Hre in Hev. done.
Qed.

Lemma py_round_exact k q : q ≠ 0 → py_round (k * q) q = k.
Proof.
  intros Hq. destruct (decide (0 < q)).
  - apply py_round_unique; [done|..]; intros; lia.
  - rewrite py_round_neg_den by lia.
    apply py_round_unique; [lia|..]; intros; lia.
Qed.

Lemma py_round_mono p1 p2 q : 0 < q → p1 ≤ p2 → py_round p1 q ≤ py_round p2 q.
Proof.
  intros Hq Hp.
  pose proof (py_round_nearest p1 q Hq) as H1. pose proof (py_round_nearest p2 q Hq) as H2.
  pose proof (py_round_tie_even p1 q Hq) as E1. pose proof (py_round_tie_even p2 q Hq) as E2.
  destruct (decide (p1 = p2)) as [->|Hne]; [done|].
  set (n1 := py_round p1 q) in *. set (n2 := py_round p2 q) in *.
  destruct (decide (n1 ≤ n2)); [done|]. exfalso.
  assert (q * (n2 + 1) ≤ q * n1) by nia. lia.
Qed.

Lemma py_round_nonneg p q : 0 < q → 0 ≤ p → 0 ≤ py_round p q.
Proof.
  intros Hq Hp. rewrite <- (py_round_exact 0 q) at 1 by lia.
  apply py_round_mono; lia.
Qed.

(** Rounding is symmetric about zero. *)
Lemma py_round_opp p q : 0 < q → py_round (- p) q = - py_round p q.
Proof.
  intros Hq. apply py_round_unique; [done|..].
  - pose proof (py_round_nearest p q Hq). lia.
  - intros Ht. rewrite Z.even_opp. apply py_round_tie_even; [done|lia].
Qed.

(** A shorter signal never rounds above a longer one's bound. *)
Lemma py_round_le_num p q : 0 < q → 0 ≤ p → py_round p q ≤ p / q + 1.
Proof.
  intros Hq Hp. rewrite py_round_pos by done.
  case_cmp; [destruct (Z.even (p / q))| |]; lia.
Qed.

End rounding.

(** ** The sample count *)

Lemma num_samples_zero len target_sr : num_samples len target_sr 0 = Raise ZeroDivisionError.
Proof. done. Qed.

Lemma num_samples_Ok len target_sr orig_sr :
  orig_sr ≠ 0 → num_samples len target_sr orig_sr = Ok (py_round (len * target_sr) orig_sr).
Proof. intros Hne. unfold num_samples. by case_decide. Qed.

Lemma num_samples_raises len target_sr orig_sr e :
  num_samples len target_sr orig_sr = Raise e ↔ orig_sr = 0 ∧ e = ZeroDivisionError.
Proof. unfold num_samples. case_decide; split; [by intros [= <-]|by intros [_ ->]|done|tauto]. Qed.

(** Equal rates keep the length. *)
Lemma num_samples_same_rate len sr : sr ≠ 0 → num_samples len sr sr = Ok len.
Proof. intros Hsr. by rewrite num_samples_Ok, py_round_exact. Qed.

(** The sample count is monotone in the input length: a
    longer input never gives a shorter output. *)
Theorem num_samples_mono len1 len2 target_sr orig_sr n1 n2 :
  0 < orig_sr → 0 ≤ target_sr → len1 ≤ len2 →
  num_samples len1 target_sr orig_sr = Ok n1 →
  num_samples len2 target_sr orig_sr = Ok n2 →
  n1 ≤ n2.
Proof.
  intros Ho Ht Hl. rewrite !num_samples_Ok by lia. intros [= <-] [= <-].
  apply py_round_mono; [done|nia].
Qed.

(** Converting down never lengthens the signal. *)
Lemma num_samples_downsample len target_sr orig_sr n :
  0 ≤ len → 0 ≤ target_sr ≤ orig_sr → orig_sr ≠ 0 →
  num_samples len target_sr orig_sr = Ok n → 0 ≤ n ≤ len.
Proof.
  intros Hl Ht Ho. rewrite num_samples_Ok by done. intros [= <-]. split.
  - apply py_round_nonneg; [lia|nia].
  - rewrite <- (py_round_exact len orig_sr) at 2 by done.
    apply py_round_mono; [lia|nia].
Qed.

(** ** The converter *)

Section converter.
Context `{Resampler}.
Implicit Types (audio_data : block) (orig_sr target_sr : Z).

Lemma resample_audio_zero_rate audio_data target_sr :
  resample_audio audio_data 0 target_sr = Raise ZeroDivisionError.
Proof. done. Qed.

(** With a positive source rate and a non-negative target rate the call
    returns. *)
Lemma resample_audio_returns audio_data orig_sr target_sr :
  0 < orig_sr → 0 ≤ target_sr →
  resample_audio audio_data orig_sr target_sr =
    Ok (astype_int16 (resample audio_data
          (Z.to_nat (py_round (Z.of_nat (length audio_data) * target_sr) orig_sr)))).
Proof.
  intros Ho Ht. unfold resample_audio. rewrite num_samples_Ok by lia. simpl.
  case_decide as Hn; [|done].
  pose proof (py_round_nonneg (Z.of_nat (length audio_data) * target_sr) orig_sr). nia.
Qed.

(** What a successful call has computed. *)
Lemma resample_audio_Ok_inv audio_data orig_sr target_sr out :
  resample_audio audio_data orig_sr target_sr = Ok out →
  let n := py_round (Z.of_nat (length audio_data) * target_sr) orig_sr in
  orig_sr ≠ 0 ∧ 0 ≤ n ∧ out = astype_int16 (resample audio_data (Z.to_nat n)).
Proof.
  unfold resample_audio, num_samples. case_decide; [done|]. simpl.
  case_decide; intros [= <-]. split_and!; [done|lia|done].
Qed.

Lemma resample_audio_ok audio_data orig_sr target_sr out :
  resample_audio audio_data orig_sr target_sr = Ok out → block_ok out.
Proof. intros (_ & _ & ->)%resample_audio_Ok_inv. apply astype_int16_ok. Qed.

Lemma resample_audio_Ok_length audio_data orig_sr target_sr out :
  resample_audio audio_data orig_sr target_sr = Ok out →
  Z.of_nat (length out) = py_round (Z.of_nat (length audio_data) * target_sr) orig_sr.
Proof.
  intros (_ & Hn & ->)%resample_audio_Ok_inv.
  rewrite astype_int16_length, resample_length. lia.
Qed.

(** The converter raises in two cases only: the division by a
    zero rate, and the library's refusal of a negative count. *)
Theorem resample_audio_raises audio_data orig_sr target_sr e :
  resample_audio audio_data orig_sr target_sr = Raise e →
  (orig_sr = 0 ∧ e = ZeroDivisionError) ∨
  (orig_sr ≠ 0 ∧ e = ValueError ∧
   py_round (Z.of_nat (length audio_data) * target_sr) orig_sr < 0).
Proof.
  unfold resample_audio, num_samples. case_decide; simpl; [naive_solver|].
  case_decide; naive_solver.
Qed.

(** Claim C5.  Converting a block of [L] samples from rate [R > 0] to rate
    [T >= 0] returns a block of [round (L * T / R)] int16 samples. *)
Theorem resample_audio_length audio_data orig_sr target_sr :
  0 < orig_sr → 0 ≤ target_sr →
  ∃ out, resample_audio audio_data orig_sr target_sr = Ok out ∧
         Z.of_nat (length out) = py_round (Z.of_nat (length audio_data) * target_sr) orig_sr ∧
         block_ok out.
Proof.
  intros Ho Ht. rewrite resample_audio_returns by done. eexists. split; [done|].
  split; [|apply astype_int16_ok].
  rewrite astype_int16_length, resample_length.
  pose proof (py_round_nonneg (Z.of_nat (length audio_data) * target_sr) orig_sr). nia.
Qed.

End converter.

(** Claim C6.  [py_round p q] is the integer nearest to [p / q], and the
    even one of the two when [p / q] lies half way between them. *)
Theorem py_round_spec p q n :
  0 < q →
  py_round p q = n ↔
  2 * Z.abs (q * n - p) ≤ q ∧ (2 * Z.abs (q * n - p) = q → Z.even n = true).
Proof.
  intros Hq. split.
  - intros <-. split; [by apply py_round_nearest|by apply py_round_tie_even].
  - intros [Hn He]. by apply py_round_unique.
Qed.

(** ** Examples *)

Lemma resample_audio_length_witness :
  ∃ out, resample_audio [10; 20; 30; 40; 50; 60; 70] 44100 16000 = Ok out ∧
         Z.of_nat (length out) = 3 ∧ block_ok out.
Proof.
  destruct (resample_audio_length [10; 20; 30; 40; 50; 60; 70] 44100 16000)
    as (out & Hr & Hl & Hok); [lia|lia|].
  exists out. split_and!; [exact Hr|exact Hl|exact Hok].
Defined.

Lemma py_round_spec_witness :
  py_round 5 2 = 2 ∧ py_round 7 2 = 4 ∧ py_round (80000 * 16000) 44100 = 29025.
Proof.
  split_and!.
  - apply (py_round_spec 5 2 2); [lia|]. split; [lia|done].
  - apply (py_round_spec 7 2 4); [lia|]. split; [lia|done].
  - apply (py_round_spec (80000 * 16000) 44100 29025); [lia|]. split; lia.
Defined.

Lemma num_samples_mono_witness : 29025 ≤ 29026.
Proof.
  apply (num_samples_mono 80000 80002 16000 44100 29025 29026); [lia|lia|lia|done|done].
Defined.

Lemma resample_audio_raises_witness :
  (0 = 0 ∧ ZeroDivisionError = ZeroDivisionError) ∨
  (0 ≠ 0 ∧ ZeroDivisionError = ValueError ∧ py_round (Z.of_nat 2 * 16000) 0 < 0).
Proof. apply (resample_audio_raises [1; 2] 0 16000 ZeroDivisionError). done. Defined.

Example num_samples_scenarios :
  num_samples 80000 16000 44100 = Ok 29025 ∧ num_samples 80000 16000 48000 = Ok 26667 ∧
  num_samples 80000 16000 8000 = Ok 160000 ∧ num_samples 80000 16000 0 = Raise ZeroDivisionError.
Proof. done. Qed.
