(* ===== verification/FloatCheck.v ===== *)
(** * FloatCheck: the sample count as the interpreter computes it

    Line 116 computes [round(len(audio_data) * target_sr / orig_sr)] with a
    float division: the product is an integer, [/] divides two integers
    into a double, and [round] takes the double to the nearest integer,
    ties to even.  [Resample.num_samples] divides exactly.  This file
    models the float computation on binary64 and checks, by computation
    on every rate from 1 Hz to 200 kHz, that for the window of the program
    (80000 samples, to 16 kHz) the two agree. *)

From Stdlib Require Import Floats Uint63.
From S2P Require Import Prelude Samples Resample.

#[local] Open Scope Z_scope.

(** ** Doubles *)

(** [float(n)] for an integer [0 ≤ n < 2^53], where the conversion is
    exact. *)
Definition float_of_Z (n : Z) : float := PrimFloat.of_uint63 (Uint63.of_Z n).

(** [round(x)] for a double: the nearest integer, the even one on a tie;
    nothing for an infinity or a NaN, where [round] raises.  A finite
    double is [m * 2^e]; for [e < 0] the integer part is [m] shifted right
    and the fraction is the bits shifted out. *)
Definition round_half_even (x : spec_float) : option Z :=
  match x with
  | S754_zero _ => Some 0
  | S754_finite s m e =>
      let n :=
        if 0 <=? e then Z.shiftl (Z.pos m) e
        else
          let k := - e in
          let q := Z.shiftr (Z.pos m) k in
          match 2 * Z.land (Z.pos m) (Z.ones k) ?= Z.shiftl 1 k with
          | Lt => q
          | Gt => q + 1
          | Eq => if Z.even q then q else q + 1
          end in
      Some (if s then - n else n)
  | S754_infinity _ | S754_nan => None
  end.

Definition float_round (x : float) : option Z := round_half_even (Prim2SF x).

(** Line 116 on doubles, for a length and rates that are not negative. *)
Definition float_num_samples (len target_sr orig_sr : Z) : pyres Z :=
  if decide (orig_sr = 0) then Raise ZeroDivisionError
  else
    match float_round (float_of_Z (len * target_sr) / float_of_Z orig_sr) with
    | Some n => Ok n
    | None => Raise ValueError
    end.

(** ** The check *)

(** [n] is the integer nearest to [p / q], the even one on a tie. *)
Definition nearest_even (p q n : Z) : bool :=
  let d := 2 * Z.abs (q * n - p) in
  (d <? q) || ((d =? q) && Z.even n).

(** The double computation gives the nearest integer. *)
Definition agrees (len target_sr orig_sr : Z) : bool :=
  match float_round (float_of_Z (len * target_sr) / float_of_Z orig_sr) with
  | Some n => nearest_even (len * target_sr) orig_sr n
  | None => false
  end.

(** [f] holds of the [n] integers from [lo] on. *)
Fixpoint all_from (f : Z → bool) (lo : Z) (n : nat) : bool :=
  match n with
  | O => true
  | S n' => f lo && all_from f (lo + 1) n'
  end.

(** [f] holds of the rates from 1 to [chunk * chunks], checked in
    [chunks] runs of [chunk] rates. *)
Definition checked (f : Z → bool) (chunk chunks : Z) : bool :=
  all_from (λ k, all_from f (1 + chunk * k) (Z.to_nat chunk)) 0 (Z.to_nat chunks).

(** ** Theorems *)

Lemma all_from_spec f lo n x :
  all_from f lo n = true → lo ≤ x < lo + Z.of_nat n → f x = true.
Proof.
  revert lo. induction n as [|n IH]; intros lo; simpl; [lia|].
  intros [Hlo Hrest]%andb_prop Hx. destruct (decide (x = lo)) as [->|]; [done|].
  apply (IH (lo + 1)); [done|lia].
Qed.

Lemma nearest_even_round p q n : 0 < q → nearest_even p q n = true → py_round p q = n.
Proof.
  unfold nearest_even. intros Hq [Hlt|[Heq Hev]%andb_prop]%orb_prop.
  - apply py_round_unique; [done|lia|lia].
  - apply py_round_unique; [done|lia|done].
Qed.

Lemma agrees_num_samples len target_sr orig_sr :
  0 < orig_sr → agrees len target_sr orig_sr = true →
  float_num_samples len target_sr orig_sr = num_samples len target_sr orig_sr.
Proof.
  unfold agrees, float_num_samples, num_samples. intros Hq Ha.
  rewrite !decide_False by lia.
  destruct (float_round _) as [n|]; [|done]. by rewrite (nearest_even_round _ _ n).
Qed.

Lemma checked_spec f chunk chunks x :
  0 < chunk → 0 ≤ chunks → checked f chunk chunks = true →
  1 ≤ x ≤ chunk * chunks → f x = true.
Proof.
  intros Hc Hn Hall Hx. pose proof (Z_div_bracket (x - 1) chunk Hc) as Hk.
  apply (all_from_spec _ _ _ ((x - 1) / chunk)) in Hall; [|rewrite Z2Nat.id by done; nia].
  apply (all_from_spec _ _ _ x) in Hall; [done|]. rewrite Z2Nat.id; lia.
Qed.

(** The computation, on 200000 rates. *)
Lemma checked_rates_true : checked (agrees 80000 16000) 50000 4 = true.
Proof. vm_compute. reflexivity. Qed.

(** Claim C19.  For the window of the program, 80000 samples converted
    to 16 kHz, the float computation of line 116 gives the sample count of
    the exact model at every device rate from 1 Hz to 200 kHz. *)
Theorem float_num_samples_agrees sr :
  1 ≤ sr ≤ 200000 →
  float_num_samples 80000 16000 sr = num_samples 80000 16000 sr.
Proof.
  intros Hsr. apply agrees_num_samples; [lia|].
  exact (checked_spec (agrees 80000 16000) 50000 4 sr eq_refl (Z.lt_le_incl 0 4 eq_refl)
           checked_rates_true Hsr).
Qed.

Lemma float_num_samples_agrees_witness : float_num_samples 80000 16000 44100 = Ok 29025.
Proof. rewrite (float_num_samples_agrees 44100) by lia. reflexivity. Defined.
