(* ===== verification/AudioQueue.v ===== *)
(** * AudioQueue: the buffer between the driver callback and the worker

    [audio_q = queue.Queue()] (line 25) is an unbounded first-in first-out
    queue.  The driver callback puts one block per invocation (line 123) and
    the worker takes twenty with [[audio_q.get() for _ in range(20)]]
    (line 147), where every [get] blocks while the queue is empty.

    The interface [Fifo] states what the program relies on; [list_fifo]
    implements it; [get_frames] and [put_all] are written, and their
    theorems proved, against the interface. *)

From S2P Require Import Prelude.

(** ** The interface *)

(** A queue type [Q] of items [A].  [fifo_get] returns [None] where the
    call would block.  [fifo_items] is the abstraction function: the queued
    items, oldest first. *)
Class Fifo (A Q : Type) := {
  fifo_new : Q;
  fifo_put : A → Q → Q;
  fifo_get : Q → option (A * Q);
  fifo_items : Q → list A;
  fifo_new_items : fifo_items fifo_new = [];
  fifo_put_items : ∀ x q, fifo_items (fifo_put x q) = fifo_items q ++ [x];
  fifo_get_items : ∀ q,
    match fifo_get q with
    | None => fifo_items q = []
    | Some (x, q') => fifo_items q = x :: fifo_items q'
    end;
}.

#[global] Hint Mode Fifo - ! : typeclass_instances.
Arguments fifo_new {A Q _}.
Arguments fifo_items {A Q _} q.

(** ** The list implementation *)

Definition list_put {A} (x : A) (q : list A) : list A := q ++ [x].

Definition list_get {A} (q : list A) : option (A * list A) :=
  match q with
  | [] => None
  | x :: q' => Some (x, q')
  end.

#[global] Program Instance list_fifo {A} : Fifo A (list A) :=
  {| fifo_new := []; fifo_put := list_put; fifo_get := list_get; fifo_items := id |}.
Next Obligation. done. Qed.
Next Obligation. done. Qed.
Next Obligation. by intros A [|x q]. Qed.

(** ** Operations of the program *)

Section ops.
Context `{Fifo A Q}.

(** [[q.get() for _ in range(n)]]: [n] calls of [get], in order.  [None]
    where one of them would block. *)
Fixpoint get_frames (n : nat) (q : Q) : option (list A * Q) :=
  match n with
  | O => Some ([], q)
  | S n' =>
      '(x, q1) ← fifo_get q;
      '(xs, q2) ← get_frames n' q1;
      Some (x :: xs, q2)
  end.

(** One [put] per item, in order: what a run of driver callbacks does. *)
Definition put_all (xs : list A) (q : Q) : Q := foldl (λ q x, fifo_put x q) q xs.

(** Two queues are equivalent when they hold the same items in the same
    order. *)
#[global] Instance fifo_equiv : Equiv Q := λ q1 q2, fifo_items q1 = fifo_items q2.

End ops.

(** ** Theorems against the interface *)

Section fifo_laws.
Context `{Fifo A Q}.
Implicit Types (q : Q) (x : A) (xs : list A).

#[global] Instance fifo_equivalence : Equivalence (≡@{Q}).
Proof.
  unfold equiv, fifo_equiv. split; [by intros ?|by intros ??|by intros ??? -> ->].
Qed.

#[global] Instance fifo_items_proper : Proper ((≡@{Q}) ==> (=)) fifo_items.
Proof. by intros q1 q2 Hq. Qed.

#[global] Instance fifo_put_proper x : Proper ((≡@{Q}) ==> (≡@{Q})) (fifo_put x).
Proof. intros q1 q2 Hq. unfold equiv, fifo_equiv in *. by rewrite !fifo_put_items, Hq. Qed.

Lemma fifo_get_None q : fifo_get q = None ↔ fifo_items q = [].
Proof.
  pose proof (fifo_get_items q) as Hg. destruct (fifo_get q) as [[x q']|]; [|done].
  by rewrite Hg.
Qed.

Lemma fifo_get_Some q x q' : fifo_get q = Some (x, q') → fifo_items q = x :: fifo_items q'.
Proof. intros Hg. pose proof (fifo_get_items q) as Hi. by rewrite Hg in Hi. Qed.

(** [get] on a non-empty queue returns its oldest item. *)
Lemma fifo_get_cons q x xs :
  fifo_items q = x :: xs → ∃ q', fifo_get q = Some (x, q') ∧ fifo_items q' = xs.
Proof.
  intros Hq. pose proof (fifo_get_items q) as Hg.
  destruct (fifo_get q) as [[y q']|]; [|congruence].
  exists q'. rewrite Hq in Hg. by simplify_eq.
Qed.

Lemma put_all_items xs q : fifo_items (put_all xs q) = fifo_items q ++ xs.
Proof.
  revert q. induction xs as [|x xs IH]; intros q; simpl.
  - by rewrite app_nil_r.
  - by rewrite IH, fifo_put_items, <- app_assoc.
Qed.

Lemma put_all_app xs ys q : put_all (xs ++ ys) q = put_all ys (put_all xs q).
Proof. apply foldl_app. Qed.

(** What a successful [get_frames] has done: the result is a prefix of the
    queue of the requested length, and the queue keeps the rest. *)
Lemma get_frames_Some n q xs q' :
  get_frames n q = Some (xs, q') →
  fifo_items q = xs ++ fifo_items q' ∧ length xs = n.
Proof.
  revert q xs q'. induction n as [|n IH]; intros q xs q'; simpl.
  - by intros [= <- <-].
  - destruct (fifo_get q) as [[x q1]|] eqn:Hg; [|done]. simpl.
    destruct (get_frames n q1) as [[ys q2]|] eqn:Hf; [|done]. simpl.
    intros [= <- <-]. apply IH in Hf as [Hi <-]. apply fifo_get_Some in Hg.
    by rewrite Hg, Hi.
Qed.

(** [get_frames] returns as soon as the queue holds enough items. *)
Lemma get_frames_enough n q :
  (n ≤ length (fifo_items q))%nat →
  ∃ q', get_frames n q = Some (take n (fifo_items q), q') ∧
        fifo_items q' = drop n (fifo_items q).
Proof.
  revert q. induction n as [|n IH]; intros q Hn; simpl.
  - exists q. by rewrite take_0, drop_0.
  - destruct (fifo_items q) as [|x xs] eqn:Hq; simpl in *; [lia|].
    destruct (fifo_get_cons q x xs Hq) as (q1 & -> & Hq1). simpl.
    destruct (IH q1) as (q2 & -> & Hq2); [rewrite Hq1; lia|]. simpl.
    exists q2. by rewrite Hq1 in *.
Qed.

(** It blocks when the queue holds fewer. *)
Lemma get_frames_short n q :
  (length (fifo_items q) < n)%nat → get_frames n q = None.
Proof.
  intros Hn. destruct (get_frames n q) as [[xs q']|] eqn:Hf; [|done].
  apply get_frames_Some in Hf as [Hi Hl]. rewrite Hi, length_app in Hn. lia.
Qed.

(** Claim C38.  [get_frames n] returns exactly when at least [n] items
    are queued; with fewer it blocks. *)
Theorem get_frames_is_Some n q :
  is_Some (get_frames n q) ↔ (n ≤ length (fifo_items q))%nat.
Proof.
  split.
  - intros [[xs q'] Hf]. destruct (decide (n ≤ length (fifo_items q))%nat); [done|].
    rewrite get_frames_short in Hf by lia. done.
  - intros (q' & -> & _)%get_frames_enough. eauto.
Qed.

(** Equivalent queues give the same frames and equivalent rests. *)
Lemma get_frames_proper n q1 q2 xs q1' :
  q1 ≡ q2 → get_frames n q1 = Some (xs, q1') →
  ∃ q2', get_frames n q2 = Some (xs, q2') ∧ q1' ≡ q2'.
Proof.
  unfold equiv, fifo_equiv. intros Hq Hf.
  apply get_frames_Some in Hf as [Hi Hl].
  destruct (get_frames_enough n q2) as (q2' & Hf2 & Hi2).
  { rewrite <- Hq, Hi, length_app. lia. }
  exists q2'. rewrite Hf2, Hi2, <- Hq, Hi, <- Hl.
  by rewrite take_app_length, drop_app_length.
Qed.

(** Claim C4.  After [N] pushes onto a new queue, taking [k ≤ N] items
    returns the first [k] pushed items in push order and leaves the other
    [N - k], for every implementation of the interface. *)
Theorem get_frames_put_all (k : nat) xs :
  (k ≤ length xs)%nat →
  ∃ q', get_frames k (put_all xs fifo_new) = Some (take k xs, q') ∧
        fifo_items q' = drop k xs ∧ length (fifo_items q') = (length xs - k)%nat.
Proof.
  intros Hk.
  destruct (get_frames_enough k (put_all xs fifo_new)) as (q' & Hf & Hi).
  { by rewrite put_all_items, fifo_new_items. }
  rewrite put_all_items, fifo_new_items in Hf, Hi. simpl in *.
  exists q'. by rewrite Hf, Hi, length_drop.
Qed.

(** Taking [n] and then [m] is taking [n + m] and splitting. *)
Lemma get_frames_add n m q xs q1 ys q2 :
  get_frames n q = Some (xs, q1) → get_frames m q1 = Some (ys, q2) →
  ∃ q3, get_frames (n + m) q = Some (xs ++ ys, q3) ∧ q3 ≡ q2.
Proof.
  intros [Hi1 Hl1]%get_frames_Some [Hi2 Hl2]%get_frames_Some.
  destruct (get_frames_enough (n + m) q) as (q3 & Hf & Hi3).
  { rewrite Hi1, Hi2, !length_app. lia. }
  exists q3. unfold equiv, fifo_equiv.
  rewrite Hf, Hi3, Hi1, Hi2, app_assoc, <- Hl1, <- Hl2, <- length_app.
  by rewrite take_app_length, drop_app_length.
Qed.

End fifo_laws.

(** ** The list implementation computes *)

(** On the list implementation the [n] successive [get]s
    are one [take] and one [drop]. *)
Theorem list_get_frames {A} (n : nat) (q : list A) :
  get_frames n q = if decide (n ≤ length q)%nat then Some (take n q, drop n q) else None.
Proof.
  case_decide as Hn.
  - destruct (get_frames_enough n q) as (q' & -> & Hq'); [done|]. simpl in *. by subst.
  - apply get_frames_short. simpl. lia.
Qed.

(** ** Examples *)

Lemma get_frames_put_all_witness :
  ∃ q' : list nat, get_frames 2 (put_all [10; 20; 30]%nat fifo_new) = Some ([10; 20]%nat, q') ∧
                   q' = [30%nat].
Proof.
  destruct (get_frames_put_all (Q:=list nat) 2 [10; 20; 30]%nat) as (q' & Hf & Hi & _);
    [simpl; lia|].
  exists q'. split; [exact Hf|exact Hi].
Defined.
