(* ===== verification/Text.v ===== *)
(** * Text: the transcription's text and what is shown of it

    A Python [str] is a sequence of Unicode code points; it is modelled as a
    list of code points.  The worker strips the service's answer and shows
    it behind a marker, unless it is empty or the filler word "you"
    (lines 167-172).  This file models [str.strip], [str.lower] and that
    decision. *)

From Stdlib Require Import Ascii String.
From S2P Require Import Prelude.

#[local] Open Scope N_scope.

(** ** Strings *)

(** A [str]: its code points. *)
Abbreviation str := (list N) (only parsing).

(** An ASCII literal as a [str]. *)
Fixpoint of_string (s : string) : str :=
  match s with
  | EmptyString => []
  | String c s' => N_of_ascii c :: of_string s'
  end.

(** ** White space *)

(** The code points [str.strip] removes: those for which CPython's
    [Py_UNICODE_ISSPACE] holds. *)
Definition is_space (c : N) : Prop :=
  9 ≤ c ≤ 13 ∨ 28 ≤ c ≤ 32 ∨ c = 0x85 ∨ c = 0xA0 ∨ c = 0x1680 ∨
  0x2000 ≤ c ≤ 0x200A ∨ c = 0x2028 ∨ c = 0x2029 ∨ c = 0x202F ∨
  c = 0x205F ∨ c = 0x3000.

#[global] Instance is_space_dec c : Decision (is_space c).
Proof. unfold is_space. apply _. Defined.

Fixpoint lstrip (s : str) : str :=
  match s with
  | [] => []
  | c :: s' => if decide (is_space c) then lstrip s' else s
  end.

Fixpoint rstrip (s : str) : str :=
  match s with
  | [] => []
  | c :: s' =>
      match rstrip s' with
      | [] => if decide (is_space c) then [] else [c]
      | r => c :: r
      end
  end.

(** [s.strip()]. *)
Definition py_strip (s : str) : str := rstrip (lstrip s).

(** ** Lower case *)

(** The lower-case mapping of one code point.  It is CPython's on Basic
    Latin and Latin-1 and on the five code points outside them whose lower
    case contains a code point of these blocks (U+0130, U+0178, U+1E9E,
    U+212A, U+212B); every other code point is left as it is, so the
    comparison of a lowered string with an ASCII word is decided as Python
    decides it. *)
Definition lower_cp (c : N) : list N :=
  if decide (65 ≤ c ≤ 90) then [c + 32]
  else if decide (192 ≤ c ≤ 222 ∧ c ≠ 215) then [c + 32]
  else if decide (c = 0x130) then [0x69; 0x307]
  else if decide (c = 0x178) then [0xFF]
  else if decide (c = 0x1E9E) then [0xDF]
  else if decide (c = 0x212A) then [0x6B]
  else if decide (c = 0x212B) then [0xE5]
  else [c].

(** [s.lower()]. *)
Definition py_lower (s : str) : str := s ≫= lower_cp.

(** ** What is shown *)

(** The filler word. *)
Definition you : str := of_string "you".

(** The marker in front of a live transcription: a green circle and a
    space. *)
Definition live_marker : str := [0x1F7E2; 0x20].

(** The test of line 168: [text and text.lower() != "you"]. *)
Definition is_shown (text : str) : bool :=
  bool_decide (text ≠ [] ∧ py_lower text ≠ you).

(** The argument of [update_text] on the success path (lines 167-172), for
    the text the service returned. *)
Definition display_text (response_text : str) : str :=
  let text := py_strip response_text in
  if is_shown text then live_marker ++ text else [].

(** ** Stripping *)

Section strip.
Implicit Types (s t l r : str) (c : N).

Lemma lstrip_spaces s : Forall is_space s → lstrip s = [].
Proof. induction 1 as [|c s Hc _ IH]; simpl; [done|]. by rewrite decide_True. Qed.

Lemma lstrip_app_spaces l s : Forall is_space l → lstrip (l ++ s) = lstrip s.
Proof. induction 1 as [|c l Hc _ IH]; simpl; [done|]. by rewrite decide_True. Qed.

Lemma lstrip_nonspace c s : ¬ is_space c → lstrip (c :: s) = c :: s.
Proof. intros Hc. simpl. by rewrite decide_False. Qed.

(** [lstrip] removes a prefix of white space and stops at the first other
    code point. *)
Lemma lstrip_decompose s :
  ∃ l, s = l ++ lstrip s ∧ Forall is_space l ∧
       match lstrip s with [] => True | c :: _ => ¬ is_space c end.
Proof.
  induction s as [|c s (l & Hs & Hl & Hh)]; simpl.
  - by exists [].
  - case_decide as Hc.
    + exists (c :: l). split_and!; [by rewrite Hs at 1|by constructor|done].
    + by exists [].
Qed.

Lemma rstrip_spaces s : Forall is_space s → rstrip s = [].
Proof. induction 1 as [|c s Hc _ IH]; simpl; [done|]. by rewrite IH, decide_True. Qed.

Lemma rstrip_app_spaces s r : Forall is_space r → rstrip (s ++ r) = rstrip s.
Proof.
  intros Hr. induction s as [|c s IH]; simpl; [by apply rstrip_spaces|]. by rewrite IH.
Qed.

Lemma rstrip_snoc_nonspace s c : ¬ is_space c → rstrip (s ++ [c]) = s ++ [c].
Proof.
  intros Hc. induction s as [|d s IH]; simpl.
  - by rewrite decide_False.
  - rewrite IH. by destruct s.
Qed.

(** [rstrip] removes a suffix of white space and stops at the last other
    code point. *)
Lemma rstrip_decompose s :
  ∃ r, s = rstrip s ++ r ∧ Forall is_space r ∧
       match list.last (rstrip s) with None => True | Some c => ¬ is_space c end.
Proof.
  induction s as [|c s (r & Hs & Hr & Hl)]; simpl.
  - by exists [].
  - destruct (rstrip s) as [|d t] eqn:Ht.
    + case_decide as Hc.
      * exists (c :: r). simpl in Hs. subst s. split_and!; [done|by constructor|done].
      * exists r. simpl in Hs. subst s. by split_and!.
    + exists r. split_and!; [by rewrite Hs at 1|done|]. by rewrite last_cons_cons.
Qed.

(** [rstrip] keeps the first code point of what it keeps. *)
Lemma rstrip_head s : list.head (rstrip s) = None ∨ list.head (rstrip s) = list.head s.
Proof. destruct s as [|c s]; simpl; [by left|]. destruct (rstrip s); [case_decide|]; auto. Qed.

(** The specification of [strip]: the argument is white space, the result,
    white space; the result is empty or starts and ends with a code point
    that is no white space. *)
Lemma py_strip_decompose s :
  ∃ l r, s = l ++ py_strip s ++ r ∧ Forall is_space l ∧ Forall is_space r.
Proof.
  destruct (lstrip_decompose s) as (l & Hs & Hl & _).
  destruct (rstrip_decompose (lstrip s)) as (r & Hs' & Hr & _).
  exists l, r. unfold py_strip. by rewrite <- Hs', <- Hs.
Qed.

Lemma py_strip_head s c : list.head (py_strip s) = Some c → ¬ is_space c.
Proof.
  unfold py_strip. destruct (lstrip_decompose s) as (l & _ & _ & Hh).
  destruct (rstrip_head (lstrip s)) as [->| ->]; [done|].
  destruct (lstrip s) as [|d t]; simpl in *; [done|]. by intros [= <-].
Qed.

Lemma py_strip_last s c : list.last (py_strip s) = Some c → ¬ is_space c.
Proof.
  unfold py_strip. destruct (rstrip_decompose (lstrip s)) as (r & _ & _ & Hl).
  intros Hc. by rewrite Hc in Hl.
Qed.

(** Conversely, the decomposition determines the result. *)
Lemma py_strip_unique s l m r :
  s = l ++ m ++ r → Forall is_space l → Forall is_space r →
  match list.head m with None => True | Some c => ¬ is_space c end →
  match list.last m with None => True | Some c => ¬ is_space c end →
  py_strip s = m.
Proof.
  intros -> Hl Hr Hh Hlast. unfold py_strip. rewrite lstrip_app_spaces by done.
  destruct m as [|c m]; simpl in *.
  - by rewrite lstrip_spaces, ?rstrip_spaces.
  - rewrite decide_False by done. change (rstrip ((c :: m) ++ r) = c :: m).
    rewrite rstrip_app_spaces by done.
    destruct (exists_last (l:=c :: m)) as (m' & d & Hm); [done|].
    rewrite Hm in *. rewrite last_snoc in Hlast. by apply rstrip_snoc_nonspace.
Qed.

Lemma py_strip_idemp s : py_strip (py_strip s) = py_strip s.
Proof.
  apply (py_strip_unique _ [] _ []); [by rewrite app_nil_r|done|done|..].
  - destruct (list.head (py_strip s)) eqn:Hh; [by eapply py_strip_head|done].
  - destruct (list.last (py_strip s)) eqn:Hl; [by eapply py_strip_last|done].
Qed.

Lemma py_strip_nil_iff s : py_strip s = [] ↔ Forall is_space s.
Proof.
  split.
  - intros Hs. destruct (py_strip_decompose s) as (l & r & -> & Hl & Hr).
    rewrite Hs. by apply Forall_app.
  - intros Hs. unfold py_strip. by rewrite lstrip_spaces.
Qed.

Lemma py_strip_length s : (length (py_strip s) ≤ length s)%nat.
Proof.
  destruct (py_strip_decompose s) as (l & r & Hs & _). rewrite Hs at 2.
  rewrite !length_app. lia.
Qed.

End strip.

(** ** Lower case and the filler word *)

Section lower.
Implicit Types (s t : str) (c d : N).

Lemma py_lower_cons c s : py_lower (c :: s) = lower_cp c ++ py_lower s.
Proof. done. Qed.

Lemma py_lower_app s t : py_lower (s ++ t) = py_lower s ++ py_lower t.
Proof. unfold py_lower. apply bind_app. Qed.

Lemma lower_cp_nonempty c : lower_cp c ≠ [].
Proof. unfold lower_cp. by repeat case_decide. Qed.

Lemma py_lower_nil_inv s : py_lower s = [] → s = [].
Proof.
  destruct s as [|c s]; [done|]. rewrite py_lower_cons.
  intros [Hc _]%app_eq_nil. by destruct (lower_cp_nonempty c).
Qed.

(** A lower-case ASCII letter is produced by itself and by its capital
    only. *)
Lemma lower_cp_app_letter c s d ds :
  97 ≤ d ≤ 122 → d ≠ 0x69 → d ≠ 0x6B →
  lower_cp c ++ s = d :: ds → (c = d ∨ c + 32 = d) ∧ s = ds.
Proof.
  intros Hd Hi Hk. unfold lower_cp.
  repeat case_decide; intros [= <- <-]; split; try done; lia.
Qed.

Lemma lower_cp_letter c : 97 ≤ c ≤ 122 → lower_cp c = [c].
Proof. intros Hc. unfold lower_cp. repeat case_decide; try done; lia. Qed.

Lemma lower_cp_capital c : 65 ≤ c ≤ 90 → lower_cp c = [c + 32].
Proof. intros Hc. unfold lower_cp. by rewrite decide_True. Qed.

(** Lowering is idempotent on the code points the model maps. *)
Lemma lower_cp_idemp c : lower_cp c ≫= lower_cp = lower_cp c.
Proof.
  unfold lower_cp at 2 3. repeat case_decide; simpl; subst; try done;
    unfold lower_cp; repeat case_decide; try done; lia.
Qed.

Lemma py_lower_idemp s : py_lower (py_lower s) = py_lower s.
Proof.
  induction s as [|c s IH]; [done|].
  rewrite py_lower_cons, py_lower_app, IH. f_equal. apply lower_cp_idemp.
Qed.

Lemma you_eq : you = [121; 111; 117].
Proof. reflexivity. Qed.

Lemma py_lower_cons_letter c s d ds :
  97 ≤ d ≤ 122 → d ≠ 0x69 → d ≠ 0x6B →
  py_lower (c :: s) = d :: ds → (c = d ∨ c + 32 = d) ∧ py_lower s = ds.
Proof. rewrite py_lower_cons. apply lower_cp_app_letter. Qed.

(** The strings that lower to the filler word are its eight spellings. *)
Lemma py_lower_you_iff t :
  py_lower t = you ↔
  ∃ y o u, t = [y; o; u] ∧ (y = 121 ∨ y = 89) ∧ (o = 111 ∨ o = 79) ∧ (u = 117 ∨ u = 85).
Proof.
  rewrite you_eq. split.
  - intros Ht. destruct t as [|y [|o [|u t]]]; [done|..].
    + by apply py_lower_cons_letter in Ht as [_ Ht]; [|lia..].
    + apply py_lower_cons_letter in Ht as [_ Ht]; [|lia..].
      by apply py_lower_cons_letter in Ht as [_ Ht]; [|lia..].
    + apply py_lower_cons_letter in Ht as [Hy Ht]; [|lia..].
      apply py_lower_cons_letter in Ht as [Ho Ht]; [|lia..].
      apply py_lower_cons_letter in Ht as [Hu Ht]; [|lia..].
      apply py_lower_nil_inv in Ht as ->. exists y, o, u. split; [done|]. lia.
  - intros (y & o & u & -> & Hy & Ho & Hu).
    destruct Hy as [-> | ->], Ho as [-> | ->], Hu as [-> | ->]; reflexivity.
Qed.

End lower.

(** ** What is shown *)

Section shown.
Implicit Types (s text : str).

Lemma is_shown_true text : is_shown text = true ↔ text ≠ [] ∧ py_lower text ≠ you.
Proof. unfold is_shown. by rewrite bool_decide_eq_true. Qed.

Lemma is_shown_false text : is_shown text = false ↔ text = [] ∨ py_lower text = you.
Proof.
  unfold is_shown. rewrite bool_decide_eq_false.
  destruct (decide (text = [])), (decide (py_lower text = you)); naive_solver.
Qed.

(** Nothing is shown for an answer that is white space or, stripped, the
    filler word in any case; everything else is shown behind the marker. *)
Lemma display_text_cases s :
  (display_text s = [] ∧ (Forall is_space s ∨ py_lower (py_strip s) = you)) ∨
  (display_text s = live_marker ++ py_strip s ∧
   py_strip s ≠ [] ∧ py_lower (py_strip s) ≠ you).
Proof.
  unfold display_text. simpl. destruct (is_shown (py_strip s)) eqn:Hs.
  - right. by apply is_shown_true in Hs.
  - left. apply is_shown_false in Hs. rewrite py_strip_nil_iff in Hs. done.
Qed.

Lemma display_text_nil_iff s :
  display_text s = [] ↔ Forall is_space s ∨ py_lower (py_strip s) = you.
Proof.
  destruct (display_text_cases s) as [[-> H]|[-> [Hn Hy]]]; [done|].
  split; [done|]. rewrite <- py_strip_nil_iff. naive_solver.
Qed.

(** The filler word is never shown. *)
Lemma display_text_you s : py_lower (py_strip s) = you → display_text s = [].
Proof. intros Hs. apply display_text_nil_iff. by right. Qed.

(** The text shown is the stripped answer behind the marker. *)
Lemma display_text_shown s :
  display_text s ≠ [] → display_text s = live_marker ++ py_strip s.
Proof. destruct (display_text_cases s) as [[-> _]|[-> _]]; done. Qed.

(** White space around the answer does not change what is shown. *)
Lemma display_text_strip s : display_text (py_strip s) = display_text s.
Proof. unfold display_text. by rewrite py_strip_idemp. Qed.

End shown.

(** Claim C7.  Nothing is shown exactly for an answer that is white space
    or that, stripped, is one of the eight spellings of the filler word
    "you"; an upper-case "You" is suppressed like a lower-case one. *)
Theorem display_text_filler s :
  display_text s = [] ↔
  Forall is_space s ∨
  ∃ y o u, py_strip s = [y; o; u] ∧ (y = 121 ∨ y = 89) ∧ (o = 111 ∨ o = 79) ∧ (u = 117 ∨ u = 85).
Proof. by rewrite display_text_nil_iff, py_lower_you_iff. Qed.

(** Claim C37.  [py_strip s] is the middle of the one decomposition of [s]
    into white space, a string that neither starts nor ends with white
    space, and white space. *)
Theorem py_strip_spec s m :
  py_strip s = m ↔
  ∃ l r, s = l ++ m ++ r ∧ Forall is_space l ∧ Forall is_space r ∧
         match list.head m with None => True | Some c => ¬ is_space c end ∧
         match list.last m with None => True | Some c => ¬ is_space c end.
Proof.
  split.
  - intros <-. destruct (py_strip_decompose s) as (l & r & Hs & Hl & Hr).
    exists l, r. split_and!; [done..| |].
    + destruct (list.head (py_strip s)) eqn:Hh; [by eapply py_strip_head|done].
    + destruct (list.last (py_strip s)) eqn:Hh; [by eapply py_strip_last|done].
  - intros (l & r & Hs & Hl & Hr & Hh & Hla). by eapply py_strip_unique.
Qed.

(** ** Examples *)

Example display_text_examples :
  display_text (of_string "You") = [] ∧
  display_text (of_string "  yOU 	") = [] ∧
  display_text (of_string " you. ") = live_marker ++ of_string "you." ∧
  display_text (of_string "Thank you") = live_marker ++ of_string "Thank you" ∧
  display_text ([0x3000; 0xA0] ++ of_string "hi" ++ [0x2028]) = live_marker ++ of_string "hi".
Proof. by vm_compute. Qed.
