(* ===== verification/Pipeline.v ===== *)
(** * Pipeline: the shared state, the driver callback and the worker loop

    The module-level variables of the program (lines 21-28 and 36) are the
    fields of [state], together with what the program writes to the overlay
    and to standard output.  [audio_callback] (lines 120-123),
    [toggle_pause] (lines 186-190) and [update_text] (lines 67-69) are
    functions on it.  [transcribe_loop_body] is one iteration of the worker's
    [while True] (lines 142-175); the answer of the transcription service is
    an argument.  [transcribe_loop] runs iterations over a list of answers. *)

From Stdlib Require Import String.
From S2P Require Import Prelude Samples Resample AudioQueue Text.

#[local] Open Scope Z_scope.

(** ** Texts the program shows or prints *)

(** "🟡 Waiting for input..." *)
Definition waiting_text : str := [0x1F7E1; 0x20]%N ++ of_string "Waiting for input...".
(** "🔴 API error." *)
Definition api_error_text : str := [0x1F534; 0x20]%N ++ of_string "API error.".
(** "⏸ Paused" *)
Definition paused_text : str := [0x23F8; 0x20]%N ++ of_string "Paused".
(** "🟢 Resumed" *)
Definition resumed_text : str := live_marker ++ of_string "Resumed".
(** The line [print("📝", text)] writes. *)
Definition memo_line (text : str) : str := [0x1F4DD; 0x20]%N ++ text.
(** The line [print("[Error]", e)] writes, [msg] being [str(e)]. *)
Definition error_line (msg : str) : str := of_string "[Error] " ++ msg.
(** The line [print("[Audio Warning]", status)] writes. *)
Definition warning_line (status : str) : str := of_string "[Audio Warning] " ++ status.

(** ** The service and its request *)

(** What [client.audio.translations.create] does: it returns a response
    with a text, or raises [e] with [str(e) = msg]. *)
Inductive api_response : Type :=
  | ApiText (text : str)
  | ApiRaise (e : exn) (msg : str).

(** The WAV file of lines 153-160: its parameters and its frames. *)
Record wav : Type := Wav {
  nchannels : Z;
  sampwidth : Z;
  framerate : Z;
  frames : list Z;
}.

#[global] Instance wav_eq_dec : EqDecision wav.
Proof. solve_decision. Defined.

(** Lines 154-158. *)
Definition write_wav (audio_chunk : block) : wav :=
  {| nchannels := 1; sampwidth := 2; framerate := 16000; frames := tobytes audio_chunk |}.

Section pipeline.
Context `{Fifo block Q} `{Resampler}.

(** ** The state *)

Record state : Type := State {
  SAMPLE_RATE : option Z;
  audio_q : Q;
  input_device_index : option Z;
  paused : bool;
  selected_event : bool;
  signal_handler : bool;
  pause_item : str;
  emitted : list str;
  stdout : list str;
}.

(** The values the module assigns when it is loaded, and the tray's pause
    item as [build_tray] creates it (line 199). *)
Definition initial_state : state :=
  {| SAMPLE_RATE := None; audio_q := fifo_new; input_device_index := None;
     paused := false; selected_event := false; signal_handler := false;
     pause_item := of_string "Pause"; emitted := []; stdout := [] |}.

Definition with_audio_q (q : Q) (g : state) : state :=
  {| SAMPLE_RATE := g.(SAMPLE_RATE); audio_q := q;
     input_device_index := g.(input_device_index); paused := g.(paused);
     selected_event := g.(selected_event); signal_handler := g.(signal_handler);
     pause_item := g.(pause_item); emitted := g.(emitted); stdout := g.(stdout) |}.

Definition with_paused (p : bool) (item : str) (g : state) : state :=
  {| SAMPLE_RATE := g.(SAMPLE_RATE); audio_q := g.(audio_q);
     input_device_index := g.(input_device_index); paused := p;
     selected_event := g.(selected_event); signal_handler := g.(signal_handler);
     pause_item := item; emitted := g.(emitted); stdout := g.(stdout) |}.

Definition with_emitted (e : list str) (g : state) : state :=
  {| SAMPLE_RATE := g.(SAMPLE_RATE); audio_q := g.(audio_q);
     input_device_index := g.(input_device_index); paused := g.(paused);
     selected_event := g.(selected_event); signal_handler := g.(signal_handler);
     pause_item := g.(pause_item); emitted := e; stdout := g.(stdout) |}.

Definition with_input_device_index (i : option Z) (g : state) : state :=
  {| SAMPLE_RATE := g.(SAMPLE_RATE); audio_q := g.(audio_q);
     input_device_index := i; paused := g.(paused);
     selected_event := g.(selected_event); signal_handler := g.(signal_handler);
     pause_item := g.(pause_item); emitted := g.(emitted); stdout := g.(stdout) |}.

Definition with_SAMPLE_RATE (sr : option Z) (g : state) : state :=
  {| SAMPLE_RATE := sr; audio_q := g.(audio_q);
     input_device_index := g.(input_device_index); paused := g.(paused);
     selected_event := g.(selected_event); signal_handler := g.(signal_handler);
     pause_item := g.(pause_item); emitted := g.(emitted); stdout := g.(stdout) |}.

Definition with_selected_event (ev : bool) (g : state) : state :=
  {| SAMPLE_RATE := g.(SAMPLE_RATE); audio_q := g.(audio_q);
     input_device_index := g.(input_device_index); paused := g.(paused);
     selected_event := ev; signal_handler := g.(signal_handler);
     pause_item := g.(pause_item); emitted := g.(emitted); stdout := g.(stdout) |}.

Definition with_signal_handler (sh : bool) (g : state) : state :=
  {| SAMPLE_RATE := g.(SAMPLE_RATE); audio_q := g.(audio_q);
     input_device_index := g.(input_device_index); paused := g.(paused);
     selected_event := g.(selected_event); signal_handler := sh;
     pause_item := g.(pause_item); emitted := g.(emitted); stdout := g.(stdout) |}.

(** [print(line)]. *)
Definition print (line : str) (g : state) : state :=
  {| SAMPLE_RATE := g.(SAMPLE_RATE); audio_q := g.(audio_q);
     input_device_index := g.(input_device_index); paused := g.(paused);
     selected_event := g.(selected_event); signal_handler := g.(signal_handler);
     pause_item := g.(pause_item); emitted := g.(emitted);
     stdout := g.(stdout) ++ [line] |}.

(** The text of the overlay's label once the emitted signals are
    delivered: the last one, or the initial text (line 53). *)
Definition label (g : state) : str := default waiting_text (list.last g.(emitted)).

(** ** Handlers *)

(** [update_text] (lines 67-69): emit the text if the signal handler
    exists. *)
Definition update_text (text : str) (g : state) : state :=
  if g.(signal_handler) then with_emitted (g.(emitted) ++ [text]) g else g.

(** [toggle_pause] (lines 186-190). *)
Definition toggle_pause (g : state) : state :=
  let p := negb g.(paused) in
  update_text (if p then paused_text else resumed_text)
    (with_paused p (of_string (if p then "Resume" else "Pause")) g).

(** [audio_callback] (lines 120-123); [status] is [None] when no flag is
    set and its text otherwise. *)
Definition audio_callback (indata : block) (status : option str) (g : state) : state :=
  let g1 := match status with Some s => print (warning_line s) g | None => g end in
  with_audio_q (fifo_put indata g1.(audio_q)) g1.

(** ** The worker *)

(** Lines 150-151.  [None != 16000] holds, and dividing by [None] raises. *)
Definition convert (sample_rate : option Z) (audio_chunk : block) : pyres block :=
  match sample_rate with
  | None => Raise TypeError
  | Some sr =>
      if decide (sr ≠ 16000) then resample_audio audio_chunk sr 16000
      else Ok audio_chunk
  end.

(** The [try] statement of lines 162-175 for the answer [resp]. *)
Definition on_response (resp : api_response) (g : state) : pyres state :=
  try_except
    match resp with
    | ApiRaise e _ => Raise e
    | ApiText t =>
        let text := py_strip t in
        Ok (if is_shown text
            then update_text (live_marker ++ text) (print (memo_line text) g)
            else update_text [] g)
    end
    (λ _, Ok (update_text api_error_text
                (print (error_line match resp with ApiRaise _ m => m | _ => [] end) g))).

(** How one iteration of the worker ends. *)
Inductive outcome : Type :=
  | Slept (g : state)
  | Blocked
  | Dispatched (request : wav) (g : state)
  | Died (e : exn) (g : state).

(** One iteration of [while True] (lines 143-175).  [Slept]: the pause flag
    was set, [sleep(0.5); continue].  [Blocked]: fewer than 20 blocks are
    queued, the iteration waits in [audio_q.get()].  [Dispatched]: the
    window was sent and the answer handled.  [Died]: an exception left the
    loop. *)
Definition transcribe_loop_body (resp : api_response) (g : state) : outcome :=
  if g.(paused) then Slept g
  else
    match get_frames 20 g.(audio_q) with
    | None => Blocked
    | Some (fs, q') =>
        let g1 := with_audio_q q' g in
        match convert g1.(SAMPLE_RATE) (concatenate fs) with
        | Raise e => Died e g1
        | Ok audio_chunk =>
            match on_response resp g1 with
            | Ok g2 => Dispatched (write_wav audio_chunk) g2
            | Raise e => Died e g1
            end
        end
    end.

(** Why a run of the worker stops being followed. *)
Inductive status : Type :=
  | Running
  | Sleeping
  | Waiting
  | Dead (e : exn).

(** The worker run against the answers [resps], one per request, with no
    other thread acting: the requests sent, the state reached, and whether
    the worker is still running (the answers are used up), spinning on the
    pause flag, waiting for blocks, or dead. *)
Fixpoint transcribe_loop (resps : list api_response) (g : state) : list wav * state * status :=
  match resps with
  | [] => ([], g, Running)
  | resp :: resps' =>
      match transcribe_loop_body resp g with
      | Slept g' => ([], g', Sleeping)
      | Blocked => ([], g, Waiting)
      | Died e g' => ([], g', Dead e)
      | Dispatched request g' =>
          let '(requests, g'', st) := transcribe_loop resps' g' in
          (request :: requests, g'', st)
      end
  end.

(** A run of driver callbacks, one per block, no flag set. *)
Definition capture (blocks : list block) (g : state) : state :=
  foldl (λ g b, audio_callback b None g) g blocks.

(** ** Well-formed states *)

(** Every queued block holds int16 samples. *)
Definition queue_ok (g : state) : Prop := Forall block_ok (fifo_items g.(audio_q)).

End pipeline.

Arguments state Q : clear implicits.
Arguments outcome Q : clear implicits.

(** ** What the handlers leave alone *)

(** The fields only the device selection writes. *)
Definition same_selection {Q} (g g' : state Q) : Prop :=
  g'.(SAMPLE_RATE) = g.(SAMPLE_RATE) ∧
  g'.(input_device_index) = g.(input_device_index) ∧
  g'.(selected_event) = g.(selected_event) ∧
  g'.(signal_handler) = g.(signal_handler).

#[global] Instance same_selection_refl {Q} : Reflexive (@same_selection Q).
Proof. by intros g. Qed.

#[global] Instance same_selection_trans {Q} : Transitive (@same_selection Q).
Proof. intros g1 g2 g3 (?&?&?&?) (?&?&?&?). unfold same_selection. split_and!; congruence. Qed.

(** An answer after which the worker goes on: a text, or an exception that
    [except Exception] catches. *)
Definition nonfatal (resp : api_response) : Prop :=
  match resp with
  | ApiText _ => True
  | ApiRaise e _ => is_Exception e = true
  end.

#[global] Instance nonfatal_dec resp : Decision (nonfatal resp).
Proof. destruct resp; simpl; apply _. Defined.

(** The text the worker emits for an answer. *)
Definition shown_for (resp : api_response) : str :=
  match resp with
  | ApiText t => display_text t
  | ApiRaise _ _ => api_error_text
  end.

(** The chunk the worker sends for a window captured at rate [sr]. *)
Definition converted `{Resampler} (sr : Z) (audio_chunk : block) : block :=
  if decide (sr = 16000) then audio_chunk
  else astype_int16 (resample audio_chunk
         (Z.to_nat (py_round (Z.of_nat (length audio_chunk) * 16000) sr))).

(** The requests the worker sends for the first [n] windows of the blocks
    [bs] captured at rate [sr]. *)
Definition requests_for `{Resampler} (sr : Z) (n : nat) (bs : list block) : list wav :=
  (λ w, write_wav (converted sr (concatenate w))) <$> windows 20 n bs.



(** A request as the service expects it: mono, 16-bit, 16 kHz, whole
    samples. *)
Definition wav_ok (w : wav) : Prop :=
  w.(nchannels) = 1 ∧ w.(sampwidth) = 2 ∧ w.(framerate) = 16000 ∧
  Forall is_byte w.(frames) ∧ Nat.Even (length w.(frames)).

(** A state of the list implementation used in the examples: a device is
    selected, the overlay exists, the worker is not paused. *)
Definition example_state (sr : option Z) (blocks : list block) : state (list block) :=
  {| SAMPLE_RATE := sr; audio_q := blocks; input_device_index := Some 1;
     paused := false; selected_event := true; signal_handler := true;
     pause_item := of_string "Pause"; emitted := []; stdout := [] |}.

(** ** Theorems *)

Section pipeline_laws.
Context `{Fifo block Q} `{Resampler}.
Implicit Types (g : state Q) (resp : api_response) (b : block) (text : str).

(** *** [update_text], [print], [toggle_pause] *)

Lemma update_text_emitted text g :
  (update_text text g).(emitted) =
    if g.(signal_handler) then g.(emitted) ++ [text] else g.(emitted).
Proof. unfold update_text. by destruct (signal_handler g). Qed.

Lemma update_text_selection text g : same_selection g (update_text text g).
Proof. unfold update_text, same_selection. by destruct g as [sr q i p ev [] it em out]. Qed.

Lemma update_text_audio_q text g : (update_text text g).(audio_q) = g.(audio_q).
Proof. unfold update_text. by destruct (signal_handler g). Qed.

Lemma update_text_paused text g : (update_text text g).(paused) = g.(paused).
Proof. unfold update_text. by destruct (signal_handler g). Qed.

Lemma update_text_stdout text g : (update_text text g).(stdout) = g.(stdout).
Proof. unfold update_text. by destruct (signal_handler g). Qed.

Lemma update_text_pause_item text g : (update_text text g).(pause_item) = g.(pause_item).
Proof. unfold update_text. by destruct (signal_handler g). Qed.

(** With the signal handler in place the label shows the last text. *)
Lemma update_text_label text g :
  g.(signal_handler) = true → label (update_text text g) = text.
Proof. intros Hs. unfold label. by rewrite update_text_emitted, Hs, last_snoc. Qed.

Lemma toggle_pause_paused g : (toggle_pause g).(paused) = negb g.(paused).
Proof. unfold toggle_pause. by rewrite update_text_paused. Qed.

Lemma toggle_pause_audio_q g : (toggle_pause g).(audio_q) = g.(audio_q).
Proof. unfold toggle_pause. by rewrite update_text_audio_q. Qed.

Lemma toggle_pause_selection g : same_selection g (toggle_pause g).
Proof.
  transitivity (with_paused (negb g.(paused))
                  (of_string (if negb g.(paused) then "Resume" else "Pause")) g);
    [done|apply update_text_selection].
Qed.

Lemma toggle_pause_label g :
  g.(signal_handler) = true →
  label (toggle_pause g) = if g.(paused) then resumed_text else paused_text.
Proof.
  intros Hs. unfold toggle_pause. rewrite update_text_label by done. by destruct (paused g).
Qed.

(** The menu item names the action the next click performs. *)
Lemma toggle_pause_item g :
  (toggle_pause g).(pause_item) = of_string (if g.(paused) then "Pause" else "Resume").
Proof. unfold toggle_pause. rewrite update_text_pause_item. by destruct (paused g). Qed.

(** Two clicks restore the flag and the item and leave the queue alone. *)
Lemma toggle_pause_twice g :
  (toggle_pause (toggle_pause g)).(paused) = g.(paused) ∧
  (toggle_pause (toggle_pause g)).(audio_q) = g.(audio_q) ∧
  (toggle_pause (toggle_pause g)).(pause_item) =
    of_string (if g.(paused) then "Resume" else "Pause").
Proof.
  rewrite !toggle_pause_paused, !toggle_pause_audio_q, toggle_pause_item, toggle_pause_paused.
  by destruct (paused g).
Qed.

(** *** [audio_callback] *)

Lemma audio_callback_items b st g :
  fifo_items (audio_callback b st g).(audio_q) = fifo_items g.(audio_q) ++ [b].
Proof. unfold audio_callback. destruct st; simpl; apply fifo_put_items. Qed.

Lemma audio_callback_frame b st g :
  same_selection g (audio_callback b st g) ∧
  (audio_callback b st g).(paused) = g.(paused) ∧
  (audio_callback b st g).(emitted) = g.(emitted).
Proof. unfold audio_callback, same_selection. by destruct st. Qed.

Lemma audio_callback_stdout b st g :
  (audio_callback b st g).(stdout) =
    g.(stdout) ++ match st with Some s => [warning_line s] | None => [] end.
Proof. unfold audio_callback. destruct st; simpl; [done|by rewrite app_nil_r]. Qed.

Lemma audio_callback_ok b st g :
  block_ok b → queue_ok g → queue_ok (audio_callback b st g).
Proof.
  unfold queue_ok. rewrite audio_callback_items. intros Hb Hg.
  apply Forall_app. split; [done|by constructor].
Qed.

Lemma capture_items bs g :
  fifo_items (capture bs g).(audio_q) = fifo_items g.(audio_q) ++ bs.
Proof.
  revert g. induction bs as [|b bs IH]; intros g; simpl.
  - by rewrite app_nil_r.
  - by rewrite IH, audio_callback_items, <- app_assoc.
Qed.

Lemma capture_frame bs g :
  same_selection g (capture bs g) ∧ (capture bs g).(paused) = g.(paused) ∧
  (capture bs g).(emitted) = g.(emitted) ∧ (capture bs g).(stdout) = g.(stdout).
Proof.
  revert g. induction bs as [|b bs IH]; intros g; simpl; [done|].
  destruct (IH (audio_callback b None g)) as (Hs & Hp & He & Ho).
  destruct (audio_callback_frame b None g) as (Hs' & Hp' & He').
  rewrite Hp, He, Ho, Hp', He', audio_callback_stdout, app_nil_r.
  split; [by etrans|done].
Qed.

End pipeline_laws.

Section worker_laws.
Context `{Fifo block Q} `{Resampler}.
Implicit Types (g : state Q) (resp : api_response) (b chunk : block) (sr : Z).

(** *** Conversion *)

Lemma convert_None chunk : convert None chunk = Raise TypeError.
Proof. done. Qed.

Lemma convert_zero chunk : convert (Some 0) chunk = Raise ZeroDivisionError.
Proof. done. Qed.

Lemma convert_same_rate chunk : convert (Some 16000) chunk = Ok chunk.
Proof. unfold convert. by rewrite decide_False by (by intros []). Qed.

(** At a positive rate the conversion returns the chunk [converted]
    describes. *)
Lemma convert_converted sr chunk : 0 < sr → convert (Some sr) chunk = Ok (converted sr chunk).
Proof.
  intros Hsr. unfold convert, converted. destruct (decide (sr = 16000)) as [->|Hne].
  - by rewrite decide_False by (by intros []).
  - rewrite decide_True by done. by apply resample_audio_returns.
Qed.

Lemma converted_ok sr chunk : block_ok chunk → block_ok (converted sr chunk).
Proof. unfold converted. case_decide; auto with lt. Qed.

Lemma converted_length sr chunk :
  0 < sr →
  Z.of_nat (length (converted sr chunk)) = py_round (Z.of_nat (length chunk) * 16000) sr.
Proof.
  intros Hsr. unfold converted. case_decide as Hs.
  - subst. by rewrite py_round_exact.
  - rewrite astype_int16_length, resample_length.
    pose proof (py_round_nonneg (Z.of_nat (length chunk) * 16000) sr). lia.
Qed.

(** The conversion fails at no rate and at rate zero only, given that rates
    are not negative. *)
Lemma convert_raises o chunk e :
  convert o chunk = Raise e →
  (o = None ∧ e = TypeError) ∨ (o = Some 0 ∧ e = ZeroDivisionError) ∨ ∃ sr, o = Some sr ∧ sr < 0.
Proof.
  destruct o as [sr|]; [|by left; simplify_eq/=].
  destruct (decide (0 < sr)); [by rewrite convert_converted|].
  destruct (decide (sr = 0)) as [->|]; [|right; right; exists sr; split; [done|lia]].
  rewrite convert_zero. intros [= <-]. by right; left.
Qed.

(** *** Handling the answer *)

Lemma on_response_nonfatal resp g :
  nonfatal resp →
  ∃ g', on_response resp g = Ok g' ∧ same_selection g g' ∧
        g'.(audio_q) = g.(audio_q) ∧ g'.(paused) = g.(paused) ∧
        g'.(emitted) = (if g.(signal_handler) then g.(emitted) ++ [shown_for resp]
                        else g.(emitted)).
Proof.
  intros Hnf. destruct resp as [t|e msg]; simpl in *.
  - unfold display_text. simpl. eexists; split; [done|]. destruct (is_shown (py_strip t)).
    + split; [apply (update_text_selection _ (print _ g))|].
      by rewrite update_text_audio_q, update_text_paused, update_text_emitted.
    + split; [apply update_text_selection|].
      by rewrite update_text_audio_q, update_text_paused, update_text_emitted.
  - unfold on_response, try_except. rewrite Hnf. eexists; split; [done|].
    split; [apply (update_text_selection _ (print _ g))|].
    by rewrite update_text_audio_q, update_text_paused, update_text_emitted.
Qed.

Lemma on_response_fatal e msg g :
  is_Exception e = false → on_response (ApiRaise e msg) g = Raise e.
Proof. intros He. unfold on_response, try_except. by rewrite He. Qed.

(** *** One iteration *)

(** While the flag is set an iteration changes nothing. *)
Lemma body_paused resp g : g.(paused) = true → transcribe_loop_body resp g = Slept g.
Proof. intros Hp. unfold transcribe_loop_body. by rewrite Hp. Qed.

(** With fewer than 20 blocks queued the iteration waits. *)
Lemma body_blocked resp g :
  g.(paused) = false → (length (fifo_items g.(audio_q)) < 20)%nat →
  transcribe_loop_body resp g = Blocked.
Proof.
  intros Hp Hl. unfold transcribe_loop_body. by rewrite Hp, get_frames_short.
Qed.

(** With 20 blocks queued, a positive rate and an answer that is not fatal,
    the iteration sends the 20 oldest blocks, converted, and leaves the
    others queued. *)
Lemma body_dispatch resp g sr :
  g.(paused) = false → g.(SAMPLE_RATE) = Some sr → 0 < sr → nonfatal resp →
  (20 ≤ length (fifo_items g.(audio_q)))%nat →
  ∃ g', transcribe_loop_body resp g =
          Dispatched (write_wav (converted sr (concatenate (take 20 (fifo_items g.(audio_q)))))) g' ∧
        fifo_items g'.(audio_q) = drop 20 (fifo_items g.(audio_q)) ∧
        same_selection g g' ∧ g'.(paused) = false ∧
        g'.(emitted) = (if g.(signal_handler) then g.(emitted) ++ [shown_for resp]
                        else g.(emitted)).
Proof.
  intros Hp Hsr Hpos Hnf Hl. unfold transcribe_loop_body. rewrite Hp.
  destruct (get_frames_enough 20 g.(audio_q) Hl) as (q' & -> & Hq'). simpl.
  rewrite Hsr, convert_converted by done.
  destruct (on_response_nonfatal resp (with_audio_q q' g) Hnf) as (g' & -> & Hs & Hq & Hp' & He).
  exists g'. simpl in *. by rewrite Hq, Hp', He.
Qed.

(** A conversion that raises kills the worker, and the window it had taken
    is lost. *)
Lemma body_died_convert resp g e :
  g.(paused) = false → (20 ≤ length (fifo_items g.(audio_q)))%nat →
  convert g.(SAMPLE_RATE) (concatenate (take 20 (fifo_items g.(audio_q)))) = Raise e →
  ∃ g', transcribe_loop_body resp g = Died e g' ∧
        fifo_items g'.(audio_q) = drop 20 (fifo_items g.(audio_q)).
Proof.
  intros Hp Hl Hc. unfold transcribe_loop_body. rewrite Hp.
  destruct (get_frames_enough 20 g.(audio_q) Hl) as (q' & -> & Hq'). simpl.
  rewrite Hc. by eexists.
Qed.

(** What an iteration that dispatched has done, whatever the state. *)
Lemma body_Dispatched_inv resp g request g' :
  transcribe_loop_body resp g = Dispatched request g' →
  g.(paused) = false ∧
  ∃ fs chunk, fifo_items g.(audio_q) = fs ++ fifo_items g'.(audio_q) ∧ length fs = 20%nat ∧
              convert g.(SAMPLE_RATE) (concatenate fs) = Ok chunk ∧
              request = write_wav chunk.
Proof.
  unfold transcribe_loop_body. destruct (paused g); [done|].
  destruct (get_frames 20 (audio_q g)) as [[fs q']|] eqn:Hf; [|done]. simpl.
  destruct (convert _ _) as [chunk|] eqn:Hc; [|done].
  destruct (on_response resp _) as [g2|] eqn:Hr; [|done]. intros [= <- <-].
  apply get_frames_Some in Hf as [Hi Hl]. split; [done|]. exists fs, chunk.
  assert (audio_q g2 = q') as ->; [|done].
  unfold on_response, try_except in Hr.
  destruct resp as [t|e msg]; simpl in Hr.
  - destruct (is_shown _); simplify_eq; by rewrite update_text_audio_q.
  - destruct (is_Exception e); simplify_eq. by rewrite update_text_audio_q.
Qed.

Lemma body_Slept_inv resp g g' :
  transcribe_loop_body resp g = Slept g' → g' = g ∧ g.(paused) = true.
Proof.
  unfold transcribe_loop_body. destruct (paused g); [by intros [= <-]|].
  destruct (get_frames 20 (audio_q g)) as [[fs q']|]; [|done]. simpl.
  destruct (convert _ _); [destruct (on_response _ _)|]; done.
Qed.

(** The worker dies with the window taken, in the conversion or on an
    exception that [except Exception] does not catch. *)
Lemma body_Died_inv resp g e g' :
  transcribe_loop_body resp g = Died e g' →
  g.(paused) = false ∧ g'.(emitted) = g.(emitted) ∧
  ∃ fs, fifo_items g.(audio_q) = fs ++ fifo_items g'.(audio_q) ∧ length fs = 20%nat ∧
        (convert g.(SAMPLE_RATE) (concatenate fs) = Raise e ∨
         (is_Exception e = false ∧ ∃ msg, resp = ApiRaise e msg)).
Proof.
  unfold transcribe_loop_body. destruct (paused g); [done|].
  destruct (get_frames 20 (audio_q g)) as [[fs q']|] eqn:Hf; [|done]. simpl.
  apply get_frames_Some in Hf as [Hi Hl].
  destruct (convert _ _) as [chunk|e'] eqn:Hc.
  - destruct (on_response resp _) as [g2|e''] eqn:Hr; [done|]. intros [= <- <-].
    split_and!; [done..|]. exists fs. split_and!; [done..|]. right.
    unfold on_response, try_except in Hr. destruct resp as [t|e0 msg]; [done|]. simpl in Hr.
    destruct (is_Exception e0) eqn:He; simplify_eq. eauto.
  - intros [= <- <-]. split_and!; [done..|]. exists fs. split_and!; [done..|]. by left.
Qed.

End worker_laws.

Section loop_laws.
Context `{Fifo block Q} `{Resampler}.
Implicit Types (g : state Q) (resp : api_response) (resps : list api_response) (sr : Z).

Lemma write_wav_ok chunk : wav_ok (write_wav chunk).
Proof.
  unfold wav_ok, write_wav. simpl. split_and!; [done..|apply tobytes_bytes|].
  rewrite tobytes_length. by exists (length chunk).
Qed.

Lemma body_queue_ok resp g :
  queue_ok g →
  match transcribe_loop_body resp g with
  | Slept g' | Dispatched _ g' | Died _ g' => queue_ok g'
  | Blocked => True
  end.
Proof.
  unfold queue_ok. intros Hg.
  destruct (transcribe_loop_body resp g) as [g'| |req g'|e g'] eqn:Hb; [|done|..].
  - by apply body_Slept_inv in Hb as [-> _].
  - apply body_Dispatched_inv in Hb as (_ & fs & chunk & Hi & _).
    rewrite Hi in Hg. by apply Forall_app in Hg as [_ ?].
  - apply body_Died_inv in Hb as (_ & _ & fs & Hi & _).
    rewrite Hi in Hg. by apply Forall_app in Hg as [_ ?].
Qed.

(** Claim C1.  Against answers that are not fatal, and with enough blocks
    queued, the worker sends one request per answer: the consecutive
    windows of 20 blocks, oldest first, each converted to 16 kHz; the
    blocks behind them stay queued in order; one text per answer is
    emitted, in the order of the windows. *)
Theorem transcribe_loop_dispatches resps g sr :
  g.(paused) = false → g.(SAMPLE_RATE) = Some sr → 0 < sr →
  Forall nonfatal resps →
  (20 * length resps ≤ length (fifo_items g.(audio_q)))%nat →
  ∃ g', transcribe_loop resps g =
          (requests_for sr (length resps) (fifo_items g.(audio_q)), g', Running) ∧
        fifo_items g'.(audio_q) = drop (20 * length resps) (fifo_items g.(audio_q)) ∧
        same_selection g g' ∧ g'.(paused) = false ∧
        g'.(emitted) = (if g.(signal_handler) then g.(emitted) ++ (shown_for <$> resps)
                        else g.(emitted)).
Proof.
  intros Hp Hsr Hpos Hnf. revert g Hp Hsr.
  induction Hnf as [|resp resps Hr _ IH]; intros g Hp Hsr Hl.
  - exists g. simpl. rewrite drop_0, app_nil_r. by destruct (signal_handler g).
  - simpl length in Hl.
    destruct (body_dispatch resp g sr) as (g1 & Hb & Hq1 & Hs1 & Hp1 & He1); [done..|lia|].
    destruct (IH g1) as (g2 & Hl2 & Hq2 & Hs2 & Hp2 & He2); [done|..].
    { destruct Hs1 as [-> _]. done. }
    { rewrite Hq1, length_drop. lia. }
    exists g2. cbn [transcribe_loop]. rewrite Hb, Hl2. unfold requests_for.
    cbn [windows fmap list_fmap length]. rewrite Hq1, Hq2, Hq1, drop_drop, He2, He1.
    split_and!; [done|f_equal; lia|by etrans|done|].
    destruct Hs1 as (_ & _ & _ & ->).
    destruct (signal_handler g); [|done]. by rewrite <- app_assoc.
Qed.

(** Claim C8.  A failed service call does not stop the worker: the
    iteration shows the error text and leaves a state in which the next
    iteration sends the next window and shows its answer. *)
Theorem failure_then_next_window e msg resp g sr :
  g.(paused) = false → g.(SAMPLE_RATE) = Some sr → 0 < sr → g.(signal_handler) = true →
  is_Exception e = true → nonfatal resp →
  (40 ≤ length (fifo_items g.(audio_q)))%nat →
  ∃ g1 g2,
    transcribe_loop_body (ApiRaise e msg) g =
      Dispatched (write_wav (converted sr (concatenate (take 20 (fifo_items g.(audio_q)))))) g1 ∧
    label g1 = api_error_text ∧
    transcribe_loop_body resp g1 =
      Dispatched (write_wav (converted sr
        (concatenate (take 20 (drop 20 (fifo_items g.(audio_q))))))) g2 ∧
    label g2 = shown_for resp ∧
    fifo_items g2.(audio_q) = drop 40 (fifo_items g.(audio_q)).
Proof.
  intros Hp Hsr Hpos Hs He Hnf Hl.
  destruct (body_dispatch (ApiRaise e msg) g sr) as (g1 & Hb1 & Hq1 & Hs1 & Hp1 & He1);
    [done..|lia|].
  destruct Hs1 as (Hsr1 & _ & _ & Hsig1).
  destruct (body_dispatch resp g1 sr) as (g2 & Hb2 & Hq2 & _ & _ & He2);
    [done|congruence|done|done|rewrite Hq1, length_drop; lia|].
  exists g1, g2. rewrite Hb1, Hb2, Hq2, !Hq1, drop_drop. unfold label.
  rewrite He2, Hsig1, He1, !Hs, !last_snoc. done.
Qed.

(** Claim C9.  Pausing stops the worker and drops nothing: blocks captured
    while paused queue up behind the earlier ones, the worker's iteration
    changes nothing, and after resume the worker sends the 20 oldest
    blocks. *)
Theorem pause_keeps_blocks bs resp g sr :
  g.(paused) = false → g.(SAMPLE_RATE) = Some sr → 0 < sr → nonfatal resp →
  (20 ≤ length (fifo_items g.(audio_q) ++ bs))%nat →
  let g1 := capture bs (toggle_pause g) in
  transcribe_loop_body resp g1 = Slept g1 ∧
  fifo_items g1.(audio_q) = fifo_items g.(audio_q) ++ bs ∧
  ∃ g', transcribe_loop_body resp (toggle_pause g1) =
          Dispatched (write_wav (converted sr
             (concatenate (take 20 (fifo_items g.(audio_q) ++ bs))))) g' ∧
        fifo_items g'.(audio_q) = drop 20 (fifo_items g.(audio_q) ++ bs).
Proof.
  intros Hp Hsr Hpos Hnf Hl g1. subst g1. set (g1 := capture bs (toggle_pause g)).
  destruct (capture_frame bs (toggle_pause g)) as (Hsel & Hp1 & _).
  rewrite toggle_pause_paused, Hp in Hp1. fold g1 in Hp1, Hsel.
  assert (fifo_items g1.(audio_q) = fifo_items g.(audio_q) ++ bs) as Hq.
  { unfold g1. by rewrite capture_items, toggle_pause_audio_q. }
  split_and!; [by apply body_paused|done|].
  destruct (body_dispatch resp (toggle_pause g1) sr) as (g' & Hb & Hq' & _).
  - by rewrite toggle_pause_paused, Hp1.
  - assert (same_selection g (toggle_pause g1)) as [-> _]; [|done].
    etrans; [apply toggle_pause_selection|]. etrans; [apply Hsel|apply toggle_pause_selection].
  - done.
  - done.
  - by rewrite toggle_pause_audio_q, Hq.
  - exists g'. by rewrite Hb, Hq', toggle_pause_audio_q, Hq.
Qed.

(** Claim C10.  The conversion is outside the [try]: with no sample rate
    set the division raises [TypeError], the worker dies, the window it had
    taken is lost and nothing is shown. *)
Theorem worker_dies_without_rate resp resps g :
  g.(paused) = false → g.(SAMPLE_RATE) = None →
  (20 ≤ length (fifo_items g.(audio_q)))%nat →
  ∃ g', transcribe_loop (resp :: resps) g = ([], g', Dead TypeError) ∧
        fifo_items g'.(audio_q) = drop 20 (fifo_items g.(audio_q)) ∧
        g'.(emitted) = g.(emitted).
Proof.
  intros Hp Hsr Hl. cbn [transcribe_loop]. unfold transcribe_loop_body. rewrite Hp.
  destruct (get_frames_enough 20 g.(audio_q) Hl) as (q' & -> & Hq'). simpl.
  rewrite Hsr. simpl. by eexists.
Qed.

(** Every operation keeps the queue holding int16 blocks only,
    and every request the worker sends is a mono 16-bit 16 kHz file of
    whole samples. *)
Theorem queue_ok_preserved g :
  queue_ok g →
  (∀ b st, block_ok b → queue_ok (audio_callback b st g)) ∧
  queue_ok (toggle_pause g) ∧
  ∀ resp,
    match transcribe_loop_body resp g with
    | Slept g' | Died _ g' => queue_ok g'
    | Dispatched req g' => queue_ok g' ∧ wav_ok req
    | Blocked => True
    end.
Proof.
  intros Hg. split_and!.
  - intros b st Hb. by apply audio_callback_ok.
  - unfold queue_ok. by rewrite toggle_pause_audio_q.
  - intros resp. pose proof (body_queue_ok resp g Hg) as Hq.
    destruct (transcribe_loop_body resp g) eqn:Hb; try done. split; [done|].
    apply body_Dispatched_inv in Hb as (_ & fs & chunk & _ & _ & _ & ->).
    apply write_wav_ok.
Qed.

(** Twenty blocks of 4000 samples captured at 44100 Hz are sent
    as one request of 29025 samples, that is 58050 bytes. *)
Theorem window_at_44100 resp g (fs rest : list block) :
  g.(paused) = false → g.(SAMPLE_RATE) = Some 44100 → nonfatal resp →
  fifo_items g.(audio_q) = fs ++ rest → length fs = 20%nat →
  Forall (λ b, length b = 4000%nat) fs →
  ∃ req g', transcribe_loop_body resp g = Dispatched req g' ∧
            Z.of_nat (length req.(frames)) = 58050 ∧ wav_ok req ∧
            fifo_items g'.(audio_q) = rest.
Proof.
  intros Hp Hsr Hnf Hi Hl Hfs.
  destruct (body_dispatch resp g 44100) as (g' & Hb & Hq' & _);
    [done..|rewrite Hi, length_app; lia|].
  rewrite Hi in Hb. rewrite Hi in Hq'.
  rewrite (take_app_length' fs rest 20) in Hb by done.
  rewrite (drop_app_length' fs rest 20) in Hq' by done.
  eexists _, g'. split_and!; [done| |apply write_wav_ok|done].
  simpl. rewrite tobytes_length.
  pose proof (converted_length 44100 (concatenate fs) ltac:(lia)) as Hc.
  rewrite (concatenate_length fs 4000 Hfs), Hl in Hc.
  change (py_round (Z.of_nat (20 * 4000) * 16000) 44100) with 29025 in Hc. lia.
Qed.

(** The conversion keeps the duration of the audio: the
    request's length at 16 kHz differs from the window's length at the
    capture rate by at most half a sample of the request, that is
    [|n / 16000 - len / sr| ≤ 1 / 32000] seconds. *)
Theorem conversion_keeps_duration sr chunk :
  0 < sr →
  2 * Z.abs (sr * Z.of_nat (length (converted sr chunk)) - 16000 * Z.of_nat (length chunk))
    ≤ sr.
Proof.
  intros Hsr. rewrite converted_length by done.
  pose proof (py_round_nearest (Z.of_nat (length chunk) * 16000) sr Hsr). lia.
Qed.

End loop_laws.

(** ** Examples *)

Lemma transcribe_loop_dispatches_witness :
  ∃ g', transcribe_loop [ApiText (of_string " hello "); ApiRaise APIError []]
          (example_state (Some 16000) (replicate 41 [1; -2])) =
        (requests_for 16000 2 (replicate 41 [1; -2]), g', Running) ∧
        g'.(audio_q) = [[1; -2]].
Proof.
  destruct (transcribe_loop_dispatches (Q:=list block)
              [ApiText (of_string " hello "); ApiRaise APIError []]
              (example_state (Some 16000) (replicate 41 [1; -2])) 16000)
    as (g' & Hl & Hq & _); [done|done|lia|by repeat constructor|simpl; lia|].
  exists g'. split; [exact Hl|exact Hq].
Defined.

Lemma failure_then_next_window_witness :
  ∃ g1 g2,
    transcribe_loop_body (ApiRaise APIError (of_string "timeout"))
      (example_state (Some 16000) (replicate 40 [7])) =
      Dispatched (write_wav (replicate 20 7)) g1 ∧
    label g1 = api_error_text ∧
    transcribe_loop_body (ApiText (of_string "second window")) g1 =
      Dispatched (write_wav (replicate 20 7)) g2 ∧
    label g2 = live_marker ++ of_string "second window".
Proof.
  destruct (failure_then_next_window (Q:=list block) APIError (of_string "timeout")
              (ApiText (of_string "second window"))
              (example_state (Some 16000) (replicate 40 [7])) 16000)
    as (g1 & g2 & H1 & L1 & H2 & L2 & _); [done|done|lia|done|done|done|simpl; lia|].
  exists g1, g2. split_and!; [exact H1|exact L1|exact H2|exact L2].
Defined.

Lemma pause_keeps_blocks_witness :
  let g1 := capture (replicate 15 [3]) (toggle_pause (example_state (Some 16000) (replicate 10 [5]))) in
  transcribe_loop_body (ApiText []) g1 = Slept g1 ∧
  g1.(audio_q) = replicate 10 [5] ++ replicate 15 [3] ∧
  ∃ g', transcribe_loop_body (ApiText []) (toggle_pause g1) =
          Dispatched (write_wav (replicate 10 5 ++ replicate 10 3)) g' ∧
        g'.(audio_q) = replicate 5 [3].
Proof.
  destruct (pause_keeps_blocks (Q:=list block) (replicate 15 [3]) (ApiText [])
              (example_state (Some 16000) (replicate 10 [5])) 16000)
    as (H1 & H2 & g' & H3 & H4); [done|done|lia|done|simpl; lia|].
  split_and!; [exact H1|exact H2|]. exists g'. split; [exact H3|exact H4].
Defined.

Lemma worker_dies_without_rate_witness :
  ∃ g', transcribe_loop [ApiText (of_string "lost")] (example_state None (replicate 20 [0])) =
          ([], g', Dead TypeError) ∧
        g'.(audio_q) = [] ∧ g'.(emitted) = [].
Proof.
  destruct (worker_dies_without_rate (Q:=list block) (ApiText (of_string "lost")) []
              (example_state None (replicate 20 [0])))
    as (g' & H1 & H2 & H3); [done|done|simpl; lia|].
  exists g'. split_and!; [exact H1|exact H2|exact H3].
Defined.

Lemma queue_ok_preserved_witness :
  queue_ok (audio_callback [100; -100] None (example_state (Some 48000) [[1]; [2]])) ∧
  queue_ok (toggle_pause (example_state (Some 48000) [[1]; [2]])).
Proof.
  destruct (queue_ok_preserved (Q:=list block) (example_state (Some 48000) [[1]; [2]]))
    as (Hcb & Htp & _); [by repeat constructor|].
  split; [apply Hcb; by repeat constructor|exact Htp].
Defined.

Lemma window_at_44100_witness :
  ∃ req g', transcribe_loop_body (ApiText (of_string "ok"))
              (example_state (Some 44100) (replicate 20 (replicate 4000 0) ++ [[9]])) =
            Dispatched req g' ∧
            Z.of_nat (length req.(frames)) = 58050 ∧ wav_ok req ∧ g'.(audio_q) = [[9]].
Proof.
  destruct (window_at_44100 (Q:=list block) (ApiText (of_string "ok"))
              (example_state (Some 44100) (replicate 20 (replicate 4000 0) ++ [[9]]))
              (replicate 20 (replicate 4000 0)) [[9]])
    as (req & g' & H1 & H2 & H3 & H4);
    [done|done|done|done|apply length_replicate| |].
  { apply Forall_replicate, length_replicate. }
  exists req, g'. split_and!; [exact H1|exact H2|exact H3|exact H4].
Defined.

Lemma conversion_keeps_duration_witness :
  2 * Z.abs (44100 * Z.of_nat (length (converted 44100 (replicate 80000 0))) - 16000 * 80000)
    ≤ 44100.
Proof.
  pose proof (conversion_keeps_duration 44100 (replicate 80000 0)) as Hd.
  rewrite length_replicate in Hd. apply Hd. lia.
Defined.
