(* ===== verification/Devices.v ===== *)
(** * Devices: enumeration, persistence and selection of the input device

    [list_devices] (lines 80-90) enumerates the usable input devices,
    [save_device] and [load_device] (lines 93-102) persist the selected
    index in [config.json], and [set_input_device] (lines 105-112) makes a
    device the selected one.  The audio subsystem and the file are part of
    the [world] these functions run in. *)

From Stdlib Require Import QArith_base String DecimalString.
From stdpp Require Import sorting.
From S2P Require Import Prelude Samples Resample AudioQueue Text Pipeline.

#[local] Open Scope Z_scope.

(** ** The audio subsystem *)

#[global] Instance Q_eq_dec : EqDecision Q.
Proof. solve_decision. Defined.

(** One entry of [sd.query_devices()]: the fields the program reads, and
    what [sd.check_input_settings] does for the device. *)
Record device_info : Type := DeviceInfo {
  name : str;
  max_input_channels : Z;
  hostapi : Z;
  default_samplerate : Q;
  check_input_settings : pyres unit;
}.

#[global] Instance device_info_eq_dec : EqDecision device_info.
Proof. solve_decision. Defined.

(** [sd.query_devices(index)]: the entry at the index, or an error for an
    index that names no device. *)
Definition query_devices (devices : list device_info) (index : Z) : pyres device_info :=
  if decide (0 ≤ index) then
    match devices !! Z.to_nat index with
    | Some d => Ok d
    | None => Raise PortAudioError
    end
  else Raise PortAudioError.

(** The test of line 83: an input device of host API 0. *)
Definition is_candidate (d : device_info) : Prop :=
  0 < d.(max_input_channels) ∧ d.(hostapi) = 0.

#[global] Instance is_candidate_dec d : Decision (is_candidate d).
Proof. unfold is_candidate. apply _. Defined.

(** A device the menu offers. *)
Definition is_listed (d : device_info) : Prop :=
  is_candidate d ∧ d.(check_input_settings) = Ok tt.

(** The loop of [list_devices] from index [i] on (lines 82-89): a candidate
    is listed when its settings check passes, skipped when the check raises
    [PortAudioError]; any other exception leaves the function. *)
Fixpoint list_devices_from (i : Z) (devices : list device_info) : pyres (list (Z * str)) :=
  match devices with
  | [] => Ok []
  | d :: rest =>
      if decide (is_candidate d) then
        match d.(check_input_settings) with
        | Ok _ => l ← list_devices_from (i + 1) rest; Ok ((i, d.(name)) :: l)
        | Raise PortAudioError => list_devices_from (i + 1) rest
        | Raise e => Raise e
        end
      else list_devices_from (i + 1) rest
  end.

(** [list_devices()] (lines 80-90). *)
Definition list_devices (devices : list device_info) : pyres (list (Z * str)) :=
  list_devices_from 0 devices.

(** ** The configuration file *)

(** [config.json]: absent, present but no JSON text, a JSON value that is
    no object, or an object whose [device_index] is [null] (or missing) or
    an integer. *)
Inductive config_file : Type :=
  | NoFile
  | NotJson
  | NotObject
  | ConfigFile (device_index : option Z).

#[global] Instance config_file_eq_dec : EqDecision config_file.
Proof. solve_decision. Defined.

(** [save_device(index)] (lines 93-95) overwrites the file. *)
Definition save_device (index : Z) (c : config_file) : config_file :=
  ConfigFile (Some index).

(** [load_device()] (lines 98-102): [json.load] raises a [ValueError] on
    text that is no JSON, and [.get] an [AttributeError] on a value that is
    no object. *)
Definition load_device (c : config_file) : pyres (option Z) :=
  match c with
  | NoFile => Ok None
  | NotJson => Raise ValueError
  | NotObject => Raise AttributeError
  | ConfigFile i => Ok i
  end.

(** ** The world *)

Section devices.
Context `{Fifo block AQ}.

Record world : Type := World {
  globals : state AQ;
  config : config_file;
  devices : list device_info;
}.

Definition with_globals (g : state AQ) (w : world) : world :=
  {| globals := g; config := w.(config); devices := w.(devices) |}.

Definition with_config (c : config_file) (w : world) : world :=
  {| globals := w.(globals); config := c; devices := w.(devices) |}.

Definition with_devices (ds : list device_info) (w : world) : world :=
  {| globals := w.(globals); config := w.(config); devices := ds |}.

(** A statement that assigns globals only. *)
Definition on_globals (f : state AQ → state AQ) (w : world) : world :=
  with_globals (f w.(globals)) w.

(** [str(n)] for an integer. *)
Definition str_of_Z (n : Z) : str := of_string (NilZero.string_of_int (Z.to_int n)).

(** The line [set_input_device] prints (line 112). *)
Definition selected_line (device_name : str) (sample_rate : Z) : str :=
  ([0x5B; 0x1F50A; 0x5D]%N ++ of_string " Selected input: ") ++ device_name ++
  of_string " @ " ++ str_of_Z sample_rate ++ of_string " Hz".

(** [set_input_device(index)] (lines 105-112), statement by statement. *)
Definition set_input_device (index : Z) : py world unit :=
  py_modify (λ w, with_globals (with_input_device_index (Some index) w.(globals)) w) ;;
  py_modify (λ w, with_config (save_device index w.(config)) w) ;;
  w ← py_get;
  info ← py_lift (query_devices w.(devices) index);
  py_modify (λ w, with_globals
    (with_SAMPLE_RATE (Some (trunc info.(default_samplerate))) w.(globals)) w) ;;
  py_modify (λ w, with_globals (with_selected_event true w.(globals)) w) ;;
  py_modify (λ w, with_globals
    (print (selected_line info.(name) (trunc info.(default_samplerate))) w.(globals)) w).

(** ** Reference states *)

(** The state after the two assignments that precede the query. *)
Definition index_saved (index : Z) (w : world) : world :=
  with_config (save_device index w.(config))
    (with_globals (with_input_device_index (Some index) w.(globals)) w).

(** The state after a selection that went through. *)
Definition selected (index : Z) (d : device_info) (w : world) : world :=
  let sr := trunc d.(default_samplerate) in
  with_globals
    (print (selected_line d.(name) sr)
       (with_selected_event true
          (with_SAMPLE_RATE (Some sr) (index_saved index w).(globals))))
    (index_saved index w).

(** ** Invariants *)

(** The invariant of the selected-device state: a sample rate is set if
    and only if a device is. *)
Definition selection_ok (g : state AQ) : Prop :=
  is_Some g.(SAMPLE_RATE) ↔ is_Some g.(input_device_index).

(** The selection agrees with the subsystem and the file: the selected
    index names a device, the rate is that device's, the event is set and
    the file holds the index. *)
Definition selection_consistent (w : world) : Prop :=
  match w.(globals).(input_device_index) with
  | None => w.(globals).(SAMPLE_RATE) = None ∧ w.(globals).(selected_event) = false
  | Some i =>
      ∃ d, query_devices w.(devices) i = Ok d ∧
           w.(globals).(SAMPLE_RATE) = Some (trunc d.(default_samplerate)) ∧
           w.(globals).(selected_event) = true ∧
           w.(config) = ConfigFile (Some i)
  end.

End devices.

Arguments world AQ : clear implicits.

(** A world of the list implementation used in the examples: nothing is
    selected yet; device 0 is an output, device 1 a microphone at 44100 Hz,
    device 2 a disabled microphone, device 3 a microphone of another host
    API. *)
Definition example_devices : list device_info :=
  [ DeviceInfo (of_string "Speakers") 0 0 (48000 # 1) (Ok tt);
    DeviceInfo (of_string "Microphone") 2 0 (44100 # 1) (Ok tt);
    DeviceInfo (of_string "Line In") 2 0 (48000 # 1) (Raise PortAudioError);
    DeviceInfo (of_string "Microphone (WASAPI)") 2 1 (48000 # 1) (Ok tt) ].

Definition example_world : world (list block) :=
  {| globals := initial_state; config := ConfigFile None; devices := example_devices |}.

(** ** Theorems *)

(** *** Enumeration *)

Section enumeration.
Implicit Types (d : device_info) (ds : list device_info) (i j : Z) (l : list (Z * str)).

Lemma query_devices_Ok ds j d :
  query_devices ds j = Ok d ↔ 0 ≤ j ∧ ds !! Z.to_nat j = Some d.
Proof.
  unfold query_devices. case_decide; [|split; [done|lia]].
  destruct (ds !! Z.to_nat j); split; try done; naive_solver.
Qed.

Lemma query_devices_Raise ds j e :
  query_devices ds j = Raise e ↔ e = PortAudioError ∧ (j < 0 ∨ Z.of_nat (length ds) ≤ j).
Proof.
  unfold query_devices. case_decide.
  - destruct (ds !! Z.to_nat j) eqn:Hl.
    + apply lookup_lt_Some in Hl. split; [done|]. intros [_ [?|?]]; lia.
    + apply lookup_ge_None in Hl. split; [intros [= <-]; split; [done|lia]|by intros [-> _]].
  - split; [intros [= <-]; split; [done|lia]|by intros [-> _]].
Qed.

(** One step of the loop, by the three cases of the device. *)
Lemma list_devices_from_cons i d ds :
  list_devices_from i (d :: ds) =
    if decide (is_candidate d) then
      match d.(check_input_settings) with
      | Ok _ => l ← list_devices_from (i + 1) ds; Ok ((i, d.(name)) :: l)
      | Raise PortAudioError => list_devices_from (i + 1) ds
      | Raise e => Raise e
      end
    else list_devices_from (i + 1) ds.
Proof. done. Qed.

(** When the loop returns, a device is in the result exactly if it is an
    input device of host API 0 whose settings check passed. *)
Lemma list_devices_from_elem i ds l j nm :
  list_devices_from i ds = Ok l →
  (j, nm) ∈ l ↔ ∃ d, i ≤ j ∧ ds !! Z.to_nat (j - i) = Some d ∧ is_listed d ∧ nm = d.(name).
Proof.
  revert i l. induction ds as [|d ds IH]; intros i l.
  - intros [= <-]. split; [by intros ?%elem_of_nil|by intros (d & _ & ? & _)].
  - rewrite list_devices_from_cons. intros Hl.
    assert (∀ l', list_devices_from (i + 1) ds = Ok l' →
      (j, nm) ∈ l' ↔ ∃ d', i + 1 ≤ j ∧ (d :: ds) !! Z.to_nat (j - i) = Some d' ∧
                           is_listed d' ∧ nm = d'.(name)) as IH'.
    { intros l' Hl'. rewrite (IH _ _ Hl'). apply exist_proper; intros d'.
      split; intros (? & Hd & ?); (split; [done|]); (split; [|done]);
        replace (Z.to_nat (j - i)) with (S (Z.to_nat (j - (i + 1)))) in * by lia; done. }
    assert ((∃ d', i ≤ j ∧ (d :: ds) !! Z.to_nat (j - i) = Some d' ∧ is_listed d' ∧
                   nm = d'.(name)) ↔
            (j = i ∧ is_listed d ∧ nm = d.(name)) ∨
            (∃ d', i + 1 ≤ j ∧ (d :: ds) !! Z.to_nat (j - i) = Some d' ∧ is_listed d' ∧
                   nm = d'.(name))) as ->.
    { split.
      - intros (d' & Hij & Hd & Hlist & ->). destruct (decide (j = i)) as [->|].
        + left. rewrite Z.sub_diag in Hd. by simplify_eq/=.
        + right. exists d'. split_and!; [lia|done..].
      - intros [(-> & ? & ->)|(d' & ? & ? & ? & ->)].
        + exists d. by rewrite Z.sub_diag.
        + exists d'. split_and!; [lia|done..]. }
    unfold is_listed at 1. case_decide as Hc.
    + destruct (check_input_settings d) as [[]|e] eqn:Hchk.
      * destruct (list_devices_from (i + 1) ds) as [l'|] eqn:Hl'; simplify_eq/=.
        rewrite elem_of_cons, (IH' _ eq_refl). naive_solver.
      * assert (list_devices_from (i + 1) ds = Ok l) as Hl' by (by destruct e).
        rewrite (IH' _ Hl'). naive_solver.
    + rewrite (IH' _ Hl). naive_solver.
Qed.

(** The result is in the order of the device list: indices increase. *)
Lemma list_devices_from_sorted i ds l :
  list_devices_from i ds = Ok l → StronglySorted Z.lt l.*1 ∧ Forall (λ p, i ≤ p.1) l.
Proof.
  revert i l. induction ds as [|d ds IH]; intros i l.
  - intros [= <-]. split; constructor.
  - rewrite list_devices_from_cons. intros Hl.
    assert (∀ l', list_devices_from (i + 1) ds = Ok l' →
      StronglySorted Z.lt l'.*1 ∧ Forall (λ p, i + 1 ≤ p.1) l') as IH' by auto.
    assert (∀ l', Forall (λ p : Z * list N, i + 1 ≤ p.1) l' → Forall (λ p, i ≤ p.1) l') as Hw.
    { intros l'. apply Forall_impl. intros; lia. }
    case_decide.
    + destruct (check_input_settings d) as [[]|e] eqn:Hchk.
      * destruct (list_devices_from (i + 1) ds) as [l'|] eqn:Hl'; simplify_eq/=.
        destruct (IH' _ eq_refl) as [Hs Hf]. split.
        -- constructor; [done|]. apply Forall_fmap. eapply Forall_impl; [|exact Hf].
           intros [? ?]; simpl; lia.
        -- constructor; [simpl; lia|by apply Hw].
      * assert (list_devices_from (i + 1) ds = Ok l) as Hl' by (by destruct e).
        destruct (IH' _ Hl'). split; [done|by apply Hw].
    + destruct (IH' _ Hl). split; [done|by apply Hw].
Qed.

(** The loop returns unless a check raises something else than
    [PortAudioError]. *)
Lemma list_devices_from_returns i ds :
  Forall (λ d, is_candidate d → d.(check_input_settings) = Ok tt ∨
                                d.(check_input_settings) = Raise PortAudioError) ds →
  ∃ l, list_devices_from i ds = Ok l.
Proof.
  intros Hds. revert i. induction Hds as [|d ds Hd _ IH]; intros i; [by eexists|].
  rewrite list_devices_from_cons. destruct (IH (i + 1)) as [l Hl].
  case_decide as Hc; [|by eexists]. destruct (Hd Hc) as [-> | ->]; rewrite Hl; by eexists.
Qed.

End enumeration.

(** *** Selection *)

Section selection.
Context `{Fifo block AQ}.
Implicit Types (w : world AQ) (index : Z) (d : device_info).

(** The function, by the outcome of the query. *)
Lemma set_input_device_run index w :
  set_input_device index w =
    match query_devices w.(devices) index with
    | Ok d => (Ok tt, selected index d w)
    | Raise e => (Raise e, index_saved index w)
    end.
Proof.
  unfold set_input_device, mbind, py_bind, py_modify, py_get, py_lift. simpl.
  by destruct (query_devices (devices w) index).
Qed.

(** The selection touches neither the queue nor the pause flag nor what was
    shown. *)
Lemma set_input_device_frame index w r w' :
  set_input_device index w = (r, w') →
  w'.(globals).(audio_q) = w.(globals).(audio_q) ∧
  w'.(globals).(paused) = w.(globals).(paused) ∧
  w'.(globals).(emitted) = w.(globals).(emitted) ∧
  w'.(devices) = w.(devices).
Proof.
  rewrite set_input_device_run. by destruct (query_devices _ _); intros [= <- <-].
Qed.

(** Claim C22.  Selecting an index that names a device succeeds; afterwards
    the index is selected and persisted, the sample rate is the device's
    default rate truncated to an integer, the event waking the main thread
    is set, one line is printed, and the selection is consistent. *)
Theorem set_input_device_selects index w d :
  query_devices w.(devices) index = Ok d →
  ∃ w', set_input_device index w = (Ok tt, w') ∧
        w'.(globals).(input_device_index) = Some index ∧
        w'.(globals).(SAMPLE_RATE) = Some (trunc d.(default_samplerate)) ∧
        w'.(globals).(selected_event) = true ∧
        load_device w'.(config) = Ok (Some index) ∧
        w'.(globals).(stdout) =
          w.(globals).(stdout) ++ [selected_line d.(name) (trunc d.(default_samplerate))] ∧
        selection_consistent w' ∧ selection_ok w'.(globals).
Proof.
  intros Hq. rewrite set_input_device_run, Hq. eexists. split; [done|].
  split_and!; [done..| |].
  - unfold selection_consistent. simpl. exists d. by rewrite Hq.
  - unfold selection_ok. simpl. split; eauto.
Qed.

(** Claim C23.  Selecting an index that names no device raises
    [PortAudioError] after the index was assigned and saved: the selected
    index and the file name a device that does not exist, while the sample
    rate and the event keep their old values.  The selection is then not
    consistent, and if no rate was set before, a device is selected without
    a rate. *)
Theorem set_input_device_invalid index w e :
  query_devices w.(devices) index = Raise e →
  ∃ w', set_input_device index w = (Raise PortAudioError, w') ∧
        w'.(globals).(input_device_index) = Some index ∧
        w'.(config) = ConfigFile (Some index) ∧
        w'.(globals).(SAMPLE_RATE) = w.(globals).(SAMPLE_RATE) ∧
        w'.(globals).(selected_event) = w.(globals).(selected_event) ∧
        ¬ selection_consistent w' ∧
        (w.(globals).(SAMPLE_RATE) = None → ¬ selection_ok w'.(globals)).
Proof.
  intros Hq. rewrite set_input_device_run, Hq.
  apply query_devices_Raise in Hq as Hq'. destruct Hq' as [-> _].
  eexists. split; [done|]. split_and!; try done.
  - unfold selection_consistent. simpl. intros (d & Hd & _). congruence.
  - unfold selection_ok. simpl. intros Hsr [_ Hi]. rewrite Hsr in Hi.
    by destruct Hi as [? ?]; [eexists|].
Qed.

End selection.

Section switch.
Context `{Fifo block AQ} `{Resampler}.
Implicit Types (w : world AQ) (index : Z) (d : device_info).

(** Claim C40.  Selecting another device changes the sample rate and leaves
    the queue as it is: whatever rate the queued blocks were captured at,
    the worker's next iteration converts them as if they had been captured
    at the newly selected device's rate. *)
Theorem switch_converts_queued_blocks index w d resp :
  query_devices w.(devices) index = Ok d → 0 < trunc d.(default_samplerate) →
  w.(globals).(paused) = false → nonfatal resp →
  (20 ≤ length (fifo_items w.(globals).(audio_q)))%nat →
  ∃ w' g', set_input_device index w = (Ok tt, w') ∧
           fifo_items w'.(globals).(audio_q) = fifo_items w.(globals).(audio_q) ∧
           transcribe_loop_body resp w'.(globals) =
             Dispatched (write_wav (converted (trunc d.(default_samplerate))
               (concatenate (take 20 (fifo_items w.(globals).(audio_q)))))) g'.
Proof.
  intros Hq Hsr Hp Hnf Hl.
  destruct (set_input_device_selects index w d Hq) as (w' & Hrun & _ & Hsr' & _).
  destruct (set_input_device_frame index w _ _ Hrun) as (Hq' & Hp' & _).
  destruct (body_dispatch resp w'.(globals) (trunc d.(default_samplerate)))
    as (g' & Hb & _); [congruence|done|done|done|by rewrite Hq'|].
  exists w', g'. by rewrite Hb, Hq'.
Qed.

End switch.

(** Claim C39.  When [list_devices] returns, its result holds exactly the
    input devices of host API 0 whose settings check passed, each once,
    with its index and name, in the order of the device list. *)
Theorem list_devices_spec (ds : list device_info) (l : list (Z * str)) :
  list_devices ds = Ok l →
  (∀ j nm, (j, nm) ∈ l ↔ ∃ d, query_devices ds j = Ok d ∧ is_listed d ∧ nm = d.(name)) ∧
  StronglySorted Z.lt l.*1.
Proof.
  intros Hl. split; [|by eapply list_devices_from_sorted]. intros j nm.
  rewrite (list_devices_from_elem 0 ds l j nm Hl), Z.sub_0_r.
  apply exist_proper; intros d. rewrite query_devices_Ok. naive_solver.
Qed.

(** ** Examples *)

Lemma set_input_device_selects_witness :
  ∃ w', set_input_device 1 example_world = (Ok tt, w') ∧
        w'.(globals).(input_device_index) = Some 1 ∧
        w'.(globals).(SAMPLE_RATE) = Some 44100 ∧
        w'.(globals).(selected_event) = true ∧
        load_device w'.(config) = Ok (Some 1).
Proof.
  destruct (set_input_device_selects (AQ:=list block) 1 example_world
              (DeviceInfo (of_string "Microphone") 2 0 (44100 # 1) (Ok tt)))
    as (w' & H1 & H2 & H3 & H4 & H5 & _); [done|].
  exists w'. split_and!; [exact H1|exact H2|exact H3|exact H4|exact H5].
Defined.

Lemma set_input_device_invalid_witness :
  ∃ w', set_input_device 7 example_world = (Raise PortAudioError, w') ∧
        w'.(globals).(input_device_index) = Some 7 ∧
        w'.(config) = ConfigFile (Some 7) ∧
        w'.(globals).(SAMPLE_RATE) = None ∧
        ¬ selection_ok w'.(globals).
Proof.
  destruct (set_input_device_invalid (AQ:=list block) 7 example_world PortAudioError)
    as (w' & H1 & H2 & H3 & H4 & _ & _ & H5); [done|].
  exists w'. split_and!; [exact H1|exact H2|exact H3|exact H4|exact (H5 eq_refl)].
Defined.

Lemma list_devices_spec_witness :
  list_devices example_devices = Ok [(1, of_string "Microphone")] ∧
  StronglySorted Z.lt [1].
Proof.
  split; [done|].
  exact (proj2 (list_devices_spec example_devices [(1, of_string "Microphone")] eq_refl)).
Defined.

Lemma switch_converts_queued_blocks_witness :
  ∃ w' g',
    set_input_device 1
      (with_globals (example_state (Some 16000) (replicate 20 (replicate 441 5))) example_world) =
      (Ok tt, w') ∧
    transcribe_loop_body (ApiText []) w'.(globals) =
      Dispatched (write_wav (converted 44100 (replicate 8820 5))) g' ∧
    Z.of_nat (length (converted 44100 (replicate 8820 5))) = 3200.
Proof.
  destruct (switch_converts_queued_blocks (AQ:=list block) 1
              (with_globals (example_state (Some 16000) (replicate 20 (replicate 441 5)))
                 example_world)
              (DeviceInfo (of_string "Microphone") 2 0 (44100 # 1) (Ok tt)) (ApiText []))
    as (w' & g' & H1 & _ & H2); [done|done|done|done|simpl; lia|].
  exists w', g'. split_and!; [exact H1|exact H2|].
  rewrite converted_length by lia. by rewrite length_replicate.
Defined.
