(* ===== verification/System.v ===== *)
(** * System: the threads of the program and their interleavings

    After the window is shown, the main thread (lines 267-284) restores the
    saved device, starts the worker thread ([transcribe_loop]) and the tray
    thread ([run_tray]), waits for a device selection if none was restored,
    starts the recording thread ([record_audio]) and enters the event loop.
    The driver then calls [audio_callback] for every block, the tray thread
    runs [set_input_device] and [toggle_pause] on menu clicks, and the
    worker consumes the queue.

    This file models the interleavings of these threads as a labelled step
    relation [step] on the system state [sys].  A step is one statement of
    one thread: [set_input_device] advances statement by statement
    ([sel_step]), the list comprehension of line 147 one [get] at a time,
    and the worker's service call is a step of its own.  [exec] is the same
    relation as a function of the action, so that executions compute.

    The theorems are invariants of the reachable states, proved by
    induction on [step] (conservation of the audio, the requests and
    their windows, the selection, the order of the start-up, the types of
    the values held), refinements between the threads and the functions
    of [Pipeline] and [Devices], and executions that exhibit the races the
    invariants leave open. *)

From Stdlib Require Import QArith_base String.
From S2P Require Import Prelude Samples Resample AudioQueue Text Pipeline Devices.

#[local] Open Scope Z_scope.

(** ** Program points *)

(** Where a run of [set_input_device] is: the statement it executes next
    (lines 107-112), with the queried device once line 109 has run. *)
Inductive sel_pc : Type :=
  | SelAssign
  | SelSave
  | SelQuery
  | SelRate (info : device_info)
  | SelEvent (info : device_info)
  | SelPrint (info : device_info).

#[global] Instance sel_pc_eq_dec : EqDecision sel_pc.
Proof. solve_decision. Defined.

(** What a statement of [set_input_device] leads to. *)
Inductive sel_next : Type :=
  | SelNext (pc : sel_pc)
  | SelDone
  | SelRaised (e : exn).

#[global] Instance sel_next_eq_dec : EqDecision sel_next.
Proof. solve_decision. Defined.

(** The main thread, from line 267 on. *)
Inductive main_pc : Type :=
  | MLoad
  | MRestore (saved : Z) (pc : sel_pc)
  | MSpawnWorker
  | MSpawnTray
  | MCheck
  | MWait
  | MRecord
  | MExec
  | MExit.

#[global] Instance main_pc_eq_dec : EqDecision main_pc.
Proof. solve_decision. Defined.

(** The worker thread: not started, at the test of line 143, inside the
    comprehension of line 147 with the blocks taken so far, before the call
    of line 151 with the chunk to convert, in the service call with the
    request sent, or dead. *)
Inductive worker_pc : Type :=
  | WNotStarted
  | WTop
  | WCollect (got : list block)
  | WResample (audio_chunk : block)
  | WCall (request : wav)
  | WDead (e : exn).

#[global] Instance worker_pc_eq_dec : EqDecision worker_pc.
Proof. solve_decision. Defined.

(** The tray thread: not started, about to build the menu, showing the
    menu built from the devices listed then, possibly inside the handler of
    a click on a device, or dead. *)
Inductive tray_pc : Type :=
  | TNotStarted
  | TBuild
  | TMenu (items : list (Z * str)) (click : option (Z * sel_pc))
  | TDead (e : exn).

#[global] Instance tray_pc_eq_dec : EqDecision tray_pc.
Proof. solve_decision. Defined.

(** The recording thread: not started, about to open the stream, holding
    the stream open on a device at a rate, or dead. *)
Inductive rec_pc : Type :=
  | RNotStarted
  | ROpening
  | ROpen (device rate : Z)
  | RDead (e : exn).

#[global] Instance rec_pc_eq_dec : EqDecision rec_pc.
Proof. solve_decision. Defined.

(** ** Actions *)

(** Which thread takes a step, with what the environment contributes: the
    block and status flags of a driver callback, the service's answer,
    whether the host accepts the stream when it is opened, the menu item
    clicked, the devices after a device was plugged or unplugged. *)
Inductive action : Type :=
  | LMain
  | LWorker
  | LAnswer (resp : api_response)
  | LTray
  | LClickDevice (index : Z)
  | LClickPause
  | LClickQuit
  | LRecOpen (accepted : bool)
  | LBlock (indata : block) (status : option str)
  | LReplug (ds : list device_info).

(** The line [record_audio] prints (line 135). *)
Definition recording_line : str :=
  [0x1F399; 0xFE0F; 0x20]%N ++ of_string "Recording started".

(** The line the main thread prints before it waits (line 277). *)
Definition waiting_line : str :=
  [0x23F3; 0x20]%N ++ of_string "Waiting for input device selection...".

(** The line of the handler of lines 288-289; the exception's text is not
    modelled. *)
Definition main_error_line : str := of_string "Error: ".

(** The line of the handler of lines 286-287. *)
Definition bye_line : str := [0x0A; 0x1F44B; 0x20]%N ++ of_string "Exiting.".

Section system.
Context `{Fifo block AQ} `{Resampler}.

(** ** The system state *)

(** The world, the program point of every thread, and three histories that
    no statement reads: the blocks the driver delivered, the blocks of the
    windows the worker completed, and the requests it sent. *)
Record sys : Type := Sys {
  sw : world AQ;
  main : main_pc;
  worker : worker_pc;
  tray : tray_pc;
  recorder : rec_pc;
  captured : list block;
  consumed : list block;
  sent : list wav;
}.

Definition with_sw (w : world AQ) (s : sys) : sys :=
  {| sw := w; main := s.(main); worker := s.(worker); tray := s.(tray);
     recorder := s.(recorder); captured := s.(captured); consumed := s.(consumed);
     sent := s.(sent) |}.

Definition with_main (pc : main_pc) (s : sys) : sys :=
  {| sw := s.(sw); main := pc; worker := s.(worker); tray := s.(tray);
     recorder := s.(recorder); captured := s.(captured); consumed := s.(consumed);
     sent := s.(sent) |}.

Definition with_worker (pc : worker_pc) (s : sys) : sys :=
  {| sw := s.(sw); main := s.(main); worker := pc; tray := s.(tray);
     recorder := s.(recorder); captured := s.(captured); consumed := s.(consumed);
     sent := s.(sent) |}.

Definition with_tray (pc : tray_pc) (s : sys) : sys :=
  {| sw := s.(sw); main := s.(main); worker := s.(worker); tray := pc;
     recorder := s.(recorder); captured := s.(captured); consumed := s.(consumed);
     sent := s.(sent) |}.

Definition with_recorder (pc : rec_pc) (s : sys) : sys :=
  {| sw := s.(sw); main := s.(main); worker := s.(worker); tray := s.(tray);
     recorder := pc; captured := s.(captured); consumed := s.(consumed);
     sent := s.(sent) |}.

Definition with_captured (bs : list block) (s : sys) : sys :=
  {| sw := s.(sw); main := s.(main); worker := s.(worker); tray := s.(tray);
     recorder := s.(recorder); captured := bs; consumed := s.(consumed);
     sent := s.(sent) |}.

Definition with_consumed (bs : list block) (s : sys) : sys :=
  {| sw := s.(sw); main := s.(main); worker := s.(worker); tray := s.(tray);
     recorder := s.(recorder); captured := s.(captured); consumed := bs;
     sent := s.(sent) |}.

Definition with_sent (ws : list wav) (s : sys) : sys :=
  {| sw := s.(sw); main := s.(main); worker := s.(worker); tray := s.(tray);
     recorder := s.(recorder); captured := s.(captured); consumed := s.(consumed);
     sent := ws |}.

(** A statement on the globals. *)
Definition on_sys_globals (f : state AQ → state AQ) (s : sys) : sys :=
  with_sw (on_globals f s.(sw)) s.

(** The globals of the system. *)
Definition g_of (s : sys) : state AQ := s.(sw).(globals).

(** The state when line 267 is reached: the module globals as loaded with
    the signal handler created (line 249), no thread started. *)
Definition boot (c : config_file) (ds : list device_info) : sys :=
  {| sw := {| globals := with_signal_handler true initial_state; config := c; devices := ds |};
     main := MLoad; worker := WNotStarted; tray := TNotStarted; recorder := RNotStarted;
     captured := []; consumed := []; sent := [] |}.

(** ** One statement of [set_input_device] *)

Definition sel_step (index : Z) (pc : sel_pc) (w : world AQ) : world AQ * sel_next :=
  match pc with
  | SelAssign => (on_globals (with_input_device_index (Some index)) w, SelNext SelSave)
  | SelSave => (with_config (save_device index w.(config)) w, SelNext SelQuery)
  | SelQuery =>
      match query_devices w.(devices) index with
      | Ok info => (w, SelNext (SelRate info))
      | Raise e => (w, SelRaised e)
      end
  | SelRate info =>
      (on_globals (with_SAMPLE_RATE (Some (trunc info.(default_samplerate)))) w,
       SelNext (SelEvent info))
  | SelEvent info => (on_globals (with_selected_event true) w, SelNext (SelPrint info))
  | SelPrint info =>
      (on_globals (print (selected_line info.(name) (trunc info.(default_samplerate)))) w,
       SelDone)
  end.

(** ** Opening the stream *)

(** [sd.InputStream(samplerate=..., device=..., channels=1, ...)] (lines
    127-134): the device must exist and have an input channel, and the host
    must accept the stream (the device is free, the rate is supported); with
    no sample rate given the stream runs at the device's default rate. *)
Definition open_stream (ds : list device_info) (device : Z) (samplerate : option Z)
    (accepted : bool) : pyres (Z * Z) :=
  d ← query_devices ds device;
  if decide (0 < d.(max_input_channels)) then
    if accepted then Ok (device, default (trunc d.(default_samplerate)) samplerate)
    else Raise PortAudioError
  else Raise PortAudioError.

(** ** The worker's conversion, statement by statement *)

(** The test of line 150. *)
Definition rate_differs (sample_rate : option Z) : bool :=
  bool_decide (sample_rate ≠ Some 16000).

(** The call of line 151, which reads [SAMPLE_RATE] again. *)
Definition resample_at (sample_rate : option Z) (audio_chunk : block) : pyres block :=
  match sample_rate with
  | None => Raise TypeError
  | Some sr => resample_audio audio_chunk sr 16000
  end.

(** ** The end of the main thread *)

(** The process runs until the main thread ends; the other threads are
    daemons. *)
Definition alive (s : sys) : Prop := s.(main) ≠ MExit.

(** What the handlers of lines 286-289 print for an exception raised in
    the main thread; [SystemExit] passes both. *)
Definition main_handler (e : exn) (g : state AQ) : state AQ :=
  if is_Exception e then print main_error_line g
  else match e with
       | KeyboardInterrupt => print bye_line g
       | _ => g
       end.

(** The main thread ends with an exception. *)
Definition main_raise (e : exn) (s : sys) : sys :=
  with_main MExit (on_sys_globals (main_handler e) s).

(** The blocks the worker has taken for the window it is collecting. *)
Definition in_flight (s : sys) : list block :=
  match s.(worker) with
  | WCollect got => got
  | _ => []
  end.

(** ** The step relation *)

Inductive step : sys → action → sys → Prop :=
  (* the main thread, lines 268-281 *)
  | step_load_none s :
      s.(main) = MLoad → load_device s.(sw).(config) = Ok None →
      step s LMain (with_main MSpawnWorker s)
  | step_load_some s i :
      s.(main) = MLoad → load_device s.(sw).(config) = Ok (Some i) →
      step s LMain (with_main (MRestore i SelAssign) s)
  | step_load_raise s e :
      s.(main) = MLoad → load_device s.(sw).(config) = Raise e →
      step s LMain (main_raise e s)
  | step_restore s i pc w' pc' :
      s.(main) = MRestore i pc → sel_step i pc s.(sw) = (w', SelNext pc') →
      step s LMain (with_main (MRestore i pc') (with_sw w' s))
  | step_restore_done s i pc w' :
      s.(main) = MRestore i pc → sel_step i pc s.(sw) = (w', SelDone) →
      step s LMain (with_main MSpawnWorker (with_sw w' s))
  | step_restore_raise s i pc w' e :
      s.(main) = MRestore i pc → sel_step i pc s.(sw) = (w', SelRaised e) →
      step s LMain (main_raise e (with_sw w' s))
  | step_spawn_worker s :
      s.(main) = MSpawnWorker →
      step s LMain (with_main MSpawnTray (with_worker WTop s))
  | step_spawn_tray s :
      s.(main) = MSpawnTray →
      step s LMain (with_main MCheck (with_tray TBuild s))
  | step_check_none s :
      s.(main) = MCheck → (g_of s).(input_device_index) = None →
      step s LMain (with_main MWait (on_sys_globals (print waiting_line) s))
  | step_check_some s i :
      s.(main) = MCheck → (g_of s).(input_device_index) = Some i →
      step s LMain (with_main MRecord s)
  | step_wait s :
      s.(main) = MWait → (g_of s).(selected_event) = true →
      step s LMain (with_main MRecord s)
  | step_record s :
      s.(main) = MRecord →
      step s LMain (with_main MExec (with_recorder ROpening s))
  (* the worker, lines 143-175 *)
  | step_sleep s :
      alive s → s.(worker) = WTop → (g_of s).(paused) = true →
      step s LWorker s
  | step_begin s :
      alive s → s.(worker) = WTop → (g_of s).(paused) = false →
      step s LWorker (with_worker (WCollect []) s)
  | step_get s got b q' :
      alive s → s.(worker) = WCollect got → (length got < 20)%nat →
      fifo_get (g_of s).(audio_q) = Some (b, q') →
      step s LWorker (with_worker (WCollect (got ++ [b])) (on_sys_globals (with_audio_q q') s))
  | step_window s got :
      alive s → s.(worker) = WCollect got → length got = 20%nat →
      step s LWorker
        (with_worker (if rate_differs (g_of s).(SAMPLE_RATE)
                      then WResample (concatenate got)
                      else WCall (write_wav (concatenate got)))
           (with_consumed (s.(consumed) ++ got) s))
  | step_resample s audio_chunk c :
      alive s → s.(worker) = WResample audio_chunk →
      resample_at (g_of s).(SAMPLE_RATE) audio_chunk = Ok c →
      step s LWorker (with_worker (WCall (write_wav c)) s)
  | step_resample_raise s audio_chunk e :
      alive s → s.(worker) = WResample audio_chunk →
      resample_at (g_of s).(SAMPLE_RATE) audio_chunk = Raise e →
      step s LWorker (with_worker (WDead e) s)
  | step_answer s request resp g' :
      alive s → s.(worker) = WCall request → on_response resp (g_of s) = Ok g' →
      step s (LAnswer resp)
        (with_worker WTop (with_sent (s.(sent) ++ [request]) (on_sys_globals (λ _, g') s)))
  | step_answer_raise s request resp e :
      alive s → s.(worker) = WCall request → on_response resp (g_of s) = Raise e →
      step s (LAnswer resp) (with_worker (WDead e) (with_sent (s.(sent) ++ [request]) s))
  (* the tray thread, lines 193-206 *)
  | step_build s items :
      alive s → s.(tray) = TBuild → list_devices s.(sw).(devices) = Ok items →
      step s LTray (with_tray (TMenu items None) s)
  | step_build_raise s e :
      alive s → s.(tray) = TBuild → list_devices s.(sw).(devices) = Raise e →
      step s LTray (with_tray (TDead e) s)
  | step_click_device s items i :
      alive s → s.(tray) = TMenu items None → i ∈ items.*1 →
      step s (LClickDevice i) (with_tray (TMenu items (Some (i, SelAssign))) s)
  | step_select s items i pc w' pc' :
      alive s → s.(tray) = TMenu items (Some (i, pc)) →
      sel_step i pc s.(sw) = (w', SelNext pc') →
      step s LTray (with_tray (TMenu items (Some (i, pc'))) (with_sw w' s))
  | step_select_done s items i pc w' :
      alive s → s.(tray) = TMenu items (Some (i, pc)) →
      sel_step i pc s.(sw) = (w', SelDone) →
      step s LTray (with_tray (TMenu items None) (with_sw w' s))
  | step_select_raise s items i pc w' e :
      alive s → s.(tray) = TMenu items (Some (i, pc)) →
      sel_step i pc s.(sw) = (w', SelRaised e) →
      step s LTray (with_tray (TMenu items None) (with_sw w' s))
  | step_click_pause s items :
      alive s → s.(tray) = TMenu items None →
      step s LClickPause (on_sys_globals toggle_pause s)
  | step_click_quit s items :
      alive s → s.(tray) = TMenu items None →
      step s LClickQuit (if decide (s.(main) = MExec) then with_main MExit s else s)
  (* the recording thread and the driver, lines 120-136 *)
  | step_open s i d r accepted :
      alive s → s.(recorder) = ROpening → (g_of s).(input_device_index) = Some i →
      open_stream s.(sw).(devices) i (g_of s).(SAMPLE_RATE) accepted = Ok (d, r) →
      step s (LRecOpen accepted)
        (with_recorder (ROpen d r) (on_sys_globals (print recording_line) s))
  | step_open_raise s i e accepted :
      alive s → s.(recorder) = ROpening → (g_of s).(input_device_index) = Some i →
      open_stream s.(sw).(devices) i (g_of s).(SAMPLE_RATE) accepted = Raise e →
      step s (LRecOpen accepted) (with_recorder (RDead e) s)
  | step_block s d r indata status :
      alive s → s.(recorder) = ROpen d r → block_ok indata → length indata = 4000%nat →
      step s (LBlock indata status)
        (with_captured (s.(captured) ++ [indata])
           (on_sys_globals (audio_callback indata status) s))
  (* the environment *)
  | step_replug s ds :
      alive s →
      step s (LReplug ds) (with_sw (with_devices ds s.(sw)) s).

(** Executions: the steps of a list of actions, one after the other. *)
Inductive steps : sys → list action → sys → Prop :=
  | steps_nil s : steps s [] s
  | steps_cons s l s' ls s'' : step s l s' → steps s' ls s'' → steps s (l :: ls) s''.

(** The states the program reaches from line 267 on. *)
Definition reachable (s : sys) : Prop := ∃ c ds ls, steps (boot c ds) ls s.

(** ** The step relation as a function *)

#[global] Instance alive_dec s : Decision (alive s).
Proof. unfold alive. apply _. Defined.

(** The next statement of the main thread, if it is not blocked. *)
Definition main_exec (s : sys) : option sys :=
  match s.(main) with
  | MLoad =>
      Some match load_device s.(sw).(config) with
           | Ok None => with_main MSpawnWorker s
           | Ok (Some i) => with_main (MRestore i SelAssign) s
           | Raise e => main_raise e s
           end
  | MRestore i pc =>
      Some match sel_step i pc s.(sw) with
           | (w', SelNext pc') => with_main (MRestore i pc') (with_sw w' s)
           | (w', SelDone) => with_main MSpawnWorker (with_sw w' s)
           | (w', SelRaised e) => main_raise e (with_sw w' s)
           end
  | MSpawnWorker => Some (with_main MSpawnTray (with_worker WTop s))
  | MSpawnTray => Some (with_main MCheck (with_tray TBuild s))
  | MCheck =>
      Some match (g_of s).(input_device_index) with
           | None => with_main MWait (on_sys_globals (print waiting_line) s)
           | Some _ => with_main MRecord s
           end
  | MWait => if (g_of s).(selected_event) then Some (with_main MRecord s) else None
  | MRecord => Some (with_main MExec (with_recorder ROpening s))
  | MExec | MExit => None
  end.

(** The next statement of the worker, up to the service call. *)
Definition worker_exec (s : sys) : option sys :=
  match s.(worker) with
  | WTop => Some (if (g_of s).(paused) then s else with_worker (WCollect []) s)
  | WCollect got =>
      if decide (length got < 20)%nat then
        match fifo_get (g_of s).(audio_q) with
        | Some (b, q') =>
            Some (with_worker (WCollect (got ++ [b])) (on_sys_globals (with_audio_q q') s))
        | None => None
        end
      else if decide (length got = 20%nat) then
        Some (with_worker (if rate_differs (g_of s).(SAMPLE_RATE)
                           then WResample (concatenate got)
                           else WCall (write_wav (concatenate got)))
                (with_consumed (s.(consumed) ++ got) s))
      else None
  | WResample audio_chunk =>
      Some match resample_at (g_of s).(SAMPLE_RATE) audio_chunk with
           | Ok c => with_worker (WCall (write_wav c)) s
           | Raise e => with_worker (WDead e) s
           end
  | _ => None
  end.

(** The service answers. *)
Definition answer_exec (resp : api_response) (s : sys) : option sys :=
  match s.(worker) with
  | WCall request =>
      Some match on_response resp (g_of s) with
           | Ok g' => with_worker WTop
                        (with_sent (s.(sent) ++ [request]) (on_sys_globals (λ _, g') s))
           | Raise e => with_worker (WDead e) (with_sent (s.(sent) ++ [request]) s)
           end
  | _ => None
  end.

(** The next statement of the tray thread. *)
Definition tray_exec (s : sys) : option sys :=
  match s.(tray) with
  | TBuild =>
      Some match list_devices s.(sw).(devices) with
           | Ok items => with_tray (TMenu items None) s
           | Raise e => with_tray (TDead e) s
           end
  | TMenu items (Some (i, pc)) =>
      Some match sel_step i pc s.(sw) with
           | (w', SelNext pc') => with_tray (TMenu items (Some (i, pc'))) (with_sw w' s)
           | (w', _) => with_tray (TMenu items None) (with_sw w' s)
           end
  | _ => None
  end.

(** A click on an item of the menu, when no handler is running. *)
Definition click_exec (l : action) (s : sys) : option sys :=
  match s.(tray) with
  | TMenu items None =>
      match l with
      | LClickDevice i =>
          if decide (i ∈ items.*1)
          then Some (with_tray (TMenu items (Some (i, SelAssign))) s) else None
      | LClickPause => Some (on_sys_globals toggle_pause s)
      | LClickQuit => Some (if decide (s.(main) = MExec) then with_main MExit s else s)
      | _ => None
      end
  | _ => None
  end.

(** The recording thread opens the stream. *)
Definition open_exec (accepted : bool) (s : sys) : option sys :=
  match s.(recorder), (g_of s).(input_device_index) with
  | ROpening, Some i =>
      Some match open_stream s.(sw).(devices) i (g_of s).(SAMPLE_RATE) accepted with
           | Ok (d, r) =>
               with_recorder (ROpen d r) (on_sys_globals (print recording_line) s)
           | Raise e => with_recorder (RDead e) s
           end
  | _, _ => None
  end.

(** The driver delivers a block. *)
Definition block_exec (indata : block) (status : option str) (s : sys) : option sys :=
  match s.(recorder) with
  | ROpen _ _ =>
      if decide (block_ok indata ∧ length indata = 4000%nat) then
        Some (with_captured (s.(captured) ++ [indata])
                (on_sys_globals (audio_callback indata status) s))
      else None
  | _ => None
  end.

(** The step with action [l] from [s], if there is one. *)
Definition exec (l : action) (s : sys) : option sys :=
  match l with
  | LMain => main_exec s
  | _ =>
      if decide (alive s) then
        match l with
        | LMain => None
        | LWorker => worker_exec s
        | LAnswer resp => answer_exec resp s
        | LTray => tray_exec s
        | LClickDevice _ | LClickPause | LClickQuit => click_exec l s
        | LRecOpen accepted => open_exec accepted s
        | LBlock indata status => block_exec indata status s
        | LReplug ds => Some (with_sw (with_devices ds s.(sw)) s)
        end
      else None
  end.

(** The execution of a list of actions. *)
Fixpoint run (ls : list action) (s : sys) : option sys :=
  match ls with
  | [] => Some s
  | l :: ls' => s' ← exec l s; run ls' s'
  end.

(** ** Invariants *)

(** A device index is set; a sample rate is set. *)
Definition has_device (g : state AQ) : Prop := is_Some g.(input_device_index).
Definition has_rate (g : state AQ) : Prop := is_Some g.(SAMPLE_RATE).

(** What holds when a run of [set_input_device] is at [pc]: the index was
    assigned once line 107 has run, the rate once line 110 has. *)
Definition sel_pc_ok (g : state AQ) (pc : sel_pc) : Prop :=
  match pc with
  | SelAssign => True
  | SelSave | SelQuery | SelRate _ => has_device g
  | SelEvent _ | SelPrint _ => has_device g ∧ has_rate g
  end.

(** The selection: the event is set only with a rate, a rate only with a
    device, and every running handler is where its statements put it. *)
Definition selection_inv (s : sys) : Prop :=
  ((g_of s).(selected_event) = true → has_rate (g_of s)) ∧
  (has_rate (g_of s) → has_device (g_of s)) ∧
  (∀ i pc, s.(main) = MRestore i pc → sel_pc_ok (g_of s) pc) ∧
  (∀ items i pc, s.(tray) = TMenu items (Some (i, pc)) → sel_pc_ok (g_of s) pc).

(** The order in which the main thread starts the others: nothing runs
    before line 273, the recording thread starts last and only with a
    device selected, and audio is captured only through an open stream. *)
Definition startup_ok (s : sys) : Prop :=
  match s.(main) with
  | MLoad | MRestore _ _ | MSpawnWorker =>
      s.(worker) = WNotStarted ∧ s.(tray) = TNotStarted ∧ s.(recorder) = RNotStarted
  | MSpawnTray => s.(tray) = TNotStarted ∧ s.(recorder) = RNotStarted
  | MCheck | MWait => s.(recorder) = RNotStarted
  | MRecord => s.(recorder) = RNotStarted ∧ has_device (g_of s)
  | MExec | MExit => True
  end ∧
  (s.(recorder) ≠ RNotStarted → has_device (g_of s)) ∧
  (s.(worker) = WNotStarted → s.(consumed) = [] ∧ s.(sent) = []) ∧
  (s.(captured) ≠ [] → ∃ d r, s.(recorder) = ROpen d r).


(** Conservation of the audio: the blocks the driver delivered are the
    blocks of the windows completed, then the blocks of the window being
    collected, then the queue, in this order. *)
Definition conserved (s : sys) : Prop :=
  s.(captured) = s.(consumed) ++ in_flight s ++ fifo_items (g_of s).(audio_q).

(** A request made from a window: the file of the window's samples,
    resampled from some rate or as they are. *)
Definition request_of (window : list block) (request : wav) : Prop :=
  ∃ chunk, request = write_wav chunk ∧
    (chunk = concatenate window ∨
     ∃ sr, resample_audio (concatenate window) sr 16000 = Ok chunk).

(** The window the worker has completed and not yet sent. *)
Definition pending_ok (s : sys) : Prop :=
  let done := (20 * length s.(sent))%nat in
  match s.(worker) with
  | WNotStarted | WTop => length s.(consumed) = done
  | WCollect got => length s.(consumed) = done ∧ (length got ≤ 20)%nat
  | WResample audio_chunk =>
      length s.(consumed) = (done + 20)%nat ∧
      audio_chunk = concatenate (drop done s.(consumed))
  | WCall request =>
      length s.(consumed) = (done + 20)%nat ∧ request_of (drop done s.(consumed)) request
  | WDead _ => (done ≤ length s.(consumed))%nat
  end.

(** The requests sent are made from the consecutive windows of 20 blocks
    of the audio, in order. *)
Definition sent_ok (s : sys) : Prop :=
  Forall2 request_of (windows 20 (length s.(sent)) s.(consumed)) s.(sent) ∧ pending_ok s.

(** A start with a saved device: once the main thread is past the
    restoration the sample rate is set, and the worker never meets a
    missing rate. *)
Definition restored_ok (s : sys) : Prop :=
  match s.(main) with
  | MLoad => ∃ i, load_device s.(sw).(config) = Ok (Some i)
  | MRestore _ _ => True
  | MExit => s.(worker) = WNotStarted ∨ has_rate (g_of s)
  | _ => has_rate (g_of s)
  end ∧ s.(worker) ≠ WDead TypeError.

(** The invariants together. *)
Definition inv (s : sys) : Prop :=
  selection_inv s ∧ startup_ok s ∧ conserved s ∧ sent_ok s.

(** The types of the values the threads hold.  A block of the stream is
    4000 samples of type int16 (lines 131-132); the chunk the worker
    converts is a window of 80000 such samples; a request is a mono 16-bit
    16 kHz file of whole samples; and the text of the pause item names what
    the next click does. *)
Definition frame_ok (b : block) : Prop := block_ok b ∧ length b = 4000%nat.

Definition menu_ok (g : state AQ) : Prop :=
  g.(pause_item) = of_string (if g.(paused) then "Resume" else "Pause").

Definition worker_typed (pc : worker_pc) : Prop :=
  match pc with
  | WResample audio_chunk => block_ok audio_chunk ∧ length audio_chunk = (20 * 4000)%nat
  | WCall request => wav_ok request
  | _ => True
  end.

Definition typed (s : sys) : Prop :=
  Forall frame_ok s.(captured) ∧ worker_typed s.(worker) ∧ Forall wav_ok s.(sent) ∧
  menu_ok (g_of s).

(** A start from which no device can be selected: no device was restored,
    the menu was built with no device in it, and the main thread is at the
    test of line 276 or waits on line 278. *)
Definition stuck (s : sys) : Prop :=
  (s.(main) = MCheck ∨ s.(main) = MWait) ∧ s.(tray) = TMenu [] None ∧
  s.(recorder) = RNotStarted ∧
  (g_of s).(input_device_index) = None ∧ (g_of s).(selected_event) = false.

(** The other threads, the files, the devices and the capture are the
    same in two states. *)
Definition same_threads (s s' : sys) : Prop :=
  s'.(main) = s.(main) ∧ s'.(tray) = s.(tray) ∧ s'.(recorder) = s.(recorder) ∧
  s'.(captured) = s.(captured) ∧ s'.(sw).(config) = s.(sw).(config) ∧
  s'.(sw).(devices) = s.(sw).(devices).

(** What an execution of the worker alone has to reach to realise an
    outcome of [transcribe_loop_body] from the state [s]. *)
Definition realises (s : sys) (o : outcome AQ) (s' : sys) : Prop :=
  let window := take 20 (fifo_items (g_of s).(audio_q)) in
  match o with
  | Slept g' => s' = s
  | Blocked =>
      s'.(worker) = WCollect (fifo_items (g_of s).(audio_q)) ∧
      fifo_items (g_of s').(audio_q) = [] ∧ exec LWorker s' = None
  | Dispatched request g' =>
      s'.(worker) = WTop ∧ g_of s' = g' ∧ s'.(sent) = s.(sent) ++ [request] ∧
      s'.(consumed) = s.(consumed) ++ window
  | Died e g' =>
      s'.(worker) = WDead e ∧ g_of s' = g' ∧ s'.(consumed) = s.(consumed) ++ window
  end.

End system.

Arguments sys AQ : clear implicits.

(** Reduction of the projections of an updated state, leaving the handlers
    folded. *)
Ltac sys_simpl :=
  cbn [sw main worker tray recorder captured consumed sent
       with_sw with_main with_worker with_tray with_recorder with_captured with_consumed
       with_sent on_sys_globals g_of main_raise
       globals config devices with_globals with_config with_devices on_globals
       SAMPLE_RATE audio_q input_device_index paused selected_event signal_handler
       pause_item emitted stdout with_audio_q with_paused with_emitted
       with_input_device_index with_SAMPLE_RATE with_selected_event with_signal_handler
       print] in *.

(** ** Example executions *)

(** Two microphones: a headset at 16 kHz and a webcam at 48 kHz. *)
Definition studio : list device_info :=
  [ DeviceInfo (of_string "Headset") 1 0 (16000 # 1) (Ok tt);
    DeviceInfo (of_string "Webcam") 2 0 (48000 # 1) (Ok tt) ].

(** A block of silence. *)
Definition silence : block := replicate 4000 0.

(** The driver delivers 20 blocks and the worker takes each of them. *)
Definition collect20 : list action := concat (replicate 20 [LBlock silence None; LWorker]).

(** A session that starts with device 0 saved: the main thread restores it
    and starts the threads, the stream opens, the worker collects a window
    and sends it, the service answers, and the user then selects device 1. *)
Definition session : list action :=
  replicate 11 LMain ++ [LTray; LRecOpen true; LWorker] ++ collect20 ++
  [LWorker; LAnswer (ApiText (of_string "hello")); LClickDevice 1] ++ replicate 6 LTray.

(** A start with no device saved in which device 1 is clicked as soon as the
    menu exists, and the main thread reaches line 276 after line 107 of the
    handler has run and before line 110 has. *)
Definition early_click : list action :=
  [LMain; LMain; LMain; LTray; LClickDevice 1; LTray; LMain; LMain; LRecOpen true; LWorker] ++
  collect20 ++ [LWorker; LWorker].

(** A session in which the user pauses right after the worker has passed
    the test of line 143: the blocks arrive, the worker completes its
    window and the answer is shown, all while the flag is set. *)
Definition late_pause : list action :=
  replicate 11 LMain ++ [LTray; LRecOpen true; LWorker; LClickPause] ++ collect20 ++
  [LWorker; LAnswer (ApiText (of_string "hello"))].

(** What the user tries after a start with no microphone: Quit, Pause,
    plugging the microphones in, Quit again, while the main thread reaches
    its wait and the worker its first [get]. *)
Definition no_way_out : list action :=
  [LClickQuit; LMain; LClickPause; LWorker; LReplug studio; LClickQuit; LClickPause; LWorker].

(** A start with device 0 saved in which the stream cannot be opened, and
    the user then selects device 1. *)
Definition refused : list action :=
  replicate 11 LMain ++ [LTray; LRecOpen false; LClickDevice 1] ++ replicate 6 LTray.

(** The state an execution of the list implementation leads to. *)
Definition after (ls : list action) (c : config_file) (ds : list device_info)
    : sys (list block) :=
  default (boot c ds) (run ls (boot c ds)).

(** A state in which the worker is at the top of its loop with 20 blocks
    queued at 16 kHz. *)
Definition busy : sys (list block) :=
  {| sw := {| globals := example_state (Some 16000) (replicate 20 [1; -2]);
              config := NoFile; devices := studio |};
     main := MExec; worker := WTop; tray := TMenu [(0, of_string "Headset")] None;
     recorder := ROpen 0 16000; captured := replicate 20 [1; -2]; consumed := []; sent := [] |}.

(** Whether the execution exists. *)
Definition runs (ls : list action) (c : config_file) (ds : list device_info) : bool :=
  match run ls (boot (AQ:=list block) c ds) with Some _ => true | None => false end.

(** ** Theorems *)

Section exec_laws.
Context `{Fifo block AQ} `{Resampler}.
Implicit Types (s : sys AQ) (l : action) (ls : list action).

Lemma main_exec_sound s s' : main_exec s = Some s' → step s LMain s'.
Proof.
  unfold main_exec. intros He. destruct (main s) eqn:Hm; simplify_eq.
  - destruct (load_device _) as [[i|]|e] eqn:Hl; eauto using step.
  - destruct (sel_step _ _ _) as [w' [pc'| |e]] eqn:Hs; eauto using step.
  - eauto using step.
  - eauto using step.
  - destruct (input_device_index _) eqn:Hi; eauto using step.
  - destruct (selected_event _) eqn:Hev; simplify_eq. eauto using step.
  - eauto using step.
Qed.

Lemma worker_exec_sound s s' : alive s → worker_exec s = Some s' → step s LWorker s'.
Proof.
  unfold worker_exec. intros Ha He. destruct (worker s) eqn:Hw; simplify_eq.
  - destruct (paused _) eqn:Hp; eauto using step.
  - destruct (decide (length got < 20)%nat).
    + destruct (fifo_get _) as [[b q']|] eqn:Hg; simplify_eq. eauto using step.
    + destruct (decide (length got = 20%nat)); simplify_eq. eauto using step.
  - destruct (resample_at _ _) eqn:Hr; eauto using step.
Qed.

Lemma answer_exec_sound resp s s' :
  alive s → answer_exec resp s = Some s' → step s (LAnswer resp) s'.
Proof.
  unfold answer_exec. intros Ha He. destruct (worker s) eqn:Hw; simplify_eq.
  destruct (on_response _ _) eqn:Hr; eauto using step.
Qed.

Lemma tray_exec_sound s s' : alive s → tray_exec s = Some s' → step s LTray s'.
Proof.
  unfold tray_exec. intros Ha He. destruct (tray s) as [| |items [[i pc]|]|] eqn:Ht; simplify_eq.
  - destruct (list_devices _) eqn:Hl; eauto using step.
  - destruct (sel_step _ _ _) as [w' [pc'| |e]] eqn:Hs; eauto using step.
Qed.

Lemma click_exec_sound l s s' : alive s → click_exec l s = Some s' → step s l s'.
Proof.
  unfold click_exec. intros Ha He.
  destruct (tray s) as [| |items [[i pc]|]|] eqn:Ht; simplify_eq.
  destruct l; simplify_eq; [|eauto using step..].
  case_decide; simplify_eq. eauto using step.
Qed.

Lemma open_exec_sound accepted s s' :
  alive s → open_exec accepted s = Some s' → step s (LRecOpen accepted) s'.
Proof.
  unfold open_exec. intros Ha He. destruct (recorder s) eqn:Hr; simplify_eq.
  destruct (input_device_index _) as [i|] eqn:Hi; simplify_eq.
  destruct (open_stream _ _ _ _) as [[d r]|e] eqn:Ho; eauto using step.
Qed.

Lemma block_exec_sound indata status s s' :
  alive s → block_exec indata status s = Some s' → step s (LBlock indata status) s'.
Proof.
  unfold block_exec. intros Ha He. destruct (recorder s) eqn:Hr; simplify_eq.
  case_decide as Hb; simplify_eq. destruct Hb. eauto using step.
Qed.

Lemma exec_sound l s s' : exec l s = Some s' → step s l s'.
Proof.
  unfold exec. destruct l; [apply main_exec_sound|case_decide; [|done]..];
    eauto using worker_exec_sound, answer_exec_sound, tray_exec_sound, click_exec_sound,
      open_exec_sound, block_exec_sound.
  intros [= <-]. by constructor.
Qed.

Lemma main_step_alive s s' : step s LMain s' → alive s.
Proof. unfold alive. inversion 1; congruence. Qed.

Lemma exec_complete l s s' : step s l s' → exec l s = Some s'.
Proof.
  destruct 1; unfold exec, main_exec, worker_exec, answer_exec, tray_exec, click_exec,
    open_exec, block_exec;
    try rewrite (decide_True (P:=alive _)) by done;
    repeat match goal with Heq : _ = _ |- _ => rewrite Heq end; simpl;
    rewrite ?decide_True by done; try done.
  all: rewrite ?decide_False by lia; rewrite ?decide_True by done; done.
Qed.

(** A step is the execution of its action. *)
Lemma exec_step l s s' : exec l s = Some s' ↔ step s l s'.
Proof. split; [apply exec_sound|apply exec_complete]. Qed.

Lemma run_steps ls s s' : run ls s = Some s' ↔ steps s ls s'.
Proof.
  revert s. induction ls as [|l ls IH]; intros s; simpl.
  - split; [intros [= <-]; constructor|by inversion 1].
  - split.
    + destruct (exec l s) as [s1|] eqn:He; [|done]. simpl. intros Hr.
      econstructor; [by apply exec_step|by apply IH].
    + inversion 1 as [|? ? s1 ? ? Hs Hss]; subst. apply exec_step in Hs as ->. by apply IH.
Qed.

(** The step for an action is unique. *)
Lemma step_deterministic l s s1 s2 : step s l s1 → step s l s2 → s1 = s2.
Proof. rewrite <- !exec_step. congruence. Qed.

Lemma steps_app ls1 ls2 s s' s'' :
  steps s ls1 s' → steps s' ls2 s'' → steps s (ls1 ++ ls2) s''.
Proof. induction 1; simpl; [done|]. intros. econstructor; eauto. Qed.

Lemma steps_snoc ls l s s' s'' : steps s ls s' → step s' l s'' → steps s (ls ++ [l]) s''.
Proof. intros Hs Hl. eapply steps_app; [done|]. econstructor; [done|constructor]. Qed.

Lemma reachable_boot c ds : reachable (boot (AQ:=AQ) c ds).
Proof. exists c, ds, []. constructor. Qed.

Lemma reachable_step s l s' : reachable s → step s l s' → reachable s'.
Proof. intros (c & ds & ls & Hs) Hl. exists c, ds, (ls ++ [l]). by eapply steps_snoc. Qed.

Lemma reachable_steps s ls s' : reachable s → steps s ls s' → reachable s'.
Proof. intros Hr Hs. induction Hs; eauto using reachable_step. Qed.

(** The induction principle for invariants: a property that every step
    from a reachable state preserves holds along every execution from a
    reachable state that has it. *)
Lemma invariant_steps (P : sys AQ → Prop) :
  (∀ s l s', reachable s → P s → step s l s' → P s') →
  ∀ s ls s', steps s ls s' → reachable s → P s → P s'.
Proof.
  intros Hstep. induction 1 as [|s l s1 ls s2 Hs _ IH]; [done|]. intros Hr HP.
  apply IH; [by eapply reachable_step|by eapply Hstep].
Qed.

Lemma invariant_reachable (P : sys AQ → Prop) :
  (∀ c ds, P (boot c ds)) →
  (∀ s l s', reachable s → P s → step s l s' → P s') →
  ∀ s, reachable s → P s.
Proof.
  intros Hb Hstep s (c & ds & ls & Hs).
  eapply invariant_steps; [done|done|apply reachable_boot|apply Hb].
Qed.

End exec_laws.

Section frames.
Context `{Fifo block AQ} `{Resampler}.
Implicit Types (s : sys AQ) (w : world AQ) (g : state AQ) (l : action).

(** A statement of [set_input_device] touches neither the queue nor the
    pause flag nor what was shown nor the devices. *)
Lemma sel_step_frame i pc w w' nxt :
  sel_step i pc w = (w', nxt) →
  w'.(globals).(audio_q) = w.(globals).(audio_q) ∧
  w'.(globals).(paused) = w.(globals).(paused) ∧
  w'.(globals).(emitted) = w.(globals).(emitted) ∧
  w'.(devices) = w.(devices).
Proof.
  destruct pc; simpl; try (by intros [= <- <-]).
  by destruct (query_devices _ _); intros [= <- <-].
Qed.

Lemma main_handler_frame e g :
  (main_handler e g).(audio_q) = g.(audio_q) ∧ same_selection g (main_handler e g) ∧
  (main_handler e g).(paused) = g.(paused) ∧ (main_handler e g).(emitted) = g.(emitted).
Proof. unfold main_handler. by destruct e. Qed.

Lemma main_handler_audio_q e g : (main_handler e g).(audio_q) = g.(audio_q).
Proof. apply main_handler_frame. Qed.

Lemma main_handler_selection e g : same_selection g (main_handler e g).
Proof. apply main_handler_frame. Qed.

(** Handling an answer leaves the queue alone. *)
Lemma on_response_audio_q resp g g' : on_response resp g = Ok g' → g'.(audio_q) = g.(audio_q).
Proof.
  unfold on_response, try_except. destruct resp as [t|e msg]; simpl.
  - destruct (is_shown _); intros [= <-]; by rewrite update_text_audio_q.
  - destruct (is_Exception e); intros [= <-]. by rewrite update_text_audio_q.
Qed.

(** The two statements of lines 150-151, run with no assignment of the
    rate in between, are [convert]. *)
Lemma convert_split sample_rate audio_chunk :
  convert sample_rate audio_chunk =
    if rate_differs sample_rate then resample_at sample_rate audio_chunk else Ok audio_chunk.
Proof.
  unfold convert, rate_differs, resample_at. destruct sample_rate as [sr|]; [|done].
  destruct (decide (sr ≠ 16000)).
  - by rewrite bool_decide_true by congruence.
  - by rewrite bool_decide_false by naive_solver.
Qed.

End frames.

Section selection_laws.
Context `{Fifo block AQ} `{Resampler}.
Implicit Types (s : sys AQ) (w : world AQ) (g : state AQ) (l : action) (pc : sel_pc).

Lemma same_selection_has g g' :
  same_selection g g' →
  (has_device g' ↔ has_device g) ∧ (has_rate g' ↔ has_rate g) ∧
  g'.(selected_event) = g.(selected_event).
Proof. unfold has_device, has_rate. by intros (-> & -> & -> & _). Qed.

Lemma sel_pc_ok_mono g g' pc :
  (has_device g → has_device g') → (has_rate g → has_rate g') →
  sel_pc_ok g pc → sel_pc_ok g' pc.
Proof. destruct pc; simpl; tauto. Qed.

(** One statement of the handler keeps what is set, sets the event only
    with the rate in place, and arrives where [sel_pc_ok] says. *)
Lemma sel_step_selection i pc w w' nxt :
  sel_step i pc w = (w', nxt) → sel_pc_ok w.(globals) pc →
  (has_device w.(globals) → has_device w'.(globals)) ∧
  (has_rate w.(globals) → has_rate w'.(globals)) ∧
  (w'.(globals).(selected_event) = true →
     w.(globals).(selected_event) = true ∨ has_rate w'.(globals)) ∧
  (has_rate w'.(globals) → has_rate w.(globals) ∨ has_device w'.(globals)) ∧
  match nxt with SelNext pc' => sel_pc_ok w'.(globals) pc' | _ => True end.
Proof.
  destruct pc; simpl; try destruct (query_devices _ _); intros [= <- <-];
    unfold sel_pc_ok, has_device, has_rate; simpl; intuition eauto.
Qed.

Lemma sel_step_mono i pc w w' nxt :
  sel_step i pc w = (w', nxt) →
  (has_device w.(globals) → has_device w'.(globals)) ∧
  (has_rate w.(globals) → has_rate w'.(globals)).
Proof.
  destruct pc; simpl; try destruct (query_devices _ _); intros [= <- <-];
    unfold has_device, has_rate; simpl; intuition eauto.
Qed.

(** The handler ends after line 112 only, with the rate set. *)
Lemma sel_step_done i pc w w' :
  sel_step i pc w = (w', SelDone) → sel_pc_ok w.(globals) pc → has_rate w'.(globals).
Proof.
  destruct pc; simpl; try destruct (query_devices _ _); intros [= <-]. by intros [_ ?].
Qed.

Lemma on_response_selection resp g g' : on_response resp g = Ok g' → same_selection g g'.
Proof.
  unfold on_response, try_except. destruct resp as [t|e msg]; simpl.
  - destruct (is_shown _); intros [= <-];
      [apply (update_text_selection _ (print _ g))|apply update_text_selection].
  - destruct (is_Exception e); intros [= <-]. apply (update_text_selection _ (print _ g)).
Qed.

(** A step that leaves the selection alone and starts no handler beyond
    its first statement keeps the invariant. *)
Lemma selection_inv_same s s' :
  selection_inv s → same_selection (g_of s) (g_of s') →
  (∀ i pc, s'.(main) = MRestore i pc → s.(main) = MRestore i pc ∨ pc = SelAssign) →
  (∀ items i pc, s'.(tray) = TMenu items (Some (i, pc)) →
     s.(tray) = TMenu items (Some (i, pc)) ∨ pc = SelAssign) →
  selection_inv s'.
Proof.
  intros (Hev & Hrd & Hm & Ht) (Hd & Hr & He)%same_selection_has Hm' Ht'.
  unfold selection_inv. rewrite He, Hd, Hr. split_and!; [done..| |].
  - intros i pc [?| ->]%Hm'; [|done].
    apply (sel_pc_ok_mono (g_of s)); [tauto|tauto|eauto].
  - intros items i pc [?| ->]%Ht'; [|done].
    apply (sel_pc_ok_mono (g_of s)); [tauto|tauto|eauto].
Qed.

(** A statement of a handler keeps the invariant, the handler moving to
    the next statement or ending. *)
Lemma selection_inv_sel s i pc w' nxt s' :
  selection_inv s → sel_step i pc s.(sw) = (w', nxt) → sel_pc_ok (g_of s) pc →
  same_selection w'.(globals) (g_of s') →
  (∀ j pc', s'.(main) = MRestore j pc' → s.(main) = MRestore j pc' ∨ nxt = SelNext pc') →
  (∀ items j pc', s'.(tray) = TMenu items (Some (j, pc')) →
     s.(tray) = TMenu items (Some (j, pc')) ∨ nxt = SelNext pc') →
  selection_inv s'.
Proof.
  intros (Hev & Hrd & Hm & Ht) Hsel Hpc (Hd & Hr & He)%same_selection_has Hm' Ht'.
  destruct (sel_step_selection _ _ _ _ _ Hsel Hpc) as (Hd' & Hr' & He' & Hrd' & Hnxt).
  unfold selection_inv. rewrite He, Hd, Hr. split_and!.
  - intros [?|?]%He'; auto.
  - intros [?|?]%Hrd'; auto.
  - intros j pc' [?| ->]%Hm'.
    + apply (sel_pc_ok_mono (g_of s)); [unfold g_of in *; tauto..|eauto].
    + apply (sel_pc_ok_mono w'.(globals)); [tauto|tauto|done].
  - intros items j pc' [?| ->]%Ht'.
    + apply (sel_pc_ok_mono (g_of s)); [unfold g_of in *; tauto..|eauto].
    + apply (sel_pc_ok_mono w'.(globals)); [tauto|tauto|done].
Qed.

Lemma selection_inv_boot c ds : selection_inv (boot (AQ:=AQ) c ds).
Proof. unfold selection_inv, has_rate. simpl. split_and!; [done|by intros []|done..]. Qed.

Lemma selection_inv_step s l s' : selection_inv s → step s l s' → selection_inv s'.
Proof.
  intros Hi Hs. pose proof Hi as (_ & _ & Hm & Ht).
  destruct Hs;
    try match goal with
    | Hsel : sel_step _ _ _ = _ |- _ =>
        eapply (selection_inv_sel _ _ _ _ _ _ Hi Hsel); [by eauto|..]
    | _ => try case_decide; eapply (selection_inv_same _ _ Hi)
    end; unfold g_of in *; sys_simpl; try done;
    eauto using toggle_pause_selection, on_response_selection;
    eauto using main_handler_selection; try apply audio_callback_frame;
    try (intros; simplify_eq; auto).
Qed.

End selection_laws.

Section startup_laws.
Context `{Fifo block AQ} `{Resampler}.
Implicit Types (s : sys AQ) (w : world AQ) (g : state AQ) (l : action).

(** No step unsets the device or the rate. *)
Lemma step_mono s l s' :
  step s l s' →
  (has_device (g_of s) → has_device (g_of s')) ∧ (has_rate (g_of s) → has_rate (g_of s')).
Proof.
  assert (∀ g g', same_selection g g' →
            (has_device g → has_device g') ∧ (has_rate g → has_rate g')) as Hsame.
  { intros g g' (Hd & Hr & _)%same_selection_has. tauto. }
  destruct 1; try case_decide; unfold g_of in *; sys_simpl; try done;
    lazymatch goal with
    | Hsel : sel_step _ _ ?w = (?w', _) |- _ =>
        apply sel_step_mono in Hsel as [? ?];
        try pose proof (Hsame _ _ (main_handler_selection e w'.(globals))); tauto
    | _ =>
        apply Hsame;
        eauto using toggle_pause_selection, on_response_selection, main_handler_selection;
        apply audio_callback_frame
    end.
Qed.

Lemma startup_ok_boot c ds : startup_ok (boot (AQ:=AQ) c ds).
Proof. unfold startup_ok. simpl. by split_and!. Qed.

Lemma startup_ok_step s l s' : selection_inv s → startup_ok s → step s l s' → startup_ok s'.
Proof.
  intros (Hev & Hrd & _) (Hm & Hr & Hw & Hc) Hs. pose proof (step_mono _ _ _ Hs) as [Hd _].
  unfold startup_ok, has_device, has_rate in *.
  destruct Hs; try case_decide; unfold g_of in *; sys_simpl;
    try destruct (rate_differs _);
    destruct (main s) eqn:Hmain; simplify_eq; try (intuition (eauto; congruence)).
  all: split_and!; first [intuition congruence|intros [d [r ?]]%Hc; destruct_and?; congruence].
Qed.

End startup_laws.

Section conservation.
Context `{Fifo block AQ} `{Resampler}.
Implicit Types (s : sys AQ) (l : action).

Lemma conserved_boot c ds : conserved (boot (AQ:=AQ) c ds).
Proof. unfold conserved. simpl. by rewrite fifo_new_items. Qed.

Lemma conserved_step s l s' : startup_ok s → conserved s → step s l s' → conserved s'.
Proof.
  unfold conserved, in_flight. intros (Hm & _) Hc Hs.
  destruct Hs; try case_decide; try destruct (rate_differs _); unfold g_of in *; sys_simpl;
    repeat match goal with
    | Hsel : sel_step _ _ _ = _ |- _ => apply sel_step_frame in Hsel as (Hsel & _)
    | Hw : worker _ = _ |- _ => rewrite Hw in *
    | Hg : fifo_get _ = Some _ |- _ => apply fifo_get_Some in Hg; rewrite Hg in *
    | Hr : on_response _ _ = Ok _ |- _ => apply on_response_audio_q in Hr as ->
    | Hmain : main _ = _ |- _ => rewrite Hmain in Hm; destruct Hm as (Hw & _)
    end;
    rewrite ?toggle_pause_audio_q, ?audio_callback_items, ?main_handler_audio_q;
    try done; try congruence.
  all: by rewrite Hc, <- ?app_assoc.
Qed.

End conservation.

Section requests.
Context `{Fifo block AQ} `{Resampler}.
Implicit Types (s : sys AQ) (l : action).

Lemma sent_ok_boot c ds : sent_ok (boot (AQ:=AQ) c ds).
Proof. split; [constructor|done]. Qed.

(** A step of another thread. *)
Lemma sent_ok_frame s s' :
  s'.(worker) = s.(worker) → s'.(consumed) = s.(consumed) → s'.(sent) = s.(sent) →
  sent_ok s → sent_ok s'.
Proof. unfold sent_ok, pending_ok. by intros -> -> ->. Qed.

(** The worker moves on with the audio and the requests as they are. *)
Lemma sent_ok_worker s pc :
  sent_ok s →
  pending_ok (with_worker pc s) → sent_ok (with_worker pc s).
Proof. by intros [Hf _] Hp. Qed.

(** A completed window joins the audio consumed. *)
Lemma sent_ok_window s got pc :
  s.(worker) = WCollect got → length got = 20%nat → sent_ok s →
  let s' := with_worker pc (with_consumed (s.(consumed) ++ got) s) in
  Forall2 request_of (windows 20 (length s'.(sent)) s'.(consumed)) s'.(sent) ∧
  length s'.(consumed) = (20 * length s'.(sent) + 20)%nat ∧
  drop (20 * length s'.(sent)) s'.(consumed) = got.
Proof.
  unfold sent_ok, pending_ok. intros -> Hl [Hf [Hc _]]. sys_simpl.
  rewrite windows_app_l, length_app, <- Hc, drop_app_length by lia. split_and!; [done|lia|done].
Qed.

(** The request of the pending window is sent. *)
Lemma sent_ok_answer s request pc :
  s.(worker) = WCall request → sent_ok s →
  let s' := with_worker pc (with_sent (s.(sent) ++ [request]) s) in
  Forall2 request_of (windows 20 (length s'.(sent)) s'.(consumed)) s'.(sent) ∧
  length s'.(consumed) = (20 * length s'.(sent))%nat.
Proof.
  unfold sent_ok, pending_ok. intros -> [Hf [Hc Hr]]. sys_simpl.
  rewrite length_app, Nat.add_1_r, windows_snoc. split; [|lia].
  apply Forall2_app; [done|]. constructor; [|done].
  rewrite take_ge; [done|]. rewrite length_drop. lia.
Qed.

Lemma resample_at_request sample_rate window c :
  resample_at sample_rate (concatenate window) = Ok c → request_of window (write_wav c).
Proof.
  destruct sample_rate as [sr|]; [|done]. intros Hr. exists c. split; [done|]. right. eauto.
Qed.

(** The worker's own steps, by the statement it is at. *)
Lemma pending_ok_collect s got b :
  s.(worker) = WCollect got → (length got < 20)%nat → pending_ok s →
  pending_ok (with_worker (WCollect (got ++ [b])) s).
Proof. unfold pending_ok. intros -> Hl [Hc _]. sys_simpl. rewrite length_app. simpl. lia. Qed.

Lemma pending_ok_resample s audio_chunk c :
  s.(worker) = WResample audio_chunk →
  resample_at (g_of s).(SAMPLE_RATE) audio_chunk = Ok c → pending_ok s →
  pending_ok (with_worker (WCall (write_wav c)) s).
Proof.
  unfold pending_ok. intros -> Hr [Hc ->]. sys_simpl. split; [done|].
  by eapply resample_at_request.
Qed.

Lemma sent_ok_step s l s' : startup_ok s → sent_ok s → step s l s' → sent_ok s'.
Proof.
  intros (Hm & _) Hok Hs. pose proof Hok as [Hf Hp].
  destruct Hs; try case_decide; try (by apply (sent_ok_frame s));
    repeat match goal with
    | Hmain : main _ = _ |- _ => rewrite Hmain in Hm; destruct Hm as (Hw & _)
    end.
  - split; [done|]. unfold pending_ok in *. by rewrite Hw in Hp.
  - split; [done|]. unfold pending_ok in *. destruct (worker s); try done. sys_simpl.
    simpl length. lia.
  - apply (sent_ok_frame (with_worker (WCollect (got ++ [b])) s)); [done..|].
    split; [done|]. by apply pending_ok_collect.
  - edestruct (sent_ok_window s got (WCall (write_wav (concatenate got)))) as (Hf' & Hl & Hd);
      [done..|].
    split; [by destruct (rate_differs _)|]. unfold pending_ok.
    destruct (rate_differs _); sys_simpl; rewrite Hd; split; try done.
    exists (concatenate got). auto.
  - split; [done|]. by eapply pending_ok_resample.
  - split; [done|]. unfold pending_ok in *. destruct (worker s); try done. sys_simpl. lia.
  - apply (sent_ok_frame (with_worker WTop (with_sent (s.(sent) ++ [request]) s))); [done..|].
    edestruct (sent_ok_answer s request WTop) as (Hf' & Hl); [done..|]. by split.
  - edestruct (sent_ok_answer s request (WDead e)) as (Hf' & Hl); [done..|]. split; [done|].
    unfold pending_ok. sys_simpl. lia.
Qed.

End requests.

Section invariants.
Context `{Fifo block AQ} `{Resampler}.
Implicit Types (s : sys AQ) (l : action).

Lemma inv_boot c ds : inv (boot (AQ:=AQ) c ds).
Proof.
  split_and!; [apply selection_inv_boot|apply startup_ok_boot|apply conserved_boot|
               apply sent_ok_boot].
Qed.

Lemma inv_step s l s' : inv s → step s l s' → inv s'.
Proof.
  intros (Hsel & Hst & Hc & Hsent) Hs.
  split_and!; eauto using selection_inv_step, startup_ok_step, conserved_step, sent_ok_step.
Qed.

(** Every reachable state satisfies the invariants. *)
Lemma inv_reachable s : reachable s → inv s.
Proof. apply invariant_reachable; [apply inv_boot|eauto using inv_step]. Qed.

(** Claim C2.  In every reachable state the blocks the driver delivered
    are, in order, the blocks of the windows the worker completed, the
    blocks of the window it is collecting, and the blocks still queued: no
    block is lost, duplicated or reordered, whatever the interleaving. *)
Theorem audio_conserved s :
  reachable s →
  s.(captured) = s.(consumed) ++ in_flight s ++ fifo_items (g_of s).(audio_q).
Proof. by intros (_ & _ & Hc & _)%inv_reachable. Qed.

(** Claim C3.  In every reachable state the requests sent so far are made
    from the consecutive windows of 20 blocks of the captured audio, the
    i-th request from the i-th window, each window as it is or resampled. *)
Theorem requests_follow_windows s :
  reachable s →
  Forall2 request_of (windows 20 (length s.(sent)) s.(captured)) s.(sent) ∧
  (20 * length s.(sent) ≤ length s.(captured))%nat.
Proof.
  intros (_ & _ & Hc & Hf & Hp)%inv_reachable. unfold conserved in Hc. rewrite Hc.
  assert (20 * length s.(sent) ≤ length s.(consumed))%nat as Hl.
  { unfold pending_ok in Hp. destruct (worker s); lia. }
  rewrite windows_app_l, length_app by done. split; [done|lia].
Qed.

(** Claim C13.  In every reachable state the event that wakes the main
    thread is set only with a sample rate set, a sample rate only with a
    device index, and every handler of a device click has assigned what
    the statements before its program point assign. *)
Theorem selection_invariant s : reachable s → selection_inv s.
Proof. by intros (Hsel & _)%inv_reachable. Qed.

(** Claim C17.  The threads start in the order of lines 273-281: worker and
    tray run only after the saved device was restored, the recording
    thread starts last and only with a device index set, and audio is
    captured only through an open stream. *)
Theorem startup_order s : reachable s → startup_ok s.
Proof. by intros (_ & Hst & _)%inv_reachable. Qed.

End invariants.

Section typing.
Context `{Fifo block AQ} `{Resampler}.
Implicit Types (s : sys AQ) (w : world AQ) (g : state AQ) (l : action).

(** What leaves the pause flag and the pause item alone. *)
Lemma on_response_menu resp g g' :
  on_response resp g = Ok g' → g'.(paused) = g.(paused) ∧ g'.(pause_item) = g.(pause_item).
Proof.
  unfold on_response, try_except. destruct resp as [t|e msg].
  - intros [= <-]. destruct (is_shown _); by rewrite update_text_paused, update_text_pause_item.
  - destruct (is_Exception e); [|done]. intros [= <-].
    by rewrite update_text_paused, update_text_pause_item.
Qed.

Lemma sel_step_menu i pc w w' nxt :
  sel_step i pc w = (w', nxt) →
  w'.(globals).(paused) = w.(globals).(paused) ∧
  w'.(globals).(pause_item) = w.(globals).(pause_item).
Proof.
  destruct pc; simpl; try (by intros [= <- <-]).
  by destruct (query_devices _ _); intros [= <- <-].
Qed.

Lemma main_handler_menu e g :
  (main_handler e g).(paused) = g.(paused) ∧ (main_handler e g).(pause_item) = g.(pause_item).
Proof. unfold main_handler. by destruct e. Qed.

Lemma audio_callback_menu b st g :
  (audio_callback b st g).(paused) = g.(paused) ∧
  (audio_callback b st g).(pause_item) = g.(pause_item).
Proof. unfold audio_callback. by destruct st. Qed.

Lemma toggle_pause_menu g : menu_ok (toggle_pause g).
Proof. unfold menu_ok. rewrite toggle_pause_item, toggle_pause_paused. by destruct (paused g). Qed.

Lemma menu_ok_step s l s' : menu_ok (g_of s) → step s l s' → menu_ok (g_of s').
Proof.
  unfold menu_ok. intros Hm.
  destruct 1; try case_decide; unfold g_of in *; sys_simpl; try done;
    lazymatch goal with
    | Hsel : sel_step _ _ _ = _ |- _ =>
        apply sel_step_menu in Hsel as [Hp Hi];
        rewrite ?(proj1 (main_handler_menu _ _)), ?(proj2 (main_handler_menu _ _));
        by rewrite Hp, Hi
    | Hr : on_response _ _ = Ok _ |- _ => apply on_response_menu in Hr as [-> ->]; done
    | |- context [toggle_pause] => apply toggle_pause_menu
    | |- context [main_handler ?e ?g] => by destruct (main_handler_menu e g) as [-> ->]
    | |- context [audio_callback ?b ?st ?g] =>
        by destruct (audio_callback_menu b st g) as [-> ->]
    end.
Qed.

(** The window the worker has collected is made of blocks of the stream. *)
Lemma window_typed s got :
  conserved s → Forall frame_ok s.(captured) → s.(worker) = WCollect got →
  length got = 20%nat →
  block_ok (concatenate got) ∧ length (concatenate got) = (20 * 4000)%nat.
Proof.
  unfold conserved, in_flight. intros Hc Hcap Hw Hl. rewrite Hc, Hw in Hcap.
  apply Forall_app in Hcap as [_ [Hg _]%Forall_app]. split.
  - apply concatenate_ok. by eapply Forall_impl; [|apply Hg]; intros b [? _].
  - rewrite (concatenate_length got 4000), Hl; [done|].
    by eapply Forall_impl; [|apply Hg]; intros b [_ ?].
Qed.

Lemma typed_boot c ds : typed (boot (AQ:=AQ) c ds).
Proof. by split_and!. Qed.

Lemma typed_step s l s' : inv s → typed s → step s l s' → typed s'.
Proof.
  intros (_ & _ & Hc & _) (Hcap & Hw & Hsent & Hmenu) Hs.
  split_and!; [| | |by eapply menu_ok_step];
    destruct Hs; try case_decide; sys_simpl; try done;
    repeat match goal with
    | Hpc : worker _ = _ |- _ => rewrite Hpc in Hw
    | |- Forall _ (_ ++ [_]) => apply Forall_app; split; [done|by apply Forall_singleton]
    end; try done.
  - destruct (rate_differs _); cbn [worker_typed]; [by eapply window_typed|apply write_wav_ok].
  - apply write_wav_ok.
Qed.

Lemma typed_reachable s : reachable s → typed s.
Proof.
  apply invariant_reachable; [apply typed_boot|].
  intros s0 l s' Hr%inv_reachable. by apply typed_step.
Qed.

(** Claim C14.  In every reachable state the values have their types: every
    block captured, queued, being collected or consumed is 4000 int16
    samples; the chunk the worker converts is 80000 int16 samples; the
    request it is about to send and every request sent is a mono 16-bit
    16 kHz file of whole samples; and the pause item reads Resume exactly
    when the flag is set. *)
Theorem well_typed s :
  reachable s →
  Forall frame_ok (s.(consumed) ++ in_flight s ++ fifo_items (g_of s).(audio_q)) ∧
  worker_typed s.(worker) ∧ Forall wav_ok s.(sent) ∧ menu_ok (g_of s).
Proof.
  intros Hr. pose proof (inv_reachable s Hr) as (_ & _ & Hc & _).
  destruct (typed_reachable s Hr) as (Hcap & Hrest). by rewrite <- Hc.
Qed.

End typing.

Section waiting.
Context `{Fifo block AQ} `{Resampler}.
Implicit Types (s : sys AQ) (w : world AQ) (g : state AQ) (l : action).

Lemma stuck_same s s' :
  stuck s → same_selection (g_of s) (g_of s') →
  s'.(main) = s.(main) ∨ s'.(main) = MWait → s'.(tray) = s.(tray) →
  s'.(recorder) = s.(recorder) → stuck s'.
Proof.
  unfold stuck. intros (Hm & Ht & Hr & Hi & He) (_ & -> & -> & _) Hm' -> ->.
  split_and!; [|done..]. destruct Hm' as [->| ->]; [done|by right].
Qed.

Lemma stuck_step s l s' : stuck s → step s l s' → stuck s'.
Proof.
  intros Hs. pose proof Hs as (Hm & Ht & Hr & Hi & He).
  destruct 1; try case_decide; unfold g_of in *;
    try (destruct Hm; congruence); try congruence;
    try (apply (stuck_same s); sys_simpl; auto;
         eauto using toggle_pause_selection, on_response_selection; done).
  match goal with
  | Hin : _ ∈ _.*1 |- _ => rewrite Ht in *; simplify_eq; by apply elem_of_nil in Hin
  end.
Qed.

(** Claim C20.  With no device restored and no device in the menu the
    program neither proceeds nor ends: whatever the user clicks, whatever
    is plugged in afterwards and whatever the worker does, the main thread
    stays at the wait of lines 276-278, the recording never starts, the
    menu stays empty, and Quit, which acts on an event loop that is not
    running, changes nothing. *)
Theorem no_device_no_exit s ls s' :
  stuck s → steps s ls s' →
  (s'.(main) = MCheck ∨ s'.(main) = MWait) ∧ s'.(tray) = TMenu [] None ∧
  s'.(recorder) = RNotStarted ∧ (g_of s').(input_device_index) = None.
Proof.
  intros Hs Hst. assert (stuck s') as (Hm & Ht & Hr & Hi & _); [|done].
  induction Hst; eauto using stuck_step.
Qed.

End waiting.

Section handler_refinement.
Context `{Fifo block AQ} `{Resampler}.
Implicit Types (s : sys AQ) (w : world AQ).

(** Claim C25.  A click on a device of the menu, followed by steps of the
    tray thread alone, is [set_input_device]: six statements when the
    query succeeds, three when it raises; the state reached is the state
    the handler returns, and the tray is back at its menu. *)
Theorem click_refines_handler s items i r w' :
  alive s → s.(tray) = TMenu items None → i ∈ items.*1 →
  set_input_device i s.(sw) = (r, w') →
  steps s (LClickDevice i :: replicate (if is_Ok r then 6 else 3) LTray)
    (with_tray (TMenu items None) (with_sw w' s)).
Proof.
  intros Ha Ht Hi. rewrite set_input_device_run.
  destruct (query_devices _ _) as [d|e] eqn:Hq; intros [= <- <-]; simpl;
    (econstructor; [by apply step_click_device|]).
  - do 2 (econstructor; [by eapply step_select|]; sys_simpl).
    econstructor; [eapply step_select; [done..|simpl; by rewrite Hq]|]. sys_simpl.
    do 2 (econstructor; [by eapply step_select|]; sys_simpl).
    econstructor; [by eapply step_select_done|]. constructor.
  - do 2 (econstructor; [by eapply step_select|]; sys_simpl).
    econstructor; [eapply step_select_raise; [done..|simpl; by rewrite Hq]|]. constructor.
Qed.

End handler_refinement.

Section stream_laws.
Context `{Fifo block AQ} `{Resampler}.
Implicit Types (s : sys AQ) (l : action) (ls : list action).

Lemma step_stream_open s l s' d r :
  startup_ok s → step s l s' → s.(recorder) = ROpen d r → s'.(recorder) = ROpen d r.
Proof.
  intros (Hm & _). destruct 1; try case_decide; sys_simpl; try congruence.
  destruct (main s); simplify_eq. destruct Hm. congruence.
Qed.

Lemma step_stream_dead s l s' e :
  startup_ok s → step s l s' → s.(recorder) = RDead e →
  s'.(recorder) = RDead e ∧ s'.(captured) = s.(captured).
Proof.
  intros (Hm & _). destruct 1; try case_decide; sys_simpl; try done; try congruence.
  destruct (main s); simplify_eq. destruct Hm. congruence.
Qed.

(** Claim C29.  The stream is opened once: whatever device is selected
    afterwards, in every later state the stream is the one opened first, on
    the same device and at the same rate. *)
Theorem stream_keeps_first_device s ls s' d r :
  reachable s → steps s ls s' → s.(recorder) = ROpen d r → s'.(recorder) = ROpen d r.
Proof.
  intros Hr Hs. revert Hr. induction Hs as [|s l s1 ls s2 Hl _ IH]; [done|]. intros Hr Ho.
  apply IH; [by eapply reachable_step|].
  apply inv_reachable in Hr as (_ & Hst & _). by eapply step_stream_open.
Qed.

(** Claim C30.  A stream that cannot be opened ends the recording thread
    for good: nothing is shown in the overlay, and in every later state the
    thread is dead and no block has been captured since, whatever device is
    selected afterwards. *)
Theorem failed_open_is_final s accepted s1 e ls s2 :
  reachable s → step s (LRecOpen accepted) s1 → s1.(recorder) = RDead e → steps s1 ls s2 →
  (g_of s1).(emitted) = (g_of s).(emitted) ∧
  s2.(recorder) = RDead e ∧ s2.(captured) = s1.(captured).
Proof.
  intros Hr Ho Hd Hs. split.
  - inversion Ho; subst; sys_simpl; [done..].
  - assert (reachable s1) as Hr1 by (by eapply reachable_step). clear Ho Hr.
    induction Hs as [|s1 l s1' ls s2 Hl _ IH]; [done|].
    apply inv_reachable in Hr1 as Hinv. destruct Hinv as (_ & Hst & _).
    destruct (step_stream_dead _ _ _ _ Hst Hl Hd) as [Hd' Hc]. rewrite <- Hc.
    apply IH; [done|by eapply reachable_step].
Qed.

End stream_laws.

Section restored.
Context `{Fifo block AQ} `{Resampler}.
Implicit Types (s : sys AQ) (l : action) (ls : list action).

(** With a rate set the call of line 151 raises no [TypeError]. *)
Lemma resample_at_raises sample_rate audio_chunk e :
  resample_at sample_rate audio_chunk = Raise e → is_Some sample_rate → e ≠ TypeError.
Proof.
  intros Hr [sr ->]. simpl in Hr. unfold resample_audio, num_samples in Hr.
  case_decide; simpl in Hr; [by simplify_eq|]. case_decide; by simplify_eq.
Qed.

(** An exception that leaves the [try] statement is no [Exception]. *)
Lemma on_response_Raise resp (g : state AQ) e :
  on_response resp g = Raise e → is_Exception e = false.
Proof.
  unfold on_response, try_except. destruct resp as [t|e' msg]; simpl; [done|].
  destruct (is_Exception e') eqn:He; [done|]. by intros [= <-].
Qed.

Lemma restored_ok_boot c ds i :
  load_device c = Ok (Some i) → restored_ok (boot (AQ:=AQ) c ds).
Proof. intros Hl. split; [by exists i|done]. Qed.

Lemma restored_ok_step s l s' :
  selection_inv s → startup_ok s → restored_ok s → step s l s' → restored_ok s'.
Proof.
  intros (_ & _ & Hm & _) (Hst & _) (Hr & Hw) Hs. pose proof (step_mono _ _ _ Hs) as [_ Hrate].
  unfold restored_ok, has_rate in *.
  destruct Hs; try case_decide; try destruct (rate_differs _); unfold g_of in *; sys_simpl;
    repeat match goal with
    | Hmain : main _ = _ |- _ => rewrite Hmain in *
    | Hwk : worker _ = _ |- _ => rewrite Hwk in *
    | Ha : alive ?s |- _ => unfold alive in Ha; destruct (main s) eqn:?
    | Hsel : sel_step _ _ _ = (_, SelDone) |- _ => eapply sel_step_done in Hsel; [|by eauto]
    end; destruct_and?; try destruct Hr as [? Hr]; simplify_eq; try congruence;
    try (split; [by eauto|done]); try (split; [by eauto|by auto]).
  all: split; [by eauto|]; intros [= ->];
    match goal with
    | Hx : resample_at _ _ = Raise _ |- _ => by eapply resample_at_raises in Hx
    | Hx : on_response _ _ = Raise _ |- _ => by apply on_response_Raise in Hx
    end.
Qed.

Lemma restored_ok_steps c ds ls s i :
  load_device c = Ok (Some i) → steps (boot c ds) ls s → restored_ok s.
Proof.
  intros Hl Hs.
  eapply (invariant_steps restored_ok); [|done|apply reachable_boot|by eapply restored_ok_boot].
  intros s1 l s2 (Hsel & Hst & _)%inv_reachable. by apply restored_ok_step.
Qed.

(** Claim C18.  When a saved device is restored at start, the sample rate
    is set before the worker starts and stays set, and the worker never
    dies of a missing rate, whatever the interleaving. *)
Theorem restored_start_has_rate c ds ls s i :
  load_device c = Ok (Some i) → steps (boot c ds) ls s →
  (s.(worker) ≠ WNotStarted → has_rate (g_of s)) ∧ s.(worker) ≠ WDead TypeError.
Proof.
  intros Hl Hs. destruct (restored_ok_steps _ _ _ _ _ Hl Hs) as [Hr Hw]. split; [|done].
  assert (reachable s) as (_ & (Hm & _) & _)%inv_reachable by (by exists c, ds, ls).
  intros Hn. destruct (main s); naive_solver.
Qed.

End restored.

(** ** Executions of the list implementation *)

Lemma after_reachable ls c ds : runs ls c ds = true → reachable (after ls c ds).
Proof.
  unfold runs, after. destruct (run ls (boot c ds)) as [s|] eqn:Hr; [|done]. intros _.
  exists c, ds, ls. by apply run_steps.
Qed.

Lemma after_steps ls c ds : runs ls c ds = true → steps (boot c ds) ls (after ls c ds).
Proof.
  unfold runs, after. destruct (run ls (boot c ds)) as [s|] eqn:Hr; [|done]. intros _.
  by apply run_steps.
Qed.

Lemma run_app `{Fifo block AQ} `{Resampler} ls1 ls2 (s : sys AQ) :
  run (ls1 ++ ls2) s = run ls1 s ≫= run ls2.
Proof.
  revert s. induction ls1 as [|l ls1 IH]; intros s; simpl; [done|].
  destruct (exec l s); simpl; [apply IH|done].
Qed.

(** An execution cut in two. *)
Lemma after_drop n ls c ds :
  runs ls c ds = true → steps (after (take n ls) c ds) (drop n ls) (after ls c ds).
Proof.
  unfold runs, after. rewrite <- (take_drop n ls) at 1 4. rewrite run_app.
  destruct (run (take n ls) (boot c ds)) as [s1|]; [|done]. simpl.
  destruct (run (drop n ls) s1) as [s2|] eqn:Hr; [|done]. intros _. by apply run_steps.
Qed.

(** The step at position [n] of an execution. *)
Lemma after_step n ls c ds l :
  runs ls c ds = true → ls !! n = Some l →
  step (after (take n ls) c ds) l (after (take (S n) ls) c ds).
Proof.
  intros Hr Hl. rewrite (take_S_r ls n l Hl).
  assert (runs (take n ls ++ [l]) c ds = true) as Hr'.
  { revert Hr. unfold runs. rewrite <- (take_drop (S n) ls) at 1.
    rewrite (take_S_r ls n l Hl), run_app. by destruct (run (take n ls ++ [l]) _). }
  pose proof (after_drop n _ c ds Hr') as Hs.
  rewrite take_app_length', drop_app_length' in Hs by (rewrite length_take; apply lookup_lt_Some in Hl; lia).
  inversion Hs as [|? ? ? ? ? Hstep Hnil]; subst. by inversion Hnil; subst.
Qed.

(** Claim C12.  The test of line 276 races with a device click: when the
    main thread reads the index after line 107 of the handler and before
    line 110, it starts the recording with no sample rate set; the stream
    opens at the device's default rate, and the worker, after collecting
    its first window, divides by [None] and dies with a [TypeError], the
    window consumed and nothing sent. *)
Theorem startup_race :
  let s := after early_click (ConfigFile None) studio in
  reachable s ∧ s.(worker) = WDead TypeError ∧ s.(recorder) = ROpen 1 48000 ∧
  (g_of s).(SAMPLE_RATE) = None ∧ (g_of s).(input_device_index) = Some 1 ∧
  length s.(consumed) = 20%nat ∧ s.(sent) = [] ∧ (g_of s).(emitted) = [].
Proof. split; [by apply after_reachable; vm_compute|by vm_compute]. Qed.

(** Claim C32.  The pause flag is read at the top of the loop only: when
    the user pauses after the worker has passed line 143, nothing having
    been captured yet, the worker still collects the next 20 blocks, sends
    them, and the answer replaces the pause text on the overlay while the
    flag is set. *)
Theorem pause_read_at_top_only :
  let s0 := after (take 15 late_pause) (ConfigFile (Some 0)) studio in
  let s := after late_pause (ConfigFile (Some 0)) studio in
  reachable s ∧ steps s0 (drop 15 late_pause) s ∧
  (g_of s0).(paused) = true ∧ s0.(captured) = [] ∧ label (g_of s0) = paused_text ∧
  (g_of s).(paused) = true ∧ length s.(sent) = 1%nat ∧
  label (g_of s) = live_marker ++ of_string "hello".
Proof.
  split; [by apply after_reachable; vm_compute|].
  split; [by apply after_drop; vm_compute|by vm_compute].
Qed.

Lemma audio_conserved_witness :
  let s := after (take 40 session) (ConfigFile (Some 0)) studio in
  s.(captured) = s.(consumed) ++ in_flight s ++ fifo_items (g_of s).(audio_q).
Proof.
  apply (audio_conserved (after (take 40 session) (ConfigFile (Some 0)) studio)).
  apply after_reachable. vm_compute. reflexivity.
Defined.

Lemma well_typed_witness :
  Forall frame_ok (in_flight (after (take 41 session) (ConfigFile (Some 0)) studio) ++
                   fifo_items (g_of (after (take 41 session) (ConfigFile (Some 0)) studio)).(audio_q)) ∧
  menu_ok (g_of (after (take 41 session) (ConfigFile (Some 0)) studio)).
Proof.
  destruct (well_typed (after (take 41 session) (ConfigFile (Some 0)) studio))
    as (Hq & _ & _ & Hm); [apply after_reachable; vm_compute; reflexivity|].
  apply Forall_app in Hq as [_ Hq]. exact (conj Hq Hm).
Defined.

Lemma no_device_no_exit_witness :
  let s' := after ([LMain; LMain; LMain; LTray] ++ no_way_out) (ConfigFile None) [] in
  (s'.(main) = MCheck ∨ s'.(main) = MWait) ∧ s'.(tray) = TMenu [] None ∧
  s'.(recorder) = RNotStarted ∧ (g_of s').(input_device_index) = None.
Proof.
  apply (no_device_no_exit (after [LMain; LMain; LMain; LTray] (ConfigFile None) [])
           no_way_out).
  - vm_compute. by split_and!; [left|..].
  - apply (after_drop 4 ([LMain; LMain; LMain; LTray] ++ no_way_out)). vm_compute. reflexivity.
Defined.

Lemma requests_follow_windows_witness :
  let s := after session (ConfigFile (Some 0)) studio in
  Forall2 request_of (windows 20 (length s.(sent)) s.(captured)) s.(sent) ∧
  (20 * length s.(sent) ≤ length s.(captured))%nat.
Proof.
  apply (requests_follow_windows (after session (ConfigFile (Some 0)) studio)).
  apply after_reachable. vm_compute. reflexivity.
Defined.

Lemma selection_invariant_witness :
  selection_inv (after (take 5 early_click ++ [LTray; LTray; LTray]) (ConfigFile None) studio).
Proof.
  apply selection_invariant, after_reachable. vm_compute. reflexivity.
Defined.

Lemma startup_order_witness : startup_ok (after (take 9 session) (ConfigFile (Some 0)) studio).
Proof. apply startup_order, after_reachable. vm_compute. reflexivity. Defined.

Lemma stream_keeps_first_device_witness :
  let s := after session (ConfigFile (Some 0)) studio in
  s.(recorder) = ROpen 0 16000 ∧ (g_of s).(input_device_index) = Some 1 ∧
  (g_of s).(SAMPLE_RATE) = Some 48000.
Proof.
  split; [|vm_compute; done].
  apply (stream_keeps_first_device (after (take 13 session) (ConfigFile (Some 0)) studio)
           (drop 13 session)).
  - apply after_reachable. vm_compute. reflexivity.
  - apply after_drop. vm_compute. reflexivity.
  - vm_compute. reflexivity.
Defined.

Lemma failed_open_is_final_witness :
  let s := after refused (ConfigFile (Some 0)) studio in
  s.(recorder) = RDead PortAudioError ∧ s.(captured) = [] ∧
  (g_of s).(input_device_index) = Some 1 ∧ (g_of s).(selected_event) = true.
Proof.
  destruct (failed_open_is_final (after (take 12 refused) (ConfigFile (Some 0)) studio) false
              (after (take 13 refused) (ConfigFile (Some 0)) studio) PortAudioError
              (drop 13 refused) (after refused (ConfigFile (Some 0)) studio))
    as (_ & Hd & Hc).
  - apply after_reachable. vm_compute. reflexivity.
  - apply (after_step 12 refused); [vm_compute; reflexivity|reflexivity].
  - vm_compute. reflexivity.
  - apply after_drop. vm_compute. reflexivity.
  - split_and!; [exact Hd|exact Hc|vm_compute; reflexivity..].
Defined.

Lemma restored_start_has_rate_witness :
  has_rate (g_of (after session (ConfigFile (Some 0)) studio)) ∧
  (after session (ConfigFile (Some 0)) studio).(worker) ≠ WDead TypeError.
Proof.
  destruct (restored_start_has_rate (ConfigFile (Some 0)) studio session
              (after session (ConfigFile (Some 0)) studio) 0) as [Hr Hw].
  - reflexivity.
  - apply after_steps. vm_compute. reflexivity.
  - split; [apply Hr; vm_compute; discriminate|exact Hw].
Defined.

Section worker_refinement.
Context `{Fifo block AQ} `{Resampler}.
Implicit Types (s : sys AQ) (g : state AQ) (l : action) (ls : list action).

Lemma with_audio_q_same s got :
  s.(worker) = WCollect got →
  with_worker (WCollect (got ++ [])) (on_sys_globals (with_audio_q (g_of s).(audio_q)) s) = s.
Proof. destruct s as [[[] ? ?] ? ? ? ? ? ? ?]. simpl. intros ->. by rewrite app_nil_r. Qed.

(** The comprehension of line 147 from any point on: [n] more blocks are
    taken, one step each. *)
Lemma collect_steps n s got fs q' :
  alive s → s.(worker) = WCollect got → (length got + n ≤ 20)%nat →
  get_frames n (g_of s).(audio_q) = Some (fs, q') →
  steps s (replicate n LWorker)
    (with_worker (WCollect (got ++ fs)) (on_sys_globals (with_audio_q q') s)).
Proof.
  revert s got fs q'. induction n as [|n IH]; intros s got fs q' Ha Hw Hl; simpl.
  - intros [= <- <-]. rewrite with_audio_q_same by done. constructor.
  - destruct (fifo_get _) as [[x q1]|] eqn:Hg; [|done]. simpl.
    destruct (get_frames n q1) as [[xs q2]|] eqn:Hf; [|done]. simpl. intros [= <- <-].
    econstructor; [apply step_get; [done..|lia|done]|].
    rewrite (cons_middle x got xs), app_assoc.
    apply (IH (with_worker (WCollect (got ++ [x])) (on_sys_globals (with_audio_q q1) s)));
      [done|done|rewrite length_app; simpl; lia|done].
Qed.

(** From the top of the loop to the test of the rate: 22 steps. *)
Lemma window_steps s fs q' :
  alive s → s.(worker) = WTop → (g_of s).(paused) = false →
  get_frames 20 (g_of s).(audio_q) = Some (fs, q') →
  steps s (replicate 22 LWorker)
    (with_worker (if rate_differs (g_of s).(SAMPLE_RATE)
                  then WResample (concatenate fs) else WCall (write_wav (concatenate fs)))
       (with_consumed (s.(consumed) ++ fs) (on_sys_globals (with_audio_q q') s))).
Proof.
  intros Ha Hw Hp Hf.
  pose proof (collect_steps 20 (with_worker (WCollect []) s) [] fs q' Ha eq_refl
                ltac:(simpl; lia) Hf) as Hcollect.
  apply get_frames_Some in Hf as [_ Hl]. change ([] ++ fs) with fs in Hcollect.
  change 22%nat with (1 + (20 + 1))%nat. rewrite !replicate_add.
  econstructor; [by apply step_begin|]. eapply steps_app; [exact Hcollect|].
  econstructor; [by apply step_window|]. constructor.
Qed.

(** With fewer than 20 blocks queued the worker takes them all and
    waits. *)
Lemma blocked_steps s :
  alive s → s.(worker) = WTop → (g_of s).(paused) = false →
  (length (fifo_items (g_of s).(audio_q)) < 20)%nat →
  ∃ s', steps s (replicate (S (length (fifo_items (g_of s).(audio_q)))) LWorker) s' ∧
        realises s Blocked s'.
Proof.
  intros Ha Hw Hp Hl. set (items := fifo_items (g_of s).(audio_q)) in *.
  destruct (get_frames_enough (length items) (g_of s).(audio_q)) as (q' & Hf & Hq'); [done|].
  fold items in Hf, Hq'. rewrite take_ge in Hf by done. rewrite drop_ge in Hq' by done.
  pose proof (collect_steps (length items) (with_worker (WCollect []) s) [] items q' Ha eq_refl
                ltac:(simpl; lia) Hf) as Hcollect.
  eexists. split; [econstructor; [by apply step_begin|exact Hcollect]|].
  unfold realises. fold items. split_and!; [done|done|].
  unfold exec, worker_exec, g_of. sys_simpl. rewrite decide_True by done.
  rewrite decide_True by (simpl; lia). by apply fifo_get_None in Hq' as ->.
Qed.

(** Every outcome of an iteration of the worker's loop is realised by an
    execution in which only the worker and the service move. *)
Lemma iteration_steps resp s :
  alive s → s.(worker) = WTop →
  ∃ ls s', steps s ls s' ∧ Forall (λ l, l = LWorker ∨ l = LAnswer resp) ls ∧
           realises s (transcribe_loop_body resp (g_of s)) s'.
Proof.
  intros Ha Hw. unfold transcribe_loop_body.
  destruct (paused (g_of s)) eqn:Hp.
  { exists [LWorker], s. split_and!; [|by repeat constructor|done].
    econstructor; [by apply step_sleep|constructor]. }
  destruct (get_frames 20 _) as [[fs q']|] eqn:Hf.
  2:{ destruct (blocked_steps s) as (s' & Hs & Hr); [done..| |].
      - destruct (decide (length (fifo_items (g_of s).(audio_q)) < 20)%nat); [done|].
        destruct (get_frames_enough 20 (g_of s).(audio_q)) as (? & ? & _); [lia|congruence].
      - eexists _, s'. split_and!; [done| |done]. apply Forall_replicate. by left. }
  pose proof (window_steps s fs q' Ha Hw Hp Hf) as Hwin.
  apply get_frames_Some in Hf as [Hi Hl]. simpl. rewrite convert_split.
  unfold realises. rewrite Hi, take_app_length' by done. unfold g_of in *.
  assert (Forall (λ l, l = LWorker ∨ l = LAnswer resp) (replicate 22 LWorker)) as H22
    by (apply Forall_replicate; by left).
  destruct (rate_differs _) eqn:Hrate;
    [destruct (resample_at _ _) as [c|e] eqn:Hc|];
    try destruct (on_response resp _) as [g2|e] eqn:Hr.
  all: eexists (replicate 22 LWorker ++ _), _; split;
    [eapply steps_app; [exact Hwin|];
     repeat (eapply steps_cons;
             [first [by eapply step_resample|by eapply step_resample_raise
                    |by eapply step_answer|by eapply step_answer_raise]|]);
     apply steps_nil|].
  all: split; [|by split_and!].
  all: apply Forall_app; split; [done|]; repeat (apply Forall_cons_2; [auto|]);
    apply Forall_nil_2.
Qed.

(** The worker's steps leave the other threads and the capture alone. *)
Lemma worker_step_frame resp s l s' :
  step s l s' → l = LWorker ∨ l = LAnswer resp → same_threads s s'.
Proof.
  unfold same_threads.
  destruct 1; intros [?|?]; simplify_eq; try destruct (rate_differs _); sys_simpl; done.
Qed.

Lemma worker_steps_frame resp s ls s' :
  steps s ls s' → Forall (λ l, l = LWorker ∨ l = LAnswer resp) ls → same_threads s s'.
Proof.
  induction 1 as [|s l s1 ls s2 Hl _ IH]; [done|]. intros [Ha Hls]%Forall_cons_1.
  pose proof (worker_step_frame resp _ _ _ Hl Ha) as Hf1. specialize (IH Hls).
  unfold same_threads in *. destruct_and?. split_and!; congruence.
Qed.

(** Claim C24.  Every outcome of an iteration of the worker's loop is
    realised by an execution of the system in which only the worker and
    the service move, whose actions are steps of the worker and the answer
    [resp]: it ends in the state the iteration returns, with the window
    consumed and the request sent where the iteration dispatches, with the
    worker dead where it dies, and with the blocks there were taken and no
    further step of the worker possible where it blocks.  The other
    threads, the files and the capture are as before. *)
Theorem worker_refines_body resp s :
  alive s → s.(worker) = WTop →
  ∃ ls s', steps s ls s' ∧ Forall (λ l, l = LWorker ∨ l = LAnswer resp) ls ∧
           realises s (transcribe_loop_body resp (g_of s)) s' ∧ same_threads s s'.
Proof.
  intros Ha Hw. destruct (iteration_steps resp s Ha Hw) as (ls & s' & Hs & Hls & Hr).
  exists ls, s'. split_and!; [done..|]. by eapply worker_steps_frame.
Qed.

(** Claim C33.  A window is 20 blocks of 4000 frames whatever the rate of
    the device.  From every reachable state in which the worker has
    collected its 20 blocks, with the rate [sr] set, the worker's next
    statements are the test of line 150 and, unless the rate is 16 kHz, the
    conversion of line 151; they lead to the request of a chunk whose
    length at 16 kHz is within half a sample of the duration of the 80000
    captured samples at [sr].  The request therefore holds five seconds of
    audio exactly when the device runs at 16 kHz. *)
Theorem window_duration s got sr :
  reachable s → alive s → s.(worker) = WCollect got → length got = 20%nat →
  (g_of s).(SAMPLE_RATE) = Some sr → 0 < sr →
  ∃ chunk,
    steps s (if decide (sr = 16000) then [LWorker] else [LWorker; LWorker])
      (with_worker (WCall (write_wav chunk)) (with_consumed (s.(consumed) ++ got) s)) ∧
    Z.of_nat (length (concatenate got)) = 80000 ∧
    2 * Z.abs (sr * Z.of_nat (length chunk) - 16000 * 80000) ≤ sr ∧
    (Z.of_nat (length chunk) = 5 * 16000 ↔ sr = 16000).
Proof.
  intros Hr Ha Hw Hl Hsr Hpos.
  pose proof (inv_reachable s Hr) as (_ & _ & Hc & _).
  destruct (typed_reachable s Hr) as (Hcap & _).
  destruct (window_typed s got Hc Hcap Hw Hl) as [_ Hlen].
  apply (f_equal Z.of_nat) in Hlen. change (Z.of_nat (20 * 4000)) with 80000 in Hlen.
  pose proof (step_window s got Ha Hw Hl) as Hwin. rewrite Hsr in Hwin.
  case_decide as H16; [subst sr|].
  - exists (concatenate got). split_and!; [by econstructor; [exact Hwin|constructor]|done|lia|lia].
  - unfold rate_differs in Hwin. rewrite bool_decide_true in Hwin by congruence.
    pose proof (resample_audio_returns (concatenate got) sr 16000 Hpos ltac:(lia)) as Hc'.
    set (c := astype_int16 _) in Hc'.
    pose proof (resample_audio_Ok_length _ _ _ _ Hc') as Hn. rewrite Hlen in Hn.
    pose proof (py_round_nearest (80000 * 16000) sr Hpos) as Hnear. rewrite <- Hn in Hnear.
    exists c. split_and!; [|done|lia|split; [intros Hfive; rewrite Hfive in Hnear; lia|done]].
    econstructor; [exact Hwin|]. econstructor; [|constructor].
    change (with_worker (WCall (write_wav c)) (with_consumed (consumed s ++ got) s))
      with (with_worker (WCall (write_wav c))
              (with_worker (WResample (concatenate got))
                 (with_consumed (consumed s ++ got) s))).
    apply (step_resample _ (concatenate got) c); [done|done|].
    unfold g_of in *. sys_simpl. by rewrite Hsr.
Qed.

(** A run of driver callbacks. *)
Lemma capture_steps bs s d r :
  alive s → s.(recorder) = ROpen d r →
  Forall (λ b, block_ok b ∧ length b = 4000%nat) bs →
  steps s ((λ b, LBlock b None) <$> bs)
    (with_captured (s.(captured) ++ bs) (on_sys_globals (capture bs) s)).
Proof.
  intros Ha Hr Hbs. revert s Ha Hr. induction Hbs as [|b bs [Hb Hl] _ IH]; intros s Ha Hr.
  - destruct s as [[] ? ? ? ? ? ? ?]. simpl. rewrite app_nil_r. constructor.
  - simpl. econstructor; [by eapply step_block|].
    rewrite (cons_middle b (captured s) bs), app_assoc.
    by apply (IH (with_captured (captured s ++ [b])
                    (on_sys_globals (audio_callback b None) s))).
Qed.

(** Claim C11.  The worker makes progress: from a state in which it is at
    the top of its loop, not paused, with a positive sample rate and the
    stream open, once the driver has delivered enough blocks to fill a
    window and the service answers without a fatal exception, the worker
    has sent the request made from the 20 oldest blocks and is back at the
    top of its loop with the later blocks queued. *)
Theorem worker_progress s bs resp sr d r :
  alive s → s.(worker) = WTop → s.(recorder) = ROpen d r →
  (g_of s).(paused) = false → (g_of s).(SAMPLE_RATE) = Some sr → 0 < sr → nonfatal resp →
  Forall (λ b, block_ok b ∧ length b = 4000%nat) bs →
  (20 ≤ length (fifo_items (g_of s).(audio_q) ++ bs))%nat →
  ∃ ls s', steps s ls s' ∧ s'.(worker) = WTop ∧
    s'.(sent) = s.(sent) ++
      [write_wav (converted sr (concatenate (take 20 (fifo_items (g_of s).(audio_q) ++ bs))))] ∧
    fifo_items (g_of s').(audio_q) = drop 20 (fifo_items (g_of s).(audio_q) ++ bs).
Proof.
  intros Ha Hw Hr Hp Hsr Hpos Hnf Hbs Hl.
  pose proof (capture_steps bs s d r Ha Hr Hbs) as Hcap.
  set (s1 := with_captured _ _) in Hcap.
  destruct (capture_frame bs (g_of s)) as ((Hsr1 & _) & Hp1 & _).
  assert (fifo_items (g_of s1).(audio_q) = fifo_items (g_of s).(audio_q) ++ bs) as Hq1
    by apply capture_items.
  destruct (body_dispatch resp (g_of s1) sr) as (g' & Hb & Hq' & _);
    [by rewrite <- Hp|by rewrite <- Hsr|done|done|by rewrite Hq1|].
  destruct (iteration_steps resp s1 Ha Hw) as (ls & s' & Hs & _ & Hreal).
  rewrite Hb in Hreal. destruct Hreal as (Hw' & Hg' & Hsent & _).
  exists (((λ b, LBlock b None) <$> bs) ++ ls), s'.
  split_and!; [by eapply steps_app|done|by rewrite Hsent, Hq1|by rewrite Hg', Hq', Hq1].
Qed.

End worker_refinement.

Lemma worker_refines_body_witness :
  ∃ ls s', steps busy ls s' ∧
           s'.(sent) = [write_wav (concat (replicate 20 [1; -2]))] ∧
           s'.(consumed) = replicate 20 [1; -2] ∧
           label (g_of s') = live_marker ++ of_string "hi".
Proof.
  destruct (worker_refines_body (ApiText (of_string "hi")) busy)
    as (ls & s' & Hs & _ & Hr & _);
    [done|done|].
  destruct Hr as (_ & Hg & Hsent & Hc).
  exists ls, s'. split_and!; [exact Hs|exact Hsent|exact Hc|by rewrite Hg].
Defined.

Lemma window_duration_witness :
  ∃ chunk,
    steps (after (take 54 session) (ConfigFile (Some 1)) studio) [LWorker; LWorker]
      (with_worker (WCall (write_wav chunk))
         (with_consumed (replicate 20 silence) (after (take 54 session) (ConfigFile (Some 1)) studio))) ∧
    Z.of_nat (length chunk) = 26667.
Proof.
  destruct (window_duration (after (take 54 session) (ConfigFile (Some 1)) studio)
              (replicate 20 silence) 48000) as (chunk & Hs & _ & Hn & _);
    [apply after_reachable; vm_compute; reflexivity|vm_compute; congruence|vm_compute; reflexivity
    |reflexivity|vm_compute; reflexivity|lia|].
  exists chunk. split; [exact Hs|lia].
Defined.

Lemma worker_progress_witness :
  ∃ ls s', steps (after (take 13 session) (ConfigFile (Some 0)) studio) ls s' ∧
           s'.(worker) = WTop ∧ length s'.(sent) = 1%nat ∧ (g_of s').(audio_q) = [silence].
Proof.
  destruct (worker_progress (after (take 13 session) (ConfigFile (Some 0)) studio)
              (replicate 21 silence) (ApiText (of_string "hello")) 16000 0 16000)
    as (ls & s' & Hs & Hw & Hsent & Hq); [done|done|done|done|done|lia|done| |simpl; lia|].
  { apply Forall_replicate. split; [by apply Forall_replicate|apply length_replicate]. }
  exists ls, s'. split_and!; [exact Hs|exact Hw|by rewrite Hsent|exact Hq].
Defined.

Lemma click_refines_handler_witness :
  ∃ s', steps busy (LClickDevice 0 :: replicate 6 LTray) s' ∧
        (g_of s').(SAMPLE_RATE) = Some 16000 ∧ s'.(sw).(config) = ConfigFile (Some 0).
Proof.
  eexists. split.
  - apply (click_refines_handler busy [(0, of_string "Headset")] 0 (Ok tt)
             (selected 0 (DeviceInfo (of_string "Headset") 1 0 (16000 # 1) (Ok tt)) busy.(sw)));
      [done|done|apply list_elem_of_singleton; reflexivity|reflexivity].
  - split; reflexivity.
Defined.
