(* ===== verification/Display.v ===== *)
(** * Display: the overlay window and the texts delivered to it

    The overlay is a [TransparentWindow] (lines 39-64) whose label shows
    the last text delivered to [update_label] (lines 256-259).  The worker
    and the tray thread never touch the window: [update_text] emits the
    signal of [SignalHandler] (lines 32-33, 67-69), the connection of line
    262 queues one call of [update_label] per emission for the thread that
    owns the receiver, the main thread, and the event loop of line 284
    makes the calls in the order of the emissions.  The same loop
    dispatches the mouse events with which the user drags the window
    (lines 58-64).

    This file models the window as a record, its handlers as functions,
    and the event loop as the relation [dstep] on a [desk]: the threads of
    [System] together with the window, the texts delivered so far and the
    state of the mouse button.  A step is a step of a thread or one
    event dispatched by the loop, which runs only while the main thread is
    at line 284.  [dexec] is the same relation as a function.

    The theorems relate the label to the emitted texts (what is shown is
    the last text delivered, texts are delivered in order, and once the
    queue is empty the label is the text [Pipeline.label] promises), show
    that nothing is delivered before the main thread enters the loop, give
    the position of the window after a drag, and show that the display
    does not interfere with the threads: the executions of the desk project
    to executions of [System]. *)

From Stdlib Require Import String.
From S2P Require Import Prelude Samples Resample AudioQueue Text Pipeline Devices System.

#[local] Open Scope Z_scope.

(** ** The window *)

(** A [QPoint]. *)
Record QPoint : Type := Point { qx : Z; qy : Z }.

#[global] Instance QPoint_eq_dec : EqDecision QPoint.
Proof. solve_decision. Defined.

(** What the program sets of the window and its label, and reads back. *)
Record TransparentWindow : Type := Window {
  frameless : bool;
  stays_on_top : bool;
  translucent : bool;
  label_font : str * Z;
  label_style : str;
  word_wrap : bool;
  minimum_width : Z;
  label_text : str;
  position : QPoint;
  oldPos : option QPoint;
  visible : bool;
}.

#[global] Instance TransparentWindow_eq_dec : EqDecision TransparentWindow.
Proof. solve_decision. Defined.

Definition with_label_text (text : str) (w : TransparentWindow) : TransparentWindow :=
  {| frameless := w.(frameless); stays_on_top := w.(stays_on_top);
     translucent := w.(translucent); label_font := w.(label_font);
     label_style := w.(label_style); word_wrap := w.(word_wrap);
     minimum_width := w.(minimum_width); label_text := text;
     position := w.(position); oldPos := w.(oldPos); visible := w.(visible) |}.

Definition with_position (p : QPoint) (w : TransparentWindow) : TransparentWindow :=
  {| frameless := w.(frameless); stays_on_top := w.(stays_on_top);
     translucent := w.(translucent); label_font := w.(label_font);
     label_style := w.(label_style); word_wrap := w.(word_wrap);
     minimum_width := w.(minimum_width); label_text := w.(label_text);
     position := p; oldPos := w.(oldPos); visible := w.(visible) |}.

Definition with_oldPos (p : option QPoint) (w : TransparentWindow) : TransparentWindow :=
  {| frameless := w.(frameless); stays_on_top := w.(stays_on_top);
     translucent := w.(translucent); label_font := w.(label_font);
     label_style := w.(label_style); word_wrap := w.(word_wrap);
     minimum_width := w.(minimum_width); label_text := w.(label_text);
     position := w.(position); oldPos := p; visible := w.(visible) |}.

(** [TransparentWindow()] (lines 40-56): the constructor runs [initUI]. *)
Definition initUI : TransparentWindow :=
  {| frameless := true; stays_on_top := true; translucent := true;
     label_font := (of_string "Segoe UI", 14);
     label_style :=
       of_string "color: white; background-color: rgba(0, 0, 0, 180); padding: 10px;";
     word_wrap := true; minimum_width := 800; label_text := waiting_text;
     position := Point 100 100; oldPos := None; visible := false |}.

(** [window.show()] (line 265). *)
Definition show (w : TransparentWindow) : TransparentWindow :=
  {| frameless := w.(frameless); stays_on_top := w.(stays_on_top);
     translucent := w.(translucent); label_font := w.(label_font);
     label_style := w.(label_style); word_wrap := w.(word_wrap);
     minimum_width := w.(minimum_width); label_text := w.(label_text);
     position := w.(position); oldPos := w.(oldPos); visible := true |}.

(** [mousePressEvent] (lines 58-59). *)
Definition mousePressEvent (globalPos : QPoint) (w : TransparentWindow) : TransparentWindow :=
  with_oldPos (Some globalPos) w.

(** [mouseMoveEvent] (lines 61-64).  [self.oldPos] is an attribute that
    [mousePressEvent] creates: reading it before raises. *)
Definition mouseMoveEvent (globalPos : QPoint) (w : TransparentWindow)
    : pyres TransparentWindow :=
  match w.(oldPos) with
  | None => Raise AttributeError
  | Some old =>
      let delta := Point (globalPos.(qx) - old.(qx)) (globalPos.(qy) - old.(qy)) in
      Ok (with_oldPos (Some globalPos)
            (with_position
               (Point (w.(position).(qx) + delta.(qx)) (w.(position).(qy) + delta.(qy))) w))
  end.

(** The moves of a drag, one after the other. *)
Fixpoint mouse_moves (ps : list QPoint) (w : TransparentWindow) : pyres TransparentWindow :=
  match ps with
  | [] => Ok w
  | p :: ps' => w' ← mouseMoveEvent p w; mouse_moves ps' w'
  end.

(** [update_label] (lines 256-259) on the global [window]; the size that
    [adjustSize] computes is not modelled. *)
Definition update_label (text : str) (window : option TransparentWindow)
    : option TransparentWindow :=
  match window with
  | Some w => Some (with_label_text text w)
  | None => None
  end.

(** ** The state of the main thread's user interface *)

(** The global [window], the texts [update_label] was called with, in
    order, and whether a mouse button is down on the window.  The signals
    emitted and not yet delivered are the texts of [emitted] after the
    first [length shown]. *)
Record gui : Type := Gui {
  window : option TransparentWindow;
  shown : list str;
  held : bool;
}.

Definition with_window (w : option TransparentWindow) (u : gui) : gui :=
  {| window := w; shown := u.(shown); held := u.(held) |}.

Definition with_held (b : bool) (u : gui) : gui :=
  {| window := u.(window); shown := u.(shown); held := b |}.

(** The interface when line 267 is reached: the window of line 252,
    shown (line 265), nothing delivered. *)
Definition gui_boot : gui := {| window := Some (show initUI); shown := []; held := false |}.

(** One queued call of [update_label] (line 262). *)
Definition deliver (text : str) (u : gui) : gui :=
  {| window := update_label text u.(window); shown := u.(shown) ++ [text];
     held := u.(held) |}.

(** What the event loop dispatches to the window, and the steps of the
    threads in between. *)
Inductive event : Type :=
  | EThread (a : action)
  | EDeliver
  | EPress (globalPos : QPoint)
  | EMove (globalPos : QPoint)
  | ERelease.

(** The steps of the threads in an execution of the event loop. *)
Definition thread_actions (es : list event) : list action :=
  omap (λ e, match e with EThread a => Some a | _ => None end) es.

Section display.
Context `{Fifo block AQ} `{Resampler}.

(** The threads and the interface. *)
Record desk : Type := Desk {
  threads : sys AQ;
  ui : gui;
}.

Definition with_threads (s : sys AQ) (d : desk) : desk := {| threads := s; ui := d.(ui) |}.

Definition with_ui (u : gui) (d : desk) : desk := {| threads := d.(threads); ui := u |}.

Definition desk_boot (c : config_file) (ds : list device_info) : desk :=
  {| threads := boot c ds; ui := gui_boot |}.

(** The signals emitted and not yet delivered. *)
Definition pending (d : desk) : list str :=
  drop (length d.(ui).(shown)) (g_of d.(threads)).(emitted).

(** [start_gui] (lines 72-76) up to its event loop: a new window replaces
    the global one and the waiting text is emitted.  No statement of the
    program calls it. *)
Definition start_gui (d : desk) : desk :=
  with_threads (on_sys_globals (update_text waiting_text) d.(threads))
    (with_ui (with_window (Some initUI) d.(ui)) d).

(** ** The event loop *)

(** A step of a thread, or an event dispatched by [app.exec_()] (line
    284) while the main thread is in it.  A move is dispatched only while
    a button is down (the window does not track the mouse); an exception
    in a handler ends the application. *)
Inductive dstep : desk → event → desk → Prop :=
  | dstep_thread d a s' :
      step d.(threads) a s' →
      dstep d (EThread a) (with_threads s' d)
  | dstep_deliver d text :
      d.(threads).(main) = MExec →
      (g_of d.(threads)).(emitted) !! length d.(ui).(shown) = Some text →
      dstep d EDeliver (with_ui (deliver text d.(ui)) d)
  | dstep_press d w p :
      d.(threads).(main) = MExec → d.(ui).(window) = Some w → w.(visible) = true →
      dstep d (EPress p)
        (with_ui (with_held true (with_window (Some (mousePressEvent p w)) d.(ui))) d)
  | dstep_move d w p w' :
      d.(threads).(main) = MExec → d.(ui).(held) = true → d.(ui).(window) = Some w →
      mouseMoveEvent p w = Ok w' →
      dstep d (EMove p) (with_ui (with_window (Some w') d.(ui)) d)
  | dstep_move_raise d w p e :
      d.(threads).(main) = MExec → d.(ui).(held) = true → d.(ui).(window) = Some w →
      mouseMoveEvent p w = Raise e →
      dstep d (EMove p) (with_threads (with_main MExit d.(threads)) d)
  | dstep_release d :
      d.(threads).(main) = MExec →
      dstep d ERelease (with_ui (with_held false d.(ui)) d).

(** The states the program reaches. *)
Definition dreachable (d : desk) : Prop := ∃ c ds es, trace dstep (desk_boot c ds) es d.

(** ** The event loop as a function *)

Definition gui_exec (e : event) (d : desk) : option desk :=
  match e with
  | EThread _ => None
  | EDeliver =>
      text ← (g_of d.(threads)).(emitted) !! length d.(ui).(shown);
      Some (with_ui (deliver text d.(ui)) d)
  | EPress p =>
      w ← d.(ui).(window);
      if w.(visible)
      then Some (with_ui (with_held true (with_window (Some (mousePressEvent p w)) d.(ui))) d)
      else None
  | EMove p =>
      w ← d.(ui).(window);
      if d.(ui).(held) then
        Some match mouseMoveEvent p w with
             | Ok w' => with_ui (with_window (Some w') d.(ui)) d
             | Raise _ => with_threads (with_main MExit d.(threads)) d
             end
      else None
  | ERelease => Some (with_ui (with_held false d.(ui)) d)
  end.

Definition dexec (e : event) (d : desk) : option desk :=
  match e with
  | EThread a => s' ← exec a d.(threads); Some (with_threads s' d)
  | _ => if decide (d.(threads).(main) = MExec) then gui_exec e d else None
  end.

Definition drun (es : list event) (d : desk) : option desk := run_list dexec es d.

(** ** The invariant of the interface *)

(** The window exists, is shown as [initUI] made it, and its label holds
    the last text delivered; the texts delivered are the first of the
    texts emitted; a held button has set [oldPos]; and before the main
    thread enters the event loop the interface is as line 265 left it. *)
Definition window_ok (u : gui) (w : TransparentWindow) : Prop :=
  with_oldPos None (with_position (Point 100 100) (with_label_text waiting_text w))
    = show initUI ∧
  w.(label_text) = default waiting_text (list.last u.(shown)) ∧
  (u.(held) = true → is_Some w.(oldPos)).

Definition in_loop (pc : main_pc) : Prop := pc = MExec ∨ pc = MExit.

Definition gui_inv (d : desk) : Prop :=
  (∃ w, d.(ui).(window) = Some w ∧ window_ok d.(ui) w) ∧
  d.(ui).(shown) `prefix_of` (g_of d.(threads)).(emitted) ∧
  (¬ in_loop d.(threads).(main) → d.(ui) = gui_boot).

End display.

Arguments desk AQ : clear implicits.

(** ** Example executions *)

(** The state an execution of the list implementation leads to, and
    whether the execution exists. *)
Definition dafter (es : list event) (c : config_file) (ds : list device_info)
    : desk (list block) :=
  run_from dexec es (desk_boot c ds).

Definition druns (es : list event) (c : config_file) (ds : list device_info) : bool :=
  runs_from dexec es (desk_boot (AQ:=list block) c ds).

(** A start with no device saved: the menu is built, the main thread
    prints that it waits for a selection and blocks on line 278, and the
    user clicks Pause. *)
Definition pause_while_waiting : list event :=
  EThread <$> [LMain; LMain; LMain; LTray; LMain; LClickPause].

(** The session of [System.session], after which the loop delivers the
    answer and the user drags the window by its label. *)
Definition watched_session : list event :=
  (EThread <$> session) ++
  [EDeliver; EPress (Point 150 120); EMove (Point 160 130); EMove (Point 400 300); ERelease].

(** Reduction of the projections of an updated interface. *)
Ltac gui_simpl :=
  cbn [threads ui with_threads with_ui desk_boot window shown held with_window with_held
       deliver gui_boot] in *.

(** ** Theorems *)

(** *** The window's handlers *)

Lemma mouseMoveEvent_Ok p w old :
  w.(oldPos) = Some old →
  mouseMoveEvent p w =
    Ok (with_oldPos (Some p)
          (with_position (Point (w.(position).(qx) + (p.(qx) - old.(qx)))
                                (w.(position).(qy) + (p.(qy) - old.(qy)))) w)).
Proof. unfold mouseMoveEvent. by intros ->. Qed.

Lemma mouseMoveEvent_is_Ok p w : is_Some w.(oldPos) → is_Ok (mouseMoveEvent p w) = true.
Proof. intros [old Hold]. by rewrite (mouseMoveEvent_Ok p w old). Qed.

(** A drag from [p0]: the window has moved by the difference between the
    last point and [p0], whatever the points in between. *)
Lemma mouse_moves_from ps w p0 :
  w.(oldPos) = Some p0 →
  mouse_moves ps w =
    Ok (with_oldPos (Some (default p0 (list.last ps)))
          (with_position
             (Point (w.(position).(qx) + ((default p0 (list.last ps)).(qx) - p0.(qx)))
                    (w.(position).(qy) + ((default p0 (list.last ps)).(qy) - p0.(qy)))) w)).
Proof.
  revert w p0. induction ps as [|p ps IH]; intros w p0 Hold.
  - destruct w as [? ? ? ? ? ? ? ? [x y] ? ?]. simpl in *. subst.
    unfold with_oldPos, with_position. simpl. do 3 f_equal; lia.
  - simpl. rewrite (mouseMoveEvent_Ok p w p0 Hold). simpl. rewrite (IH _ p) by done.
    replace (default p (list.last ps)) with (default p0 (list.last (p :: ps)))
      by (by destruct ps as [|q ps] using rev_ind; [|rewrite app_comm_cons, !last_snoc]).
    destruct w as [? ? ? ? ? ? ? ? [x y] ? ?]. unfold with_oldPos, with_position. simpl.
    do 3 f_equal; lia.
Qed.

(** What the handlers leave alone. *)
Lemma mouseMoveEvent_frame p w w' :
  mouseMoveEvent p w = Ok w' →
  with_oldPos None (with_position (Point 100 100) w') =
    with_oldPos None (with_position (Point 100 100) w) ∧
  is_Some w'.(oldPos).
Proof.
  unfold mouseMoveEvent. destruct (oldPos w) as [old|]; [|done]. intros [= <-].
  split; [done|by eexists].
Qed.

Section display_laws.
Context `{Fifo block AQ} `{Resampler}.
Implicit Types (d : desk AQ) (s : sys AQ) (g : state AQ) (u : gui) (e : event).

(** *** [dexec] and [dstep] agree *)

Lemma dexec_sound e d d' : dexec e d = Some d' → dstep d e d'.
Proof.
  destruct e as [a| |p|p|]; simpl.
  - destruct (exec a (threads d)) as [s'|] eqn:Ha; [|done]. intros [= <-].
    constructor. by apply exec_step.
  - case_decide; [|done]. destruct (_ !! _) eqn:Ht; [|done]. intros [= <-]. by constructor.
  - case_decide; [|done]. destruct (window (ui d)) as [w|] eqn:Hw; [|done]. simpl.
    destruct (visible w) eqn:Hv; [|done]. intros [= <-]. by constructor.
  - case_decide; [|done]. destruct (window (ui d)) as [w|] eqn:Hw; [|done]. simpl.
    destruct (held (ui d)) eqn:Hh; [|done]. intros [= <-].
    destruct (mouseMoveEvent p w) eqn:Hm; eauto using dstep.
  - case_decide; [|done]. intros [= <-]. by constructor.
Qed.

Lemma dexec_complete e d d' : dstep d e d' → dexec e d = Some d'.
Proof.
  destruct 1 as [d a s' Hs|d text Hm Ht|d w p Hm Hw Hv|d w p w' Hm Hh Hw Hp
                |d w p e Hm Hh Hw Hp|d Hm]; simpl.
  - apply exec_step in Hs. by rewrite Hs.
  - by rewrite decide_True, Ht.
  - rewrite decide_True, Hw by done. simpl. by rewrite Hv.
  - rewrite decide_True, Hw by done. simpl. by rewrite Hh, Hp.
  - rewrite decide_True, Hw by done. simpl. by rewrite Hh, Hp.
  - by rewrite decide_True.
Qed.

Lemma dexec_dstep e d d' : dexec e d = Some d' ↔ dstep d e d'.
Proof. split; [apply dexec_sound|apply dexec_complete]. Qed.

Lemma drun_trace es d d' : drun es d = Some d' ↔ trace dstep d es d'.
Proof. apply run_list_trace, dexec_dstep. Qed.

(** An execution of the threads is an execution of the desk. *)
Lemma steps_trace s ls s' u :
  steps s ls s' → trace dstep (Desk s u) (EThread <$> ls) (Desk s' u).
Proof.
  induction 1 as [|s l s1 ls s2 Hl _ IH]; simpl; [constructor|].
  econstructor; [|exact IH]. by apply (dstep_thread (Desk s u)).
Qed.

Lemma dreachable_boot c ds : dreachable (desk_boot (AQ:=AQ) c ds).
Proof. exists c, ds, []. constructor. Qed.

Lemma dreachable_trace d es d' : dreachable d → trace dstep d es d' → dreachable d'.
Proof. intros (c & ds & es0 & Hes0) Hes. exists c, ds, (es0 ++ es). by eapply trace_app. Qed.

Lemma dreachable_invariant (P : desk AQ → Prop) :
  (∀ c ds, P (desk_boot c ds)) → (∀ d e d', P d → dstep d e d' → P d') →
  ∀ d, dreachable d → P d.
Proof. intros Hb Hs d (c & ds & es & Hes). eapply trace_invariant; eauto. Qed.

(** *** What the threads do to the emitted texts and to the loop *)

Lemma update_text_prefix text g : g.(emitted) `prefix_of` (update_text text g).(emitted).
Proof.
  rewrite update_text_emitted. destruct (signal_handler g); [by apply prefix_app_r|done].
Qed.

Lemma on_response_prefix resp g g' :
  on_response resp g = Ok g' → g.(emitted) `prefix_of` g'.(emitted).
Proof.
  unfold on_response, try_except. destruct resp as [t|e msg].
  - intros [= <-]. destruct (is_shown _); [apply (update_text_prefix _ (print _ g))|].
    apply update_text_prefix.
  - destruct (is_Exception e); [|done]. intros [= <-].
    apply (update_text_prefix _ (print _ g)).
Qed.

(** Emitted texts stay emitted, in their order. *)
Lemma step_emitted s a s' : step s a s' → (g_of s).(emitted) `prefix_of` (g_of s').(emitted).
Proof.
  destruct 1; try case_decide; unfold g_of in *; sys_simpl; try done;
    lazymatch goal with
    | Hsel : sel_step _ _ _ = _ |- _ =>
        apply sel_step_frame in Hsel as (_ & _ & Hem & _); rewrite ?Hem;
        try (by destruct (main_handler_frame e w'.(globals)) as (_ & _ & _ & ->); rewrite Hem)
    | |- _ `prefix_of` emitted (main_handler ?e ?g) =>
        by destruct (main_handler_frame e g) as (_ & _ & _ & ->)
    | |- _ `prefix_of` emitted (toggle_pause ?g) =>
        apply (update_text_prefix _ (with_paused _ _ g))
    | |- _ `prefix_of` emitted (audio_callback ?b ?st ?g) =>
        by destruct (audio_callback_frame b st g) as (_ & _ & ->)
    | _ => eauto using on_response_prefix
    end; done.
Qed.

(** The main thread does not come back from the event loop. *)
Lemma step_in_loop s a s' : step s a s' → in_loop s.(main) → in_loop s'.(main).
Proof.
  unfold in_loop. destruct 1; try case_decide; sys_simpl; try tauto;
    intros [?|?]; unfold alive in *; try congruence; tauto.
Qed.

(** *** The invariant *)

Lemma window_ok_deliver u w text :
  window_ok u w → window_ok (deliver text u) (with_label_text text w).
Proof.
  intros (Hs & _ & Hh). split_and!; [by destruct w|by simpl; rewrite last_snoc|done].
Qed.

Lemma window_ok_press u w p wo :
  window_ok u w → window_ok (with_held true (with_window wo u)) (mousePressEvent p w).
Proof. intros (Hs & Ht & _). split_and!; [by destruct w|done|by eexists]. Qed.

Lemma window_ok_move u w p w' wo :
  window_ok u w → mouseMoveEvent p w = Ok w' → window_ok (with_window wo u) w'.
Proof.
  intros (Hs & Ht & _). unfold mouseMoveEvent. destruct (oldPos w) as [old|] eqn:Ho; [|done].
  intros [= <-]. split_and!; [by destruct w|done|by eexists].
Qed.

Lemma window_ok_release u w : window_ok u w → window_ok (with_held false u) w.
Proof. intros (Hs & Ht & _). by split_and!. Qed.

Lemma prefix_snoc_lookup {A} (l1 l2 : list A) x :
  l1 `prefix_of` l2 → l2 !! length l1 = Some x → (l1 ++ [x]) `prefix_of` l2.
Proof.
  intros [k ->]. rewrite lookup_app_r, Nat.sub_diag by lia. destruct k as [|y k]; [done|].
  intros [= ->]. exists k. by rewrite <- app_assoc.
Qed.

Lemma gui_inv_boot c ds : gui_inv (desk_boot (AQ:=AQ) c ds).
Proof.
  split_and!; [|by apply prefix_nil|done]. exists (show initUI). by split; [|split_and!].
Qed.

Lemma gui_inv_step d e d' : gui_inv d → dstep d e d' → gui_inv d'.
Proof.
  intros ((w0 & Hw0 & Hok) & Hpre & Hboot).
  destruct 1 as [d a s' Hs|d text Hm Ht|d w p Hm Hw Hv|d w p w' Hm Hh Hw Hp
                |d w p e Hm Hh Hw Hp|d Hm]; unfold gui_inv; gui_simpl; simplify_eq.
  - split_and!; [by eauto|by etrans; [|by eapply step_emitted]|].
    intros Hn. apply Hboot. contradict Hn. by eapply step_in_loop.
  - rewrite Hw0. split_and!; [by eauto using window_ok_deliver|by apply prefix_snoc_lookup|].
    intros []. by left.
  - split_and!; [by eauto using window_ok_press|done|]. intros []. by left.
  - split_and!; [by eauto using window_ok_move|done|]. intros []. by left.
  - split_and!; [by eauto|done|]. intros []. by right.
  - split_and!; [by eauto using window_ok_release|done|]. intros []. by left.
Qed.

Lemma gui_inv_reachable d : dreachable d → gui_inv d.
Proof. apply dreachable_invariant; [apply gui_inv_boot|apply gui_inv_step]. Qed.

(** Delivering what is pending, one signal after the other. *)
Lemma deliver_pending d :
  gui_inv d → d.(threads).(main) = MExec →
  ∃ u', trace dstep d (replicate (length (pending d)) EDeliver) (with_ui u' d) ∧
        u'.(shown) = (g_of d.(threads)).(emitted) ∧ gui_inv (with_ui u' d).
Proof.
  remember (length (pending d)) as n eqn:Hn. revert d Hn.
  induction n as [|n IH]; intros d Hn Hinv Hm; simpl.
  - exists d.(ui). destruct d as [s u]. split_and!; [constructor| |done].
    destruct Hinv as (_ & [k Hk] & _). unfold pending in Hn. simpl in *.
    rewrite Hk, drop_app_length in Hn. destruct k; [by rewrite app_nil_r in Hk|done].
  - destruct (pending d) as [|text k] eqn:Hp; [done|]. unfold pending in Hp.
    assert ((g_of (threads d)).(emitted) !! length (shown (ui d)) = Some text) as Ht.
    { by rewrite <- (Nat.add_0_r (length _)), <- lookup_drop, Hp. }
    pose proof (dstep_deliver d text Hm Ht) as Hs.
    destruct (IH (with_ui (deliver text (ui d)) d)) as (u' & Htr & Hsh & Hinv');
      [|by eapply gui_inv_step|done|].
    { unfold pending. gui_simpl. rewrite length_app. simpl.
      rewrite <- drop_drop, Hp. simpl. rewrite drop_0. by injection Hn. }
    exists u'. split_and!; [by econstructor|done|done].
Qed.

End display_laws.

(** *** Executions of the list implementation *)

Lemma dafter_reachable es c ds : druns es c ds = true → dreachable (dafter es c ds).
Proof. intros Hr. exists c, ds, es. by apply (run_from_trace dstep dexec dexec_dstep). Qed.

Lemma dafter_step n es c ds e :
  druns es c ds = true → es !! n = Some e →
  dstep (dafter (take n es) c ds) e (dafter (take (S n) es) c ds).
Proof. apply (run_from_step dstep dexec dexec_dstep). Qed.

Section display_theorems.
Context `{Fifo block AQ} `{Resampler}.
Implicit Types (d : desk AQ) (w : TransparentWindow).

(** Claim C15.  In every state the program reaches the overlay window
    exists and is visible, its label holds the last text delivered to
    [update_label], or the waiting text if none was, and the texts
    delivered are the first of the texts emitted, in the order of their
    emission: no text is skipped, repeated or shown out of order. *)
Theorem label_shows_last_delivered d :
  dreachable d →
  ∃ w, d.(ui).(window) = Some w ∧ w.(visible) = true ∧
       w.(label_text) = default waiting_text (list.last d.(ui).(shown)) ∧
       d.(ui).(shown) `prefix_of` (g_of d.(threads)).(emitted).
Proof.
  intros ((w & Hw & Hs & Ht & _) & Hpre & _)%gui_inv_reachable.
  exists w. split_and!; [done| |done|done]. by apply (f_equal visible) in Hs.
Qed.

(** Claim C28.  Once the main thread is in the event loop the display
    catches up: delivering the pending signals, one event each, leaves no
    signal pending and the label showing the last text emitted, which is
    the text [label] gives for the globals. *)
Theorem display_catches_up d :
  dreachable d → d.(threads).(main) = MExec →
  ∃ d', trace dstep d (replicate (length (pending d)) EDeliver) d' ∧
        d'.(threads) = d.(threads) ∧ pending d' = [] ∧
        label_text <$> d'.(ui).(window) = Some (label (g_of d.(threads))).
Proof.
  intros Hinv%gui_inv_reachable Hm.
  destruct (deliver_pending d Hinv Hm) as (u' & Htr & Hsh & (w & Hw & _ & Ht & _) & _ & _).
  exists (with_ui u' d). unfold pending, label. gui_simpl.
  split_and!; [done|done|by rewrite Hsh, drop_all|by rewrite Hw, <- Hsh; simpl; f_equal].
Qed.

(** Claim C16.  Until the main thread enters the event loop nothing is
    delivered: whatever the threads have emitted, the window is as line
    265 left it, with the waiting text. *)
Theorem nothing_delivered_before_loop d :
  dreachable d → d.(threads).(main) ≠ MExec → d.(threads).(main) ≠ MExit →
  d.(ui) = gui_boot.
Proof.
  intros (_ & _ & Hboot)%gui_inv_reachable Hm Hx. apply Hboot. by intros [|].
Qed.

(** Claim C34.  A drag moves the window by the difference between the
    last position of the mouse and the position of the press, whatever the
    positions in between, and remembers the last position. *)
Theorem drag_moves_window w p0 ps :
  let pn := default p0 (list.last ps) in
  mouse_moves ps (mousePressEvent p0 w) =
    Ok (with_oldPos (Some pn)
          (with_position (Point (w.(position).(qx) + (pn.(qx) - p0.(qx)))
                                (w.(position).(qy) + (pn.(qy) - p0.(qy)))) w)).
Proof. intros pn. rewrite (mouse_moves_from ps _ p0) by done. by destruct w. Qed.

(** Claim C27.  The handler of a mouse move never raises in a state the
    program reaches: a move is dispatched while a button is down, and the
    press that precedes it has set [oldPos].  The move changes the window
    only. *)
Theorem move_never_raises d p d' :
  dreachable d → dstep d (EMove p) d' →
  ∃ w w', d.(ui).(window) = Some w ∧ mouseMoveEvent p w = Ok w' ∧
          d' = with_ui (with_window (Some w') d.(ui)) d.
Proof.
  intros ((w & Hw & _ & _ & Hold) & _ & _)%gui_inv_reachable.
  inversion 1 as [| | |? w1 ? w' Hm Hh Hw1 Hp|? w1 ? e Hm Hh Hw1 Hp|]; simplify_eq.
  - by exists w, w'.
  - apply Hold, (mouseMoveEvent_is_Ok p) in Hh. by rewrite Hp in Hh.
Qed.

(** The handlers of the window do not touch the threads. *)
Lemma dstep_threads d e d' :
  gui_inv d → dstep d e d' →
  match e with
  | EThread a => step d.(threads) a d'.(threads)
  | _ => d'.(threads) = d.(threads)
  end.
Proof.
  intros ((w & Hw & _ & _ & Hold) & _ & _).
  destruct 1 as [d a s' Hs|d text Hm Ht|d w1 p Hm Hw1 Hv|d w1 p w' Hm Hh Hw1 Hp
                |d w1 p e Hm Hh Hw1 Hp|d Hm]; gui_simpl; simplify_eq; try done.
  apply Hold, (mouseMoveEvent_is_Ok p) in Hh. by rewrite Hp in Hh.
Qed.

Lemma trace_threads d es d' :
  gui_inv d → trace dstep d es d' → steps d.(threads) (thread_actions es) d'.(threads).
Proof.
  intros Hinv Htr. induction Htr as [d|d e d1 es d2 He _ IH]; [constructor|].
  pose proof (dstep_threads d e d1 Hinv He) as Hs.
  specialize (IH (gui_inv_step d e d1 Hinv He)).
  destruct e; simpl in *; [by econstructor|by rewrite <- Hs..].
Qed.

(** Claim C26.  The display does not interfere with the threads: an
    execution of the event loop, with its deliveries and mouse events
    left out, is an execution of the threads of [System] between the same
    states of the threads.  Every state of the threads the program reaches
    with the display is reachable without it, so the invariants of
    [System] hold of the whole program. *)
Theorem desk_simulates_threads d es d' :
  dreachable d → trace dstep d es d' →
  steps d.(threads) (thread_actions es) d'.(threads) ∧ reachable d'.(threads).
Proof.
  intros Hd Htr. split; [by apply trace_threads; [apply gui_inv_reachable|]|].
  destruct (dreachable_trace d es d' Hd Htr) as (c & ds & es0 & Hes).
  exists c, ds, (thread_actions es0). apply (trace_threads _ _ _ (gui_inv_boot c ds) Hes).
Qed.

End display_theorems.

Lemma label_shows_last_delivered_witness :
  ∃ w, (dafter watched_session (ConfigFile (Some 0)) studio).(ui).(window) = Some w ∧
       w.(visible) = true ∧ w.(label_text) = live_marker ++ of_string "hello" ∧
       w.(position) = Point 350 280.
Proof.
  destruct (label_shows_last_delivered (dafter watched_session (ConfigFile (Some 0)) studio))
    as (w & Hw & Hv & Ht & _); [by apply dafter_reachable; vm_compute|].
  exists w. split_and!; [done|done|by rewrite Ht; vm_compute|].
  revert Hw. vm_compute. by intros [= <-].
Defined.

Lemma desk_simulates_threads_witness :
  steps (boot (ConfigFile (Some 0)) studio) session
    (dafter watched_session (ConfigFile (Some 0)) studio).(threads) ∧
  inv (dafter watched_session (ConfigFile (Some 0)) studio).(threads).
Proof.
  destruct (desk_simulates_threads (desk_boot (ConfigFile (Some 0)) studio) watched_session
              (dafter watched_session (ConfigFile (Some 0)) studio)) as [Hs Hr].
  - apply dreachable_boot.
  - apply (run_from_trace dstep dexec dexec_dstep). vm_compute. reflexivity.
  - split; [exact Hs|by apply inv_reachable].
Defined.

Lemma display_catches_up_witness :
  ∃ d', trace dstep (dafter (EThread <$> session) (ConfigFile (Some 0)) studio) [EDeliver] d' ∧
        label_text <$> d'.(ui).(window) = Some (live_marker ++ of_string "hello").
Proof.
  destruct (display_catches_up (dafter (EThread <$> session) (ConfigFile (Some 0)) studio))
    as (d' & Htr & _ & _ & Ht); [by apply dafter_reachable; vm_compute|by vm_compute|].
  exists d'. split; [exact Htr|]. rewrite Ht. by vm_compute.
Defined.

Lemma nothing_delivered_before_loop_witness :
  label (g_of (dafter pause_while_waiting (ConfigFile None) studio).(threads)) = paused_text ∧
  (dafter pause_while_waiting (ConfigFile None) studio).(ui) = gui_boot.
Proof.
  split; [by vm_compute|].
  apply nothing_delivered_before_loop; [by apply dafter_reachable; vm_compute|by vm_compute..].
Defined.

Lemma move_never_raises_witness :
  ∃ w w', (dafter (take 65 watched_session) (ConfigFile (Some 0)) studio).(ui).(window) = Some w ∧
          mouseMoveEvent (Point 160 130) w = Ok w' ∧ w'.(position) = Point 110 110.
Proof.
  destruct (move_never_raises (dafter (take 65 watched_session) (ConfigFile (Some 0)) studio)
              (Point 160 130) (dafter (take 66 watched_session) (ConfigFile (Some 0)) studio))
    as (w & w' & Hw & Hm & _).
  - by apply dafter_reachable; vm_compute.
  - by apply (dafter_step 65 watched_session); vm_compute.
  - exists w, w'. split_and!; [done|done|]. revert Hw Hm. vm_compute. by intros [= <-] [= <-].
Defined.
