(* ===== verification/Bootstrap.v ===== *)
(** * Bootstrap: the files created at start and the credential

    [create_initial_files] (lines 209-235) creates [.env] and [config.json]
    when they are missing and ends the process when it created [.env].
    The main block then loads [.env] into the environment and constructs
    the service's client from [OPENAI_API_KEY] (lines 240-243), before the
    [try] statement of line 244.  [startup] is these four lines; what they
    leave on disk is where the threads of [System] start from. *)

From Stdlib Require Import String.
From S2P Require Import Prelude Text Devices.

#[local] Open Scope Z_scope.

(** ** The files and the environment *)

(** [.env]: absent, or present with the value it gives [OPENAI_API_KEY],
    if it gives one. *)
Inductive env_file : Type :=
  | NoEnv
  | EnvFile (key : option str).

#[global] Instance env_file_eq_dec : EqDecision env_file.
Proof. solve_decision. Defined.

(** The working directory, the variable [OPENAI_API_KEY] of the process
    environment, and what was printed. *)
Record disk : Type := Disk {
  dot_env : env_file;
  config_json : config_file;
  environ_key : option str;
  printed : list str;
}.

Definition with_dot_env (e : env_file) (d : disk) : disk :=
  {| dot_env := e; config_json := d.(config_json); environ_key := d.(environ_key);
     printed := d.(printed) |}.

Definition with_config_json (c : config_file) (d : disk) : disk :=
  {| dot_env := d.(dot_env); config_json := c; environ_key := d.(environ_key);
     printed := d.(printed) |}.

Definition with_environ_key (k : option str) (d : disk) : disk :=
  {| dot_env := d.(dot_env); config_json := d.(config_json); environ_key := k;
     printed := d.(printed) |}.

(** [print(line)]. *)
Definition println (line : str) (d : disk) : disk :=
  {| dot_env := d.(dot_env); config_json := d.(config_json); environ_key := d.(environ_key);
     printed := d.(printed) ++ [line] |}.

(** The lines of lines 217, 227 and 231-234. *)
Definition created_env_line : str :=
  [0x1F4C4; 0x20]%N ++ of_string "Created empty .env file".

Definition created_config_line : str :=
  [0x1F4C4; 0x20]%N ++ of_string "Created config.json with initial settings".

Definition instructions : list str :=
  [ [0x0A; 0x26A0; 0xFE0F; 0x20]%N ++ of_string "Please add your OpenAI API key to the .env file:";
    of_string "1. Open .env file";
    of_string "2. Add your API key after 'OPENAI_API_KEY='";
    of_string "3. Save the file and restart the program" ].

(** ** [create_initial_files] *)

(** Lines 209-235.  The file written at line 216 gives the key the empty
    value; the file written at line 226 is an object whose [device_index]
    is [null]. *)
Definition create_initial_files : py disk unit :=
  d ← py_get;
  let env_created := bool_decide (d.(dot_env) = NoEnv) in
  (if env_created
   then py_modify (with_dot_env (EnvFile (Some []))) ;; py_modify (println created_env_line)
   else mret tt) ;;
  d ← py_get;
  (if decide (d.(config_json) = NoFile)
   then py_modify (with_config_json (ConfigFile None)) ;;
        py_modify (println created_config_line)
   else mret tt) ;;
  if env_created
  then py_modify (λ d, foldl (λ d line, println line d) d instructions) ;;
       py_lift (Raise (SystemExit 1))
  else mret tt.

(** ** The credential *)

(** [load_dotenv()] (line 242): a variable [.env] gives is set unless the
    environment has it already. *)
Definition load_dotenv (d : disk) : disk :=
  match d.(environ_key), d.(dot_env) with
  | None, EnvFile (Some k) => with_environ_key (Some k) d
  | _, _ => d
  end.

(** [openai.OpenAI(api_key=...)] (line 243): the constructor refuses a
    missing key and accepts any string; the result is the key the client
    sends with its requests. *)
Definition make_client (api_key : option str) : pyres str :=
  match api_key with
  | None => Raise OpenAIError
  | Some k => Ok k
  end.

(** Lines 240-243. *)
Definition startup : py disk str :=
  create_initial_files ;;
  py_modify load_dotenv ;;
  d ← py_get;
  py_lift (make_client d.(environ_key)).

(** The key the program uses: the environment's, else the file's. *)
Definition effective_key (d : disk) : option str :=
  match d.(environ_key), d.(dot_env) with
  | Some k, _ => Some k
  | None, EnvFile k => k
  | None, NoEnv => None
  end.

(** A new installation: no file and no key in the environment. *)
Definition fresh : disk :=
  {| dot_env := NoEnv; config_json := NoFile; environ_key := None; printed := [] |}.

(** ** Theorems *)

(** [create_initial_files] by cases on [.env]. *)
Lemma create_initial_files_run d :
  create_initial_files d =
    let d1 := if decide (d.(config_json) = NoFile)
              then println created_config_line (with_config_json (ConfigFile None) d)
              else d in
    match d.(dot_env) with
    | EnvFile _ => (Ok tt, d1)
    | NoEnv =>
        (Raise (SystemExit 1),
         foldl (λ d line, println line d)
           (if decide (d.(config_json) = NoFile)
            then println created_config_line
                   (with_config_json (ConfigFile None)
                      (println created_env_line (with_dot_env (EnvFile (Some [])) d)))
            else println created_env_line (with_dot_env (EnvFile (Some [])) d))
           instructions)
    end.
Proof.
  unfold create_initial_files, mbind, py_bind, py_get, py_modify, py_lift, mret, py_ret.
  destruct d as [[|k] c e out]; simpl; destruct (decide (c = NoFile)); done.
Qed.

(** What the function leaves on disk. *)
Lemma create_initial_files_disk d r d' :
  create_initial_files d = (r, d') →
  d'.(dot_env) = (if decide (d.(dot_env) = NoEnv) then EnvFile (Some []) else d.(dot_env)) ∧
  d'.(config_json) =
    (if decide (d.(config_json) = NoFile) then ConfigFile None else d.(config_json)) ∧
  d'.(environ_key) = d.(environ_key).
Proof.
  rewrite create_initial_files_run.
  destruct d as [[|k] c e out]; simpl; destruct (decide (c = NoFile)); by intros [= <- <-].
Qed.

Lemma startup_run d :
  startup d =
    match create_initial_files d with
    | (Ok _, d') => (make_client (load_dotenv d').(environ_key), load_dotenv d')
    | (Raise e, d') => (Raise e, d')
    end.
Proof.
  unfold startup, mbind, py_bind, py_get, py_modify, py_lift.
  by destruct (create_initial_files d) as [[[]|e] d'].
Qed.

Lemma load_dotenv_key d : (load_dotenv d).(environ_key) = effective_key d.
Proof. unfold load_dotenv, effective_key. by destruct d as [[|[k|]] c [e|] out]. Qed.

(** After the start-up [config.json] exists. *)
Lemma startup_spec_config d r d' : startup d = (r, d') → d'.(config_json) ≠ NoFile.
Proof.
  rewrite startup_run. destruct (create_initial_files d) as [r1 d1] eqn:H1.
  destruct (create_initial_files_disk _ _ _ H1) as (_ & Hc & _).
  assert (d1.(config_json) ≠ NoFile) as Hne by (rewrite Hc; by case_decide).
  destruct r1; intros [= <- <-]; [|done].
  unfold load_dotenv. by destruct (environ_key d1), (dot_env d1) as [|[]].
Qed.

(** On an installation without [.env] the function creates
    [.env] with an empty key, creates [config.json] with no device if it
    is missing, prints what it created and the instructions, and exits
    with status 1. *)
Theorem first_run_exits d :
  d.(dot_env) = NoEnv →
  ∃ d', create_initial_files d = (Raise (SystemExit 1), d') ∧
        d'.(dot_env) = EnvFile (Some []) ∧
        d'.(config_json) =
          (if decide (d.(config_json) = NoFile) then ConfigFile None else d.(config_json)) ∧
        d'.(printed) =
          d.(printed) ++ [created_env_line] ++
          (if decide (d.(config_json) = NoFile) then [created_config_line] else []) ++
          instructions.
Proof.
  intros He. rewrite create_initial_files_run, He. eexists. split; [done|].
  destruct (decide (config_json d = NoFile)); simpl; by rewrite <- ?app_assoc.
Qed.

(** Claim C31.  The start-up by cases: without [.env] the process exits
    with status 1; with [.env] and no key in the environment or the file
    the client's constructor raises; otherwise the client holds the
    environment's key, or else the file's, and [config.json] exists. *)
Theorem startup_spec d r d' :
  startup d = (r, d') →
  match d.(dot_env) with
  | NoEnv => r = Raise (SystemExit 1)
  | EnvFile _ =>
      r = match effective_key d with Some k => Ok k | None => Raise OpenAIError end ∧
      d'.(printed) = d.(printed) ++
        (if decide (d.(config_json) = NoFile) then [created_config_line] else [])
  end ∧ d'.(config_json) ≠ NoFile.
Proof.
  rewrite startup_run, create_initial_files_run.
  destruct d as [[|k] c e out]; simpl.
  - intros [= <- <-]. split; [done|]. by destruct (decide (c = NoFile)).
  - rewrite load_dotenv_key. intros [= <- <-].
    destruct (decide (c = NoFile)); destruct k, e; simpl; by rewrite ?app_nil_r.
Qed.

(** Claim C21.  A second start with the files of the first untouched goes
    through: the first start exits after writing [.env] with an empty key,
    and the second constructs the client with the empty string as its
    key and starts the threads with no device saved. *)
Theorem untouched_env_runs_unauthenticated d :
  d.(dot_env) = NoEnv → d.(environ_key) = None →
  ∃ d1 d2, startup d = (Raise (SystemExit 1), d1) ∧
           startup d1 = (Ok [], d2) ∧
           (d.(config_json) = NoFile → load_device d2.(config_json) = Ok None).
Proof.
  intros He Hk.
  destruct (create_initial_files d) as [r1 d1] eqn:H1.
  destruct (create_initial_files_disk _ _ _ H1) as (He1 & Hc1 & Hk1).
  rewrite decide_True in He1 by done.
  assert (r1 = Raise (SystemExit 1)) as ->.
  { rewrite create_initial_files_run, He in H1. by injection H1 as <- _. }
  destruct (create_initial_files d1) as [r2 d2] eqn:H2.
  destruct (create_initial_files_disk _ _ _ H2) as (He2 & Hc2 & Hk2).
  rewrite He1 in He2. rewrite decide_False in He2 by done.
  assert (r2 = Ok tt) as ->.
  { rewrite create_initial_files_run, He1 in H2. by injection H2 as <- _. }
  exists d1, (load_dotenv d2). rewrite !startup_run, H1, H2, load_dotenv_key.
  unfold effective_key. rewrite Hk2, Hk1, Hk, He2. split_and!; [done..|].
  intros Hc. assert ((load_dotenv d2).(config_json) = d2.(config_json)) as ->.
  { unfold load_dotenv. by destruct (environ_key d2), (dot_env d2) as [|[]]. }
  rewrite Hc2, Hc1, Hc. done.
Qed.

Lemma first_run_exits_witness :
  ∃ d', create_initial_files fresh = (Raise (SystemExit 1), d') ∧
        d'.(dot_env) = EnvFile (Some []) ∧ d'.(config_json) = ConfigFile None ∧
        length d'.(printed) = 6%nat.
Proof.
  destruct (first_run_exits fresh) as (d' & Hr & He & Hc & Hp); [done|].
  exists d'. split_and!; [exact Hr|exact He|exact Hc|by rewrite Hp].
Defined.

Lemma startup_spec_witness :
  ∃ d', startup (with_environ_key (Some (of_string "sk-test"))
                   (with_dot_env (EnvFile None) fresh)) = (Ok (of_string "sk-test"), d') ∧
        d'.(config_json) = ConfigFile None.
Proof.
  eexists. split; [reflexivity|].
  by destruct (startup_spec (with_environ_key (Some (of_string "sk-test"))
                               (with_dot_env (EnvFile None) fresh)) _ _ eq_refl) as [_ ?].
Defined.

Lemma untouched_env_runs_unauthenticated_witness :
  ∃ d1 d2, startup fresh = (Raise (SystemExit 1), d1) ∧ startup d1 = (Ok [], d2) ∧
           load_device d2.(config_json) = Ok None.
Proof.
  destruct (untouched_env_runs_unauthenticated fresh) as (d1 & d2 & H1 & H2 & H3);
    [done|done|].
  exists d1, d2. split_and!; [exact H1|exact H2|by apply H3].
Defined.
